(** * Container orchestrator: task lifecycle and reconciliation sweeps

    A shallow embedding of the [ContainerOrchestrator] class of
    [src/mod.tsx] and the properties of its task state machine.

    The class keeps a [Map<string, Task>] and talks to the outside through
    four host services: subprocesses ([Deno.Command]), the clock
    ([new Date().toISOString()]), the identifier generator
    ([crypto.randomUUID()]) and the state file ([Deno.writeTextFile]).
    The host is a parameter of the development: every theorem holds for
    every behaviour of the container runtime, the clock, the generator and
    the disk.  The methods are translated one by one into a small monad
    that threads the task map and the host, propagates a rejected promise,
    and records the subprocesses and file writes in the order they happen.

    Each method is modelled as it runs when no other request is interleaved
    at its [await] points. *)

From Stdlib Require Import List String Ascii ZArith Bool Lia DecimalString.
Import ListNotations.
Open Scope string_scope.

(** ** Strings

    JavaScript strings are modelled as Rocq strings, read as sequences of
    code units below 256.  On that range the white space and line
    terminators removed by [String.prototype.trim] are TAB, LF, VT, FF, CR,
    SPACE and NO-BREAK SPACE. *)

Definition isWhiteSpace (c : ascii) : bool :=
  let n := nat_of_ascii c in
  ((9 <=? n)%nat && (n <=? 13)%nat) || (n =? 32)%nat || (n =? 160)%nat.

Fixpoint trimStart (s : string) : string :=
  match s with
  | EmptyString => EmptyString
  | String c rest => if isWhiteSpace c then trimStart rest else s
  end.

Fixpoint trimEnd (s : string) : string :=
  match s with
  | EmptyString => EmptyString
  | String c rest =>
      match trimEnd rest with
      | EmptyString => if isWhiteSpace c then EmptyString else String c EmptyString
      | kept => String c kept
      end
  end.

(** [s.trim()] *)
Definition trim (s : string) : string := trimEnd (trimStart s).

(** [s.split(sep)] for a one-character separator: never the empty list. *)
Fixpoint split (sep : ascii) (s : string) : list string :=
  match s with
  | EmptyString => [EmptyString]
  | String c rest =>
      if Ascii.eqb c sep then EmptyString :: split sep rest
      else match split sep rest with
           | piece :: pieces => String c piece :: pieces
           | [] => [String c EmptyString]
           end
  end.

(** Truthiness of an optional string ([undefined] and the empty string are
    falsy), as tested by [if (task.containerId)] and [!task.containerId]. *)
Definition truthy (s : option string) : bool :=
  match s with
  | Some v => negb (v =? "")
  | None => false
  end.

(** A template literal [${x}] renders [undefined] by name. *)
Definition render (s : option string) : string :=
  match s with
  | Some v => v
  | None => "undefined"
  end.

(** The string behind an optional string that passed a truthiness test. *)
Definition narrowed (s : option string) : string :=
  match s with
  | Some v => v
  | None => ""
  end.

(** ** Data model *)

(** [Task["status"]] *)
Inductive Status := Stopped | Running | Error | Pending.

Definition Status_eqb (a b : Status) : bool :=
  match a, b with
  | Stopped, Stopped | Running, Running | Error, Error | Pending, Pending => true
  | _, _ => false
  end.

(** [interface Task]; an optional property is an [option], [env] lists the
    entries of the record in the order [Object.entries] enumerates them. *)
Record Task := mkTask {
  id : string;
  name : string;
  image : string;
  command : option (list string);
  env : option (list (string * string));
  ports : option (list string);
  volumes : option (list string);
  status : Status;
  containerId : option string;
  createdAt : string;
  updatedAt : string;
  autoRestart : bool
}.

(** [Omit<Task, "id" | "createdAt" | "updatedAt" | "status">], the argument
    of [createTask].  The type keeps the optional [containerId]. *)
Record TaskData := mkTaskData {
  td_name : string;
  td_image : string;
  td_command : option (list string);
  td_env : option (list (string * string));
  td_ports : option (list string);
  td_volumes : option (list string);
  td_containerId : option string;
  td_autoRestart : bool
}.

(** [interface ContainerInfo].  The fields come from destructuring the
    pieces of a split line, so a missing piece leaves [undefined]. *)
Record ContainerInfo := mkContainerInfo {
  info_id : option string;
  info_status : option string;
  info_name : option string;
  info_image : option string
}.

(** The result object of [runCommand]. *)
Record CommandResult := mkCommandResult {
  success : bool;
  output : string;
  error : option string
}.

(** The result object of [startTask], [stopTask] and [removeTask]. *)
Record Reply := mkReply {
  ok : bool;
  message : string
}.

(** The result object of [getTaskLogs]. *)
Record LogsReply := mkLogsReply {
  logs_ok : bool;
  logs : option string;
  logs_message : option string
}.

(** Field assignments [task.f = v] and the copy [{ ...task, updatedAt: v }]. *)
Definition set_status (s : Status) (t : Task) : Task :=
  mkTask (id t) (name t) (image t) (command t) (env t) (ports t) (volumes t)
         s (containerId t) (createdAt t) (updatedAt t) (autoRestart t).

Definition set_containerId (c : string) (t : Task) : Task :=
  mkTask (id t) (name t) (image t) (command t) (env t) (ports t) (volumes t)
         (status t) (Some c) (createdAt t) (updatedAt t) (autoRestart t).

Definition set_updatedAt (u : string) (t : Task) : Task :=
  mkTask (id t) (name t) (image t) (command t) (env t) (ports t) (volumes t)
         (status t) (containerId t) (createdAt t) u (autoRestart t).

(** ** The task map

    A JavaScript [Map] iterates in insertion order, and [set] on a key that
    is present keeps its position: an association list in insertion
    order. *)

Definition TaskMap := list (string * Task).

(** [tasks.get(key)] *)
Fixpoint mapGet (key : string) (m : TaskMap) : option Task :=
  match m with
  | [] => None
  | (k, t) :: rest => if k =? key then Some t else mapGet key rest
  end.

(** [tasks.set(key, value)] *)
Fixpoint mapSet (key : string) (value : Task) (m : TaskMap) : TaskMap :=
  match m with
  | [] => [(key, value)]
  | (k, t) :: rest =>
      if k =? key then (k, value) :: rest else (k, t) :: mapSet key value rest
  end.

(** [tasks.delete(key)] *)
Fixpoint mapDelete (key : string) (m : TaskMap) : TaskMap :=
  match m with
  | [] => []
  | (k, t) :: rest =>
      if k =? key then mapDelete key rest else (k, t) :: mapDelete key rest
  end.

(** An assignment to a field of the object that the map holds under [key]:
    the map sees it without any [set]. *)
Fixpoint mapAssign (key : string) (f : Task -> Task) (m : TaskMap) : TaskMap :=
  match m with
  | [] => []
  | (k, t) :: rest =>
      if k =? key then (k, f t) :: rest else (k, t) :: mapAssign key f rest
  end.

Definition mapKeys (m : TaskMap) : list string := List.map fst m.

(** ** The host *)

(** What [new Deno.Command(...).output()] does: the process exits with a
    code and its two captured streams, or the call throws (the program is
    missing, the launch is refused). *)
Inductive SpawnOutcome :=
| Exited (code : Z) (stdout stderr : string)
| SpawnFailed (reason : string).

(** The object written to the state file, before [JSON.stringify]. *)
Record Snapshot := mkSnapshot {
  snap_tasks : TaskMap;
  lastSaved : string
}.

Record Host := mkHost {
  World : Type;
  spawn : list string -> World -> SpawnOutcome * World;
  toISOString : World -> string * World;
  randomUUID : World -> string * World;
  (** [None]: the write completed; [Some reason]: the promise rejected. *)
  writeTextFile : string -> Snapshot -> World -> option string * World
}.

(** What the orchestrator does to the outside, in order. *)
Inductive Event :=
| EvSpawn (cmd : list string) (result : SpawnOutcome)
| EvWrite (path : string) (content : Snapshot) (failure : option string).

(** How an [async] method ends: its promise resolves or rejects. *)
Inductive Outcome (A : Type) :=
| Returned (value : A)
| Thrown (reason : string).
Arguments Returned {A} value.
Arguments Thrown {A} reason.

Section Orchestrator.

Context (H : Host).

(** ** State and computations *)

Record State := mkState {
  tasks : TaskMap;
  world : World H
}.

Record Run (A : Type) := mkRun {
  outcome : Outcome A;
  final : State;
  trace : list Event
}.
Arguments mkRun {A} outcome final trace.
Arguments outcome {A} r.
Arguments final {A} r.
Arguments trace {A} r.

(** An [async] method: from the state it starts in to how it ends, the
    state it leaves and what it did to the outside. *)
Definition M (A : Type) := State -> Run A.

Definition ret {A} (a : A) : M A := fun st => mkRun (Returned a) st [].

Definition bind {A B} (m : M A) (k : A -> M B) : M B :=
  fun st =>
    let r := m st in
    match outcome r with
    | Returned a =>
        let r' := k a (final r) in
        mkRun (outcome r') (final r') (trace r ++ trace r')
    | Thrown reason => mkRun (Thrown reason) (final r) (trace r)
    end.

Notation "x <- m ;; k" := (bind m (fun x => k))
  (at level 61, m at next level, right associativity).
Notation "m ;; k" := (bind m (fun _ => k))
  (at level 61, right associativity).

Definition readTasks : M TaskMap :=
  fun st => mkRun (Returned (tasks st)) st [].

Definition writeTasks (f : TaskMap -> TaskMap) : M unit :=
  fun st => mkRun (Returned tt) (mkState (f (tasks st)) (world st)) [].

Definition now : M string :=
  fun st =>
    let (t, w) := toISOString H (world st) in
    mkRun (Returned t) (mkState (tasks st) w) [].

Definition freshId : M string :=
  fun st =>
    let (u, w) := randomUUID H (world st) in
    mkRun (Returned u) (mkState (tasks st) w) [].

Definition stateFile : string := "./orchestrator-state.json".

(** [saveState] *)
Definition saveState : M unit :=
  entries <- readTasks ;;
  stamp <- now ;;
  fun st =>
    let content := mkSnapshot entries stamp in
    let (failure, w) := writeTextFile H stateFile content (world st) in
    mkRun (match failure with
           | None => Returned tt
           | Some reason => Thrown reason
           end)
          (mkState (tasks st) w)
          [EvWrite stateFile content failure].

(** The object [runCommand] builds from what the subprocess did. *)
Definition commandResult (o : SpawnOutcome) : CommandResult :=
  match o with
  | Exited code stdout stderr =>
      mkCommandResult (code =? 0)%Z stdout
                      (if stderr =? "" then None else Some stderr)
  | SpawnFailed reason => mkCommandResult false "" (Some reason)
  end.

(** [runCommand] *)
Definition runCommand (cmd : list string) : M CommandResult :=
  fun st =>
    let (o, w) := spawn H cmd (world st) in
    mkRun (Returned (commandResult o)) (mkState (tasks st) w) [EvSpawn cmd o].

Definition inspectCommand (cid : string) : list string :=
  ["podman"; "inspect"; "--format";
   "{{.Id}},{{.State.Status}},{{.Name}},{{.Config.Image}}"; cid].

(** What [getContainerInfo] makes of the result of the inspect command. *)
Definition containerInfoOf (result : CommandResult) : option ContainerInfo :=
  if negb (success result) then None
  else
    let pieces := split "," (trim (output result)) in
    Some (mkContainerInfo (nth_error pieces 0) (nth_error pieces 1)
                          (nth_error pieces 2) (nth_error pieces 3)).

(** [getContainerInfo] *)
Definition getContainerInfo (cid : string) : M (option ContainerInfo) :=
  result <- runCommand (inspectCommand cid) ;;
  ret (containerInfoOf result).

(** ** Task management *)

(** [createTask] *)
Definition createTask (taskData : TaskData) : M Task :=
  uuid <- freshId ;;
  created <- now ;;
  updated <- now ;;
  let task :=
    mkTask uuid (td_name taskData) (td_image taskData) (td_command taskData)
           (td_env taskData) (td_ports taskData) (td_volumes taskData)
           Stopped (td_containerId taskData) created updated
           (td_autoRestart taskData) in
  writeTasks (mapSet (id task) task) ;;
  saveState ;;
  ret task.

Definition flags (flag : string) (values : option (list string)) : list string :=
  match values with
  | Some vs => flat_map (fun v => [flag; v]) vs
  | None => []
  end.

(** The [podman run] command line that [startTask] builds. *)
Definition runCommandLine (task : Task) : list string :=
  ["podman"; "run"; "-d"; "--name"; "task-" ++ id task]
  ++ flags "-p" (ports task)
  ++ flags "-v" (volumes task)
  ++ match env task with
     | Some vars => flat_map (fun kv => ["-e"; fst kv ++ "=" ++ snd kv]) vars
     | None => []
     end
  ++ [image task]
  ++ match command task with
     | Some args => if (0 <? List.length args)%nat then args else []
     | None => []
     end.

(** The two statements of [startTask] before the subprocess is awaited:
    [task.status = "pending"] on the object the map holds, then the [set]
    that puts a copy with a new [updatedAt] in its place.  The result is
    the local [task], which the map no longer holds. *)
Definition markPending (taskId : string) (task : Task) : M Task :=
  writeTasks (mapAssign taskId (set_status Pending)) ;;
  stamp <- now ;;
  writeTasks (mapSet taskId (set_updatedAt stamp (set_status Pending task))) ;;
  ret (set_status Pending task).

(** [startTask] *)
Definition startTask (taskId : string) : M Reply :=
  entries <- readTasks ;;
  match mapGet taskId entries with
  | None => ret (mkReply false "Task not found")
  | Some task =>
      let cmd := runCommandLine task in
      task <- markPending taskId task ;;
      result <- runCommand cmd ;;
      if success result then
        let task := set_containerId (trim (output result))
                                    (set_status Running task) in
        stamp <- now ;;
        writeTasks (mapSet taskId (set_updatedAt stamp task)) ;;
        saveState ;;
        ret (mkReply true "Task started successfully")
      else
        let task := set_status Error task in
        stamp <- now ;;
        writeTasks (mapSet taskId (set_updatedAt stamp task)) ;;
        saveState ;;
        ret (mkReply false ("Failed to start task: " ++ render (error result)))
  end.

(** [stopTask] *)
Definition stopTask (taskId : string) : M Reply :=
  entries <- readTasks ;;
  match mapGet taskId entries with
  | None => ret (mkReply false "Task not found")
  | Some task =>
      if negb (truthy (containerId task)) then
        ret (mkReply false "No container ID found")
      else
        result <- runCommand ["podman"; "stop"; narrowed (containerId task)] ;;
        if success result then
          writeTasks (mapAssign taskId (set_status Stopped)) ;;
          stamp <- now ;;
          writeTasks (mapSet taskId (set_updatedAt stamp (set_status Stopped task))) ;;
          saveState ;;
          ret (mkReply true "Task stopped successfully")
        else
          ret (mkReply false ("Failed to stop task: " ++ render (error result)))
  end.

(** [removeTask].  [stopTask] changes only the [status] of the object that
    [task] names, and the statements after it read its [containerId]. *)
Definition removeTask (taskId : string) : M Reply :=
  entries <- readTasks ;;
  match mapGet taskId entries with
  | None => ret (mkReply false "Task not found")
  | Some task =>
      (if truthy (containerId task) && Status_eqb (status task) Running
       then stopTask taskId ;; ret tt
       else ret tt) ;;
      (if truthy (containerId task)
       then runCommand ["podman"; "rm"; narrowed (containerId task)] ;; ret tt
       else ret tt) ;;
      writeTasks (mapDelete taskId) ;;
      saveState ;;
      ret (mkReply true "Task removed successfully")
  end.

(** [getTaskLogs] *)
Definition getTaskLogs (taskId : string) : M LogsReply :=
  entries <- readTasks ;;
  match mapGet taskId entries with
  | None => ret (mkLogsReply false None (Some "Task or container not found"))
  | Some task =>
      if negb (truthy (containerId task)) then
        ret (mkLogsReply false None (Some "Task or container not found"))
      else
        result <- runCommand ["podman"; "logs"; "--tail"; "100";
                              narrowed (containerId task)] ;;
        if success result then
          ret (mkLogsReply true (Some (output result)) None)
        else
          ret (mkLogsReply false None
                 (Some ("Failed to get logs: " ++ render (error result))))
  end.

(** ** Reconciliation sweeps *)

(** [for (const [taskId, task] of this.tasks) body]: the keys in insertion
    order, each entry read when the iteration reaches it.  No body below
    adds or deletes a key. *)
Fixpoint forEachKey (body : string -> Task -> M unit) (keys : list string)
  : M unit :=
  match keys with
  | [] => ret tt
  | key :: rest =>
      entries <- readTasks ;;
      match mapGet key entries with
      | Some task => body key task
      | None => ret tt
      end ;;
      forEachKey body rest
  end.

Definition forEachTask (body : string -> Task -> M unit) : M unit :=
  entries <- readTasks ;;
  forEachKey body (mapKeys entries).

(** [containerInfo.status === "running"] *)
Definition reportsRunning (info : ContainerInfo) : bool :=
  match info_status info with
  | Some s => s =? "running"
  | None => false
  end.

(** The body of the loop of [restartAutoRestartTasks]. *)
Definition restartIfDown (taskId : string) (task : Task) : M unit :=
  if autoRestart task && Status_eqb (status task) Running
     && truthy (containerId task)
  then
    containerInfo <- getContainerInfo (narrowed (containerId task)) ;;
    match containerInfo with
    | Some info =>
        if negb (reportsRunning info) then startTask taskId ;; ret tt
        else ret tt
    | None => startTask taskId ;; ret tt
    end
  else ret tt.

(** [restartAutoRestartTasks] *)
Definition restartAutoRestartTasks : M unit := forEachTask restartIfDown.

(** The body of the loop of [updateTaskStatuses]: the assignments go to
    the object the map holds, and the [set] puts the same object back. *)
Definition syncStatus (taskId : string) (task : Task) : M unit :=
  if truthy (containerId task) then
    containerInfo <- getContainerInfo (narrowed (containerId task)) ;;
    match containerInfo with
    | Some info =>
        let newStatus := if reportsRunning info then Running else Stopped in
        if negb (Status_eqb newStatus (status task)) then
          writeTasks (mapAssign taskId (set_status newStatus)) ;;
          stamp <- now ;;
          writeTasks (mapAssign taskId (set_updatedAt stamp)) ;;
          writeTasks (mapSet taskId (set_updatedAt stamp (set_status newStatus task)))
        else ret tt
    | None => ret tt
    end
  else ret tt.

(** [updateTaskStatuses] *)
Definition updateTaskStatuses : M unit :=
  forEachTask syncStatus ;;
  saveState.

(** [getTasks] *)
Definition getTasks (st : State) : list Task := List.map snd (tasks st).

(** [getTask] *)
Definition getTask (taskId : string) (st : State) : option Task :=
  mapGet taskId (tasks st).

End Orchestrator.

Arguments mkRun {H A} outcome final trace.
Arguments outcome {H A} r.
Arguments final {H A} r.
Arguments trace {H A} r.
Arguments tasks {H} s.
Arguments world {H} s.
Arguments mkState {H} tasks world.
Arguments getTasks {H} st.
Arguments getTask {H} taskId st.

(** ** Vocabulary of the statements *)

Definition settle {A} (failure : option string) (a : A) : Outcome A :=
  match failure with
  | None => Returned a
  | Some reason => Thrown reason
  end.

(** The durable writes of the host never fail. *)
Definition writesSucceed (H : Host) : Prop :=
  forall path content w, fst (writeTextFile H path content w) = None.

(** The task that [startTask] leaves in the map, from the task it found,
    what the [run] subprocess did and the time of the last [set]. *)
Definition started (task : Task) (o : SpawnOutcome) (stamp : string) : Task :=
  let result := commandResult o in
  set_updatedAt stamp
    (if success result
     then set_containerId (trim (output result)) (set_status Running (set_status Pending task))
     else set_status Error (set_status Pending task)).

Definition startReply (o : SpawnOutcome) : Reply :=
  let result := commandResult o in
  if success result then mkReply true "Task started successfully"
  else mkReply false ("Failed to start task: " ++ render (error result)).

Definition stopCommand (task : Task) : list string :=
  ["podman"; "stop"; narrowed (containerId task)].

(** The record [createTask] builds. *)
Definition created (taskData : TaskData) (uuid createdAt updatedAt : string) : Task :=
  mkTask uuid (td_name taskData) (td_image taskData) (td_command taskData)
         (td_env taskData) (td_ports taskData) (td_volumes taskData)
         Stopped (td_containerId taskData) createdAt updatedAt
         (td_autoRestart taskData).

(** What an inspection of container [cid] yields in world [w]. *)
Definition observe (H : Host) (cid : string) (w : World H) : option ContainerInfo :=
  containerInfoOf (commandResult (fst (spawn H (inspectCommand cid) w))).

(** The status that [updateTaskStatuses] derives from an inspection. *)
Definition observedStatus (info : ContainerInfo) : Status :=
  if reportsRunning info then Running else Stopped.

(** The entry that the status sweep leaves for a task with a container. *)
Definition synced (task : Task) (info : option ContainerInfo) (stamp : string) : Task :=
  match info with
  | Some i =>
      if negb (Status_eqb (observedStatus i) (status task))
      then set_updatedAt stamp (set_status (observedStatus i) task)
      else task
  | None => task
  end.

(** The three conditions of [restartAutoRestartTasks] on the stored task. *)
Definition eligible (task : Task) : bool :=
  autoRestart task && Status_eqb (status task) Running && truthy (containerId task).

(** [!containerInfo || containerInfo.status !== "running"] *)
Definition down (info : option ContainerInfo) : bool :=
  match info with
  | Some i => negb (reportsRunning i)
  | None => true
  end.

(** A [podman run] subprocess for the container slot of task [taskId]. *)
Definition launches (taskId : string) (e : Event) : bool :=
  match e with
  | EvSpawn (program :: verb :: _ :: _ :: slot :: _) _ =>
      (program =? "podman") && (verb =? "run") && (slot =? "task-" ++ taskId)
  | _ => false
  end.

(** Every task is stored under its own [id], as [createTask] stores it. *)
Definition keysAreIds (m : TaskMap) : Prop :=
  forall k t, In (k, t) m -> id t = k.

(** The keys of the map are distinct (it is a [Map]) and are the
    identifiers of the tasks. *)
Definition wellFormed (m : TaskMap) : Prop :=
  NoDup (mapKeys m) /\ keysAreIds m.

(** A completed write of a snapshot in which task [taskId] is [Pending]
    comes before the first [podman run] for it. *)
Fixpoint pendingSavedBeforeRun (taskId : string) (tr : list Event) : bool :=
  match tr with
  | [] => false
  | EvSpawn cmd o :: rest =>
      if launches taskId (EvSpawn cmd o) then false
      else pendingSavedBeforeRun taskId rest
  | EvWrite _ content None :: rest =>
      match mapGet taskId (snap_tasks content) with
      | Some t => Status_eqb (status t) Pending || pendingSavedBeforeRun taskId rest
      | None => pendingSavedBeforeRun taskId rest
      end
  | EvWrite _ _ (Some _) :: rest => pendingSavedBeforeRun taskId rest
  end.

(** The calls other than [removeTask]. *)
Inductive Request :=
| Create (taskData : TaskData)
| Start (taskId : string)
| Stop (taskId : string)
| Logs (taskId : string)
| SweepRestart
| SweepStatus.

Definition perform (H : Host) (req : Request) : M H unit :=
  match req with
  | Create taskData => bind H (createTask H taskData) (fun _ => ret H tt)
  | Start taskId => bind H (startTask H taskId) (fun _ => ret H tt)
  | Stop taskId => bind H (stopTask H taskId) (fun _ => ret H tt)
  | Logs taskId => bind H (getTaskLogs H taskId) (fun _ => ret H tt)
  | SweepRestart => restartAutoRestartTasks H
  | SweepStatus => updateTaskStatuses H
  end.

(** The [containerId] that [startTask] leaves on [task] when its
    [podman run] ended as [o]: the trimmed output after an exit with 0,
    the one the task had otherwise. *)
Definition startedReference (task : Task) (o : SpawnOutcome) : option string :=
  if success (commandResult o)
  then Some (trim (output (commandResult o)))
  else containerId task.

(** The [containerId] of [task'] is the trimmed output of a [podman run]
    of [tr] that was launched with the command line of [task] and exited
    with 0. *)
Definition restartedBy (task task' : Task) (tr : list Event) : Prop :=
  exists o,
    In (EvSpawn (runCommandLine task) o) tr /\
    success (commandResult o) = true /\
    containerId task' = Some (trim (output (commandResult o))).

Section SaveAndRemove.

Context (H : Host).

(** The stamp, the snapshot and the end of the write of a [saveState] that
    starts in [st]. *)
Definition saveStamp (st : State H) : string := fst (toISOString H (world st)).

Definition saved (st : State H) : Snapshot := mkSnapshot (tasks st) (saveStamp st).

Definition saveFailure (st : State H) : option string :=
  fst (writeTextFile H stateFile (saved st) (snd (toISOString H (world st)))).

Definition afterSave (st : State H) : State H :=
  mkState (tasks st)
          (snd (writeTextFile H stateFile (saved st) (snd (toISOString H (world st))))).

(** What [removeTask] does after the optional [stopTask]. *)
Definition removeRest (taskId : string) (task : Task) : M H Reply :=
  bind H (if truthy (containerId task)
          then bind H (runCommand H ["podman"; "rm"; narrowed (containerId task)])
                    (fun _ => ret H tt)
          else ret H tt)
       (fun _ =>
          bind H (writeTasks H (mapDelete taskId))
               (fun _ => bind H (saveState H)
                           (fun _ => ret H (mkReply true "Task removed successfully")))).

End SaveAndRemove.

Arguments saved {H} st.
Arguments saveStamp {H} st.
Arguments saveFailure {H} st.
Arguments afterSave {H} st.

(** ** A stub host

    The runtime answers each command line from a fixed table, the file
    write always ends the same way, and the world is a counter from which
    time stamps and identifiers are drawn. *)

Definition decimal (n : nat) : string :=
  DecimalString.NilZero.string_of_uint (Nat.to_uint n).

Definition stubHost (podman : list string -> SpawnOutcome)
                    (writeFailure : option string) : Host :=
  mkHost nat
         (fun cmd w => (podman cmd, w))
         (fun w => ("t" ++ decimal w, S w))
         (fun w => ("id" ++ decimal w, S w))
         (fun _ _ w => (writeFailure, w)).

(** A runtime in which [run] prints [printed], inspect reports [state] and
    everything else succeeds silently. *)
Definition healthy (printed state : string) (cmd : list string) : SpawnOutcome :=
  match cmd with
  | _ :: "run" :: _ => Exited 0 printed ""
  | _ :: "inspect" :: _ :: _ :: cid :: _ =>
      Exited 0 (cid ++ "," ++ state ++ ",task-x,nginx:latest" ++ String "010" "") ""
  | _ => Exited 0 "" ""
  end.

(** A runtime that knows no container: every command exits with 125. *)
Definition noSuchContainer (cmd : list string) : SpawnOutcome :=
  Exited 125 "" "Error: no such container".

(** A host without the [podman] program: every launch throws. *)
Definition noPodman (cmd : list string) : SpawnOutcome :=
  SpawnFailed "Failed to spawn 'podman': entity not found".

Definition newline : string := String "010" "".

(** [podman] works and reports the containers as running. *)
Definition hostUp : Host :=
  stubHost (healthy ("abc123" ++ newline) "running") None.

(** [podman] works and reports the containers as exited. *)
Definition hostExited : Host :=
  stubHost (healthy ("def456" ++ newline) "exited") None.

(** [podman] works and knows no container. *)
Definition hostGone : Host := stubHost noSuchContainer None.

(** There is no [podman] to launch. *)
Definition hostBroken : Host := stubHost noPodman None.

(** [podman] works and the disk is full. *)
Definition hostDiskFull : Host :=
  stubHost (healthy ("abc123" ++ newline) "running")
           (Some "No space left on device").

(** The create request of the scenario of the specification, the same
    request with a container reference in it, and a request with an empty
    name and an empty image. *)
Definition webData : TaskData :=
  mkTaskData "web" "nginx:latest" None None (Some ["8080:80"]) None None false.

Definition ghostData : TaskData :=
  mkTaskData "web" "nginx:latest" None None (Some ["8080:80"]) None
             (Some "ghost") false.

Definition blankData : TaskData :=
  mkTaskData "" "" None None None None None false.

(** The task [id0] of the scenario, with a status, a container reference
    and a restart policy. *)
Definition webTask (s : Status) (cid : option string) (auto : bool) : Task :=
  mkTask "id0" "web" "nginx:latest" None None (Some ["8080:80"]) None
         s cid "t1" "t2" auto.

(** A second task, [id1], never started. *)
Definition idleTask : Task :=
  mkTask "id1" "db" "postgres:16" None (Some [("POSTGRES_DB", "app")]) None
         (Some ["/srv/db:/var/lib/postgresql/data"]) Stopped None "t3" "t4" true.

(** The map with these two tasks, on a host in world [w]. *)
Definition storeOf (H : Host) (w : World H) (task : Task) : State H :=
  mkState [(id task, task); (id idleTask, idleTask)] w.

(** [id0] created and never started. *)
Definition freshTask : Task := webTask Stopped None false.

(** [id0] running in container [abc123], to be kept alive. *)
Definition liveTask : Task := webTask Running (Some "abc123") true.

(** [id0] stopped, with the container [abc123] of an earlier start. *)
Definition haltedTask : Task := webTask Stopped (Some "abc123") false.

(** The empty map on a host in world [w]. *)
Definition emptyStore (H : Host) (w : World H) : State H := mkState [] w.

(** ** Further vocabulary: subprocesses, task specifications *)

Definition logsCommand (task : Task) : list string :=
  ["podman"; "logs"; "--tail"; "100"; narrowed (containerId task)].

Definition removeCommand (task : Task) : list string :=
  ["podman"; "rm"; narrowed (containerId task)].

(** The command lines of the subprocesses of a trace, in order. *)
Fixpoint commands (tr : list Event) : list (list string) :=
  match tr with
  | [] => []
  | EvSpawn cmd _ :: rest => cmd :: commands rest
  | EvWrite _ _ _ :: rest => commands rest
  end.

(** A [podman inspect] subprocess. *)
Definition isInspect (e : Event) : bool :=
  match e with
  | EvSpawn (program :: verb :: _) _ => (program =? "podman") && (verb =? "inspect")
  | _ => false
  end.

(** Two records of the same task: they agree on everything but [status],
    [containerId] and [updatedAt]. *)
Definition sameSpec (t t' : Task) : Prop :=
  id t' = id t /\ name t' = name t /\ image t' = image t /\
  command t' = command t /\ env t' = env t /\ ports t' = ports t /\
  volumes t' = volumes t /\ createdAt t' = createdAt t /\
  autoRestart t' = autoRestart t.

(** The answer of [getTaskLogs] for a task with a container, from what the
    [logs] subprocess did. *)
Definition logsReply (o : SpawnOutcome) : LogsReply :=
  let result := commandResult o in
  if success result then mkLogsReply true (Some (output result)) None
  else mkLogsReply false None
         (Some ("Failed to get logs: " ++ render (error result))).

(** The map of [st] holds under [key] a record that [R] relates to
    [task]. *)
Definition relatedTo (H : Host) (R : Task -> Task -> Prop) (key : string)
                     (task : Task) (st : State H) : Prop :=
  exists task', mapGet key (tasks st) = Some task' /\ R task task'.

(** ** Strings, continued *)

(** [pieces.join(sep)] *)
Fixpoint join (sep : string) (pieces : list string) : string :=
  match pieces with
  | [] => ""
  | piece :: rest =>
      match rest with
      | [] => piece
      | _ => piece ++ sep ++ join sep rest
      end
  end.

(** [s.includes(c)] for a character. *)
Fixpoint contains (c : ascii) (s : string) : bool :=
  match s with
  | EmptyString => false
  | String d rest => Ascii.eqb d c || contains c rest
  end.

Fixpoint allWhiteSpace (s : string) : bool :=
  match s with
  | EmptyString => true
  | String c rest => isWhiteSpace c && allWhiteSpace rest
  end.

(** The string is empty or starts with a character that [trim] keeps. *)
Definition headClean (s : string) : Prop :=
  match s with
  | EmptyString => True
  | String c _ => isWhiteSpace c = false
  end.

(** ** Objects

    The own properties of an ordinary object are enumerated with the array
    indices first, in increasing order, and then the other names in the
    order in which they were created ([Object.entries], [JSON.stringify]).
    An array index is the decimal form, without leading zero, of an integer
    below 2^32 - 1. *)

Definition digitValue (c : ascii) : option N :=
  let n := N_of_ascii c in
  if ((48 <=? n) && (n <=? 57))%N then Some (n - 48)%N else None.

Fixpoint digitsValue (acc : N) (s : string) : option N :=
  match s with
  | EmptyString => Some acc
  | String c rest =>
      match digitValue c with
      | Some d => digitsValue (10 * acc + d)%N rest
      | None => None
      end
  end.

Definition arrayIndex (key : string) : option N :=
  match key with
  | EmptyString => None
  | String c rest =>
      if Ascii.eqb c "0" then (if rest =? "" then Some 0%N else None)
      else match digitsValue 0 key with
           | Some n => if (n <? 4294967295)%N then Some n else None
           | None => None
           end
  end.

Section Objects.

Context {A : Type}.

(** The own property [key] of an object is defined or given a new value:
    a name that is present keeps its place. *)
Fixpoint assocSet (key : string) (value : A) (o : list (string * A))
  : list (string * A) :=
  match o with
  | [] => [(key, value)]
  | (k, v) :: rest =>
      if k =? key then (k, value) :: rest else (k, v) :: assocSet key value rest
  end.

Fixpoint insertIndexed (n : N) (e : string * A) (l : list (N * (string * A)))
  : list (N * (string * A)) :=
  match l with
  | [] => [(n, e)]
  | (m, e') :: rest =>
      if (n <? m)%N then (n, e) :: l else (m, e') :: insertIndexed n e rest
  end.

(** The properties named by an array index, sorted by index. *)
Fixpoint indexed (o : list (string * A)) : list (N * (string * A)) :=
  match o with
  | [] => []
  | e :: rest =>
      match arrayIndex (fst e) with
      | Some n => insertIndexed n e (indexed rest)
      | None => indexed rest
      end
  end.

Definition isNamed (e : string * A) : bool :=
  match arrayIndex (fst e) with
  | Some _ => false
  | None => true
  end.

(** [Object.entries(o)] for an object whose properties were created in
    the order of the list [o]. *)
Definition ownEntries (o : list (string * A)) : list (string * A) :=
  (List.map snd (indexed o) ++ filter isNamed o)%list.

End Objects.

(** ** Loading the state file *)

(** [new Map(entries)] *)
Definition newMap (entries : list (string * Task)) : TaskMap :=
  fold_left (fun m e => mapSet (fst e) (snd e) m) entries [].

(** [Object.fromEntries(this.tasks.entries())], then [Object.entries] of
    the object read back from its JSON text: the entries of the [tasks]
    property of a state file that holds the snapshot. *)
Definition storedEntries (snapshot : Snapshot) : list (string * Task) :=
  ownEntries (newMap (snap_tasks snapshot)).

(** What the [try] block of [loadState] meets: the read is rejected, the
    text is not JSON, or the value read has no properties (all of them
    caught); or there is a state object, with or without a [tasks]
    property, whose entries are given in the order of [Object.entries] and
    whose values are task records. *)
Inductive FileRead :=
| Unreadable (reason : string)
| StateObject (tasksProperty : option (list (string * Task))).

(** ** The boundary: what the HTTP routes answer *)

Inductive Payload :=
| TasksPayload (listed : list Task)
| TaskPayload (task : Task)
| ReplyPayload (reply : Reply)
| ErrorPayload (error : option string)
| LogsPayload (logs : option string).

(** [c.json(payload, code)]; the code is 200 when none is given. *)
Record Response := mkResponse {
  code : nat;
  payload : Payload
}.

(** [await c.req.json()]: the body parsed, or the rejection of the
    parser. *)
Inductive Body :=
| Malformed (reason : string)
| Json (taskData : TaskData).

Section Boundary.

Context (H : Host).

(** [loadState] *)
Definition loadState (read : FileRead) : M H unit :=
  match read with
  | Unreadable _ => ret H tt
  | StateObject tasksProperty =>
      writeTasks H (fun _ =>
        newMap (match tasksProperty with
                | Some entries => entries
                | None => []
                end))
  end.

Definition throw {A} (reason : string) : M H A :=
  fun st => mkRun (Thrown reason) st [].

(** [try { body } catch (error) { handler }] *)
Definition tryCatch {A} (body : M H A) (handler : string -> M H A) : M H A :=
  fun st =>
    let r := body st in
    match outcome r with
    | Returned _ => r
    | Thrown reason =>
        let r' := handler reason (final r) in
        mkRun (outcome r') (final r') (trace r ++ trace r')
    end.

(** [GET /api/tasks] *)
Definition listRoute : M H Response :=
  bind H (readTasks H) (fun entries =>
  ret H (mkResponse 200 (TasksPayload (List.map snd entries)))).

(** [POST /api/tasks] *)
Definition createRoute (body : Body) : M H Response :=
  tryCatch
    (bind H (match body with
             | Malformed reason => throw reason
             | Json taskData => ret H taskData
             end) (fun taskData =>
     bind H (createTask H taskData) (fun task =>
     ret H (mkResponse 201 (TaskPayload task)))))
    (fun _ => ret H (mkResponse 400 (ErrorPayload (Some "Invalid request body")))).

(** [GET /api/tasks/:id] *)
Definition getRoute (taskId : string) : M H Response :=
  bind H (readTasks H) (fun entries =>
  match mapGet taskId entries with
  | None => ret H (mkResponse 404 (ErrorPayload (Some "Task not found")))
  | Some task => ret H (mkResponse 200 (TaskPayload task))
  end).

(** [c.json(result, result.success ? 200 : 400)] *)
Definition replyResponse (result : Reply) : Response :=
  mkResponse (if ok result then 200 else 400) (ReplyPayload result).

(** [POST /api/tasks/:id/start] *)
Definition startRoute (taskId : string) : M H Response :=
  bind H (startTask H taskId) (fun result => ret H (replyResponse result)).

(** [POST /api/tasks/:id/stop] *)
Definition stopRoute (taskId : string) : M H Response :=
  bind H (stopTask H taskId) (fun result => ret H (replyResponse result)).

(** [DELETE /api/tasks/:id] *)
Definition deleteRoute (taskId : string) : M H Response :=
  bind H (removeTask H taskId) (fun result => ret H (replyResponse result)).

(** [GET /api/tasks/:id/logs] *)
Definition logsRoute (taskId : string) : M H Response :=
  bind H (getTaskLogs H taskId) (fun result =>
  if logs_ok result then ret H (mkResponse 200 (LogsPayload (logs result)))
  else ret H (mkResponse 400 (ErrorPayload (logs_message result)))).

End Boundary.

Arguments throw {H A} reason.
Arguments tryCatch {H A} body handler.

(** ** The create form of the page

    The submit handler of [createTaskForm] builds the create request from
    the fields of the form. *)

(** The values of the fields. *)
Record Form := mkForm {
  taskName : string;
  taskImage : string;
  autoRestartChecked : bool;
  taskPorts : string;
  taskCommand : string;
  taskVolumes : string;
  taskEnv : string
}.

Definition nonEmpty (s : string) : bool := negb (s =? "").

(** [str.split(',').map(p => p.trim()).filter(p => p)], set only when the
    trimmed field is not empty. *)
Definition parseList (field : string) : option (list string) :=
  let str := trim field in
  if nonEmpty str
  then Some (filter nonEmpty (List.map trim (split "," str)))
  else None.

(** [env[name] = value] for a string [value] and an object [env] that
    started as [{}]: the name [__proto__] reaches the setter that the
    object inherits from [Object.prototype], which ignores a string, so no
    property is made; every other name is an own property. *)
Definition assignString (name value : string) (env : list (string * string))
  : list (string * string) :=
  if name =? "__proto__" then env else assocSet name value env.

(** The body of the [forEach] over the lines of the environment field. *)
Definition parseEnvLine (env : list (string * string)) (line : string)
  : list (string * string) :=
  match split "=" line with
  | key :: valueParts =>
      if nonEmpty key && (0 <? List.length valueParts)%nat
      then assignString (trim key) (trim (join "=" valueParts)) env
      else env
  | [] => env
  end.

(** The [env] object of the request, as [Object.entries] enumerates it. *)
Definition parseEnv (field : string) : option (list (string * string)) :=
  let envStr := trim field in
  if nonEmpty envStr
  then Some (ownEntries (fold_left parseEnvLine (split "010" envStr) []))
  else None.

(** The request the handler sends. *)
Definition formTaskData (form : Form) : TaskData :=
  mkTaskData (taskName form) (taskImage form)
             (parseList (taskCommand form))
             (parseEnv (taskEnv form))
             (parseList (taskPorts form))
             (parseList (taskVolumes form))
             None
             (autoRestartChecked form).

(** [podman] works, reports the containers as exited, and the disk is
    full. *)
Definition hostExitedDiskFull : Host :=
  stubHost (healthy ("def456" ++ newline) "exited")
           (Some "No space left on device").

(** A second task to keep alive, [id1], running in container [xyz789]. *)
Definition secondLiveTask : Task :=
  mkTask "id1" "db" "postgres:16" None None None None
         Running (Some "xyz789") "t3" "t4" true.

(** The map with the two tasks to keep alive. *)
Definition twoLiveStore (H : Host) (w : World H) : State H :=
  mkState [(id liveTask, liveTask); (id secondLiveTask, secondLiveTask)] w.

(** [podman run] succeeds and prints only white space. *)
Definition hostSilent : Host := stubHost (healthy (" " ++ newline) "running") None.

(** ** The task map: basic facts *)

Lemma mapGet_mapSet_same key value m :
  mapGet key (mapSet key value m) = Some value.
Proof.
  induction m as [|[k t] rest IH]; simpl.
  - now rewrite String.eqb_refl.
  - destruct (k =? key) eqn:E; simpl; now rewrite E.
Qed.

Lemma mapGet_mapSet_other key key' value m :
  key <> key' -> mapGet key' (mapSet key value m) = mapGet key' m.
Proof.
  intros Hne. induction m as [|[k t] rest IH]; simpl.
  - destruct (key =? key') eqn:E; [apply String.eqb_eq in E; contradiction | reflexivity].
  - destruct (k =? key) eqn:E; simpl.
    + apply String.eqb_eq in E. subst k.
      destruct (key =? key') eqn:E'; [apply String.eqb_eq in E'; contradiction | reflexivity].
    + now rewrite IH.
Qed.

Lemma mapSet_mapSet key v u m :
  mapSet key v (mapSet key u m) = mapSet key v m.
Proof.
  induction m as [|[k t] rest IH]; simpl.
  - now rewrite String.eqb_refl.
  - destruct (k =? key) eqn:E; simpl; rewrite E; [reflexivity | now rewrite IH].
Qed.

Lemma mapSet_mapAssign key v f m :
  mapSet key v (mapAssign key f m) = mapSet key v m.
Proof.
  induction m as [|[k t] rest IH]; simpl.
  - reflexivity.
  - destruct (k =? key) eqn:E; simpl; rewrite E; [reflexivity | now rewrite IH].
Qed.

Lemma mapAssign_mapAssign key f g m :
  mapAssign key g (mapAssign key f m) = mapAssign key (fun t => g (f t)) m.
Proof.
  induction m as [|[k t] rest IH]; simpl.
  - reflexivity.
  - destruct (k =? key) eqn:E; simpl; rewrite E; [reflexivity | now rewrite IH].
Qed.

Lemma mapKeys_mapSet_present key value m t :
  mapGet key m = Some t -> mapKeys (mapSet key value m) = mapKeys m.
Proof.
  induction m as [|[k u] rest IH]; simpl; [discriminate|].
  destruct (k =? key) eqn:E; simpl; intros Hg; [reflexivity|].
  f_equal. now apply IH.
Qed.

Lemma mapGet_In_keys key m t :
  mapGet key m = Some t -> In key (mapKeys m).
Proof.
  induction m as [|[k u] rest IH]; simpl; [discriminate|].
  destruct (k =? key) eqn:E; intros Hg.
  - left. now apply String.eqb_eq.
  - right. now apply IH.
Qed.

Lemma mapGet_None_keys key m :
  mapGet key m = None <-> ~ In key (mapKeys m).
Proof.
  induction m as [|[k u] rest IH]; simpl.
  - tauto.
  - destruct (k =? key) eqn:E.
    + apply String.eqb_eq in E. split; [discriminate | intros Hn; exfalso; auto].
    + apply String.eqb_neq in E. rewrite IH. tauto.
Qed.

Lemma mapGet_mapDelete_same key m :
  mapGet key (mapDelete key m) = None.
Proof.
  induction m as [|[k u] rest IH]; simpl; [reflexivity|].
  destruct (k =? key) eqn:E; simpl; [assumption | now rewrite E].
Qed.

Lemma mapGet_mapDelete_other key key' m :
  key <> key' -> mapGet key' (mapDelete key m) = mapGet key' m.
Proof.
  intros Hne. induction m as [|[k u] rest IH]; simpl; [reflexivity|].
  destruct (k =? key) eqn:E; simpl.
  - apply String.eqb_eq in E. subst k.
    destruct (key =? key') eqn:E'; [apply String.eqb_eq in E'; contradiction | assumption].
  - now rewrite IH.
Qed.

Lemma mapDelete_mapSet key value m :
  mapDelete key (mapSet key value m) = mapDelete key m.
Proof.
  induction m as [|[k u] rest IH]; simpl.
  - now rewrite String.eqb_refl.
  - destruct (k =? key) eqn:E; simpl; rewrite E; [reflexivity | now rewrite IH].
Qed.

Lemma mapDelete_filter key m :
  mapDelete key m = filter (fun entry => negb (fst entry =? key)) m.
Proof.
  induction m as [|[k u] rest IH]; simpl; [reflexivity|].
  destruct (k =? key); simpl; now rewrite IH.
Qed.

(** ** Running a computation step by step *)

Arguments runCommandLine : simpl never.
Arguments inspectCommand : simpl never.
Arguments trim : simpl never.
Arguments commandResult : simpl never.
Arguments containerInfoOf : simpl never.
Arguments String.append : simpl never.
Arguments stateFile : simpl never.

Section Steps.

Context (H : Host).

Lemma run_eta {A} (r : Run H A) : mkRun (outcome r) (final r) (trace r) = r.
Proof. now destruct r. Qed.

Lemma bind_returned {A B} (m : M H A) (k : A -> M H B) st a st' tr :
  m st = mkRun (Returned a) st' tr ->
  bind H m k st =
    mkRun (outcome (k a st')) (final (k a st')) (tr ++ trace (k a st')).
Proof. intros E. unfold bind. now rewrite E. Qed.

Lemma bind_silent {A B} (m : M H A) (k : A -> M H B) st a st' :
  m st = mkRun (Returned a) st' [] -> bind H m k st = k a st'.
Proof. intros E. rewrite (bind_returned _ _ _ _ _ _ E). apply run_eta. Qed.

Lemma bind_thrown {A B} (m : M H A) (k : A -> M H B) st reason st' tr :
  m st = mkRun (Thrown reason) st' tr ->
  bind H m k st = mkRun (Thrown reason) st' tr.
Proof. intros E. unfold bind. now rewrite E. Qed.

Lemma bind_outcome {A B} (m : M H A) (k : A -> M H B) st a :
  outcome (m st) = Returned a ->
  bind H m k st =
    mkRun (outcome (k a (final (m st)))) (final (k a (final (m st))))
          (trace (m st) ++ trace (k a (final (m st)))).
Proof. intros E. unfold bind. now rewrite E. Qed.

Lemma bind_ret {A B} (a : A) (k : A -> M H B) st :
  bind H (ret H a) k st = k a st.
Proof. now apply bind_silent. Qed.

Lemma bind_readTasks {B} (k : TaskMap -> M H B) st :
  bind H (readTasks H) k st = k (tasks st) st.
Proof. now apply bind_silent. Qed.

Lemma bind_writeTasks {B} f (k : unit -> M H B) st :
  bind H (writeTasks H f) k st = k tt (mkState (f (tasks st)) (world st)).
Proof. now apply bind_silent. Qed.

Lemma bind_now {B} (k : string -> M H B) st :
  bind H (now H) k st =
    k (fst (toISOString H (world st)))
      (mkState (tasks st) (snd (toISOString H (world st)))).
Proof.
  apply bind_silent. unfold now. now destruct (toISOString H (world st)).
Qed.

Lemma bind_freshId {B} (k : string -> M H B) st :
  bind H (freshId H) k st =
    k (fst (randomUUID H (world st)))
      (mkState (tasks st) (snd (randomUUID H (world st)))).
Proof.
  apply bind_silent. unfold freshId. now destruct (randomUUID H (world st)).
Qed.

Lemma bind_runCommand {B} cmd (k : CommandResult -> M H B) st :
  bind H (runCommand H cmd) k st =
    let o := fst (spawn H cmd (world st)) in
    let r := k (commandResult o) (mkState (tasks st) (snd (spawn H cmd (world st)))) in
    mkRun (outcome r) (final r) (EvSpawn cmd o :: trace r).
Proof.
  cbv zeta.
  rewrite (bind_returned _ _ st (commandResult (fst (spawn H cmd (world st))))
             (mkState (tasks st) (snd (spawn H cmd (world st))))
             [EvSpawn cmd (fst (spawn H cmd (world st)))]); [reflexivity|].
  unfold runCommand. now destruct (spawn H cmd (world st)).
Qed.

Lemma bind_assoc {A B C} (m : M H A) (f : A -> M H B) (g : B -> M H C) st :
  bind H (bind H m f) g st = bind H m (fun a => bind H (f a) g) st.
Proof.
  unfold bind. destruct (m st) as [[a|reason] st1 tr1]; cbn; [|reflexivity].
  destruct (f a st1) as [[b|reason] st2 tr2]; cbn; [|reflexivity].
  now rewrite app_assoc.
Qed.

Lemma saveState_run st :
  saveState H st =
    mkRun (settle (saveFailure st) tt) (afterSave st)
          [EvWrite stateFile (saved st) (saveFailure st)].
Proof.
  unfold saveState. rewrite bind_readTasks, bind_now.
  unfold saveFailure, afterSave, saved, saveStamp, settle. cbn.
  now destruct (writeTextFile H stateFile _ _) as [[reason|] w].
Qed.

Lemma bind_saveState {B} (k : unit -> M H B) st :
  bind H (saveState H) k st =
    match saveFailure st with
    | None =>
        let r := k tt (afterSave st) in
        mkRun (outcome r) (final r)
              (EvWrite stateFile (saved st) None :: trace r)
    | Some reason =>
        mkRun (Thrown reason) (afterSave st)
              [EvWrite stateFile (saved st) (Some reason)]
    end.
Proof.
  pose proof (saveState_run st) as E.
  destruct (saveFailure st) as [reason|]; cbn in E.
  - now apply bind_thrown.
  - now rewrite (bind_returned _ _ _ _ _ _ E).
Qed.

Lemma tasks_afterSave (st : State H) : tasks (afterSave st) = tasks st.
Proof. reflexivity. Qed.

End Steps.

(** ** What one call of [startTask] does *)

Section StartTask.

Context (H : Host).

Lemma markPending_run taskId task (st : State H) :
  markPending H taskId task st =
    mkRun (Returned (set_status Pending task))
          (mkState (mapSet taskId
                      (set_updatedAt (fst (toISOString H (world st)))
                                     (set_status Pending task))
                      (tasks st))
                   (snd (toISOString H (world st))))
          [].
Proof.
  unfold markPending.
  rewrite bind_writeTasks, bind_now, bind_writeTasks. cbn.
  now rewrite mapSet_mapAssign.
Qed.

Lemma startTask_found (st : State H) taskId task :
  mapGet taskId (tasks st) = Some task ->
  exists w0 o stamp st1,
    o = fst (spawn H (runCommandLine task) w0) /\
    tasks st1 = mapSet taskId (started task o stamp) (tasks st) /\
    startTask H taskId st =
      mkRun (settle (saveFailure st1) (startReply o))
            (afterSave st1)
            [EvSpawn (runCommandLine task) o;
             EvWrite stateFile (saved st1) (saveFailure st1)].
Proof.
  intros Hget.
  unfold startTask. rewrite bind_readTasks, Hget.
  rewrite (bind_silent _ _ _ _ _ _ (markPending_run taskId task st)).
  rewrite bind_runCommand. cbv zeta.
  set (w1 := snd (toISOString H (world st))).
  set (t1 := fst (toISOString H (world st))).
  cbn [world tasks].
  set (o := fst (spawn H (runCommandLine task) w1)).
  set (w2 := snd (spawn H (runCommandLine task) w1)).
  exists w1, o.
  unfold started, startReply.
  destruct (success (commandResult o)) eqn:Es;
    rewrite bind_now, bind_writeTasks, bind_saveState; cbn [world tasks];
    rewrite mapSet_mapSet;
    match goal with
    | |- context [saveFailure ?s] =>
        exists (fst (toISOString H w2)), s; repeat split;
        destruct (saveFailure s); cbn; try rewrite bind_ret; reflexivity
    end.
Qed.

End StartTask.

(** ** What one call of the other methods does *)

Section Methods.

Context (H : Host).

Lemma saveFailure_None (st : State H) : writesSucceed H -> saveFailure st = None.
Proof. intros Hw. apply Hw. Qed.

Lemma stopTask_absent taskId (st : State H) :
  mapGet taskId (tasks st) = None ->
  stopTask H taskId st = mkRun (Returned (mkReply false "Task not found")) st [].
Proof.
  intros Hget. unfold stopTask. now rewrite bind_readTasks, Hget.
Qed.

Lemma stopTask_no_container taskId task (st : State H) :
  mapGet taskId (tasks st) = Some task ->
  truthy (containerId task) = false ->
  stopTask H taskId st =
    mkRun (Returned (mkReply false "No container ID found")) st [].
Proof.
  intros Hget Hc. unfold stopTask. now rewrite bind_readTasks, Hget, Hc.
Qed.

Lemma stopTask_refused taskId task (st : State H) :
  mapGet taskId (tasks st) = Some task ->
  truthy (containerId task) = true ->
  let o := fst (spawn H (stopCommand task) (world st)) in
  success (commandResult o) = false ->
  stopTask H taskId st =
    mkRun (Returned (mkReply false
                       ("Failed to stop task: " ++ render (error (commandResult o)))))
          (mkState (tasks st) (snd (spawn H (stopCommand task) (world st))))
          [EvSpawn (stopCommand task) o].
Proof.
  intros Hget Hc o Hs. unfold stopTask.
  rewrite bind_readTasks, Hget, Hc. cbn [negb].
  rewrite bind_runCommand. cbv zeta. fold (stopCommand task). fold o.
  now rewrite Hs.
Qed.

Lemma stopTask_stopped taskId task (st : State H) :
  mapGet taskId (tasks st) = Some task ->
  truthy (containerId task) = true ->
  let o := fst (spawn H (stopCommand task) (world st)) in
  success (commandResult o) = true ->
  exists stamp st1,
    tasks st1 = mapSet taskId (set_updatedAt stamp (set_status Stopped task)) (tasks st) /\
    stopTask H taskId st =
      mkRun (settle (saveFailure st1) (mkReply true "Task stopped successfully"))
            (afterSave st1)
            [EvSpawn (stopCommand task) o;
             EvWrite stateFile (saved st1) (saveFailure st1)].
Proof.
  intros Hget Hc o Hs. unfold stopTask.
  rewrite bind_readTasks, Hget, Hc. cbn [negb].
  rewrite bind_runCommand. cbv zeta. fold (stopCommand task). fold o.
  rewrite Hs, bind_writeTasks, bind_now, bind_writeTasks, bind_saveState.
  cbn [world tasks]. rewrite mapSet_mapAssign.
  match goal with
  | |- context [saveFailure ?s] =>
      exists (fst (toISOString H (snd (spawn H (stopCommand task) (world st))))), s;
      split; [reflexivity|];
      destruct (saveFailure s); cbn; try rewrite bind_ret; reflexivity
  end.
Qed.

(** Whatever [stopTask] does, the other keys keep their entries and the
    key it was called on keeps everything but [status] and [updatedAt]. *)
Lemma stopTask_tasks taskId task (st : State H) :
  mapGet taskId (tasks st) = Some task ->
  tasks (final (stopTask H taskId st)) = tasks st \/
  exists stamp,
    tasks (final (stopTask H taskId st)) =
      mapSet taskId (set_updatedAt stamp (set_status Stopped task)) (tasks st).
Proof.
  intros Hget.
  destruct (truthy (containerId task)) eqn:Hc.
  - destruct (success (commandResult (fst (spawn H (stopCommand task) (world st))))) eqn:Hs.
    + destruct (stopTask_stopped _ _ _ Hget Hc Hs) as (stamp & st1 & Ht & E).
      right. exists stamp. now rewrite E.
    + left. now rewrite (stopTask_refused _ _ _ Hget Hc Hs).
  - left. now rewrite (stopTask_no_container _ _ _ Hget Hc).
Qed.

Lemma stopTask_returns taskId (st : State H) :
  writesSucceed H -> exists reply, outcome (stopTask H taskId st) = Returned reply.
Proof.
  intros Hw.
  destruct (mapGet taskId (tasks st)) as [task|] eqn:Hget.
  - destruct (truthy (containerId task)) eqn:Hc.
    + destruct (success (commandResult (fst (spawn H (stopCommand task) (world st))))) eqn:Hs.
      * destruct (stopTask_stopped _ _ _ Hget Hc Hs) as (stamp & st1 & Ht & E).
        rewrite E, saveFailure_None by assumption. cbn. eauto.
      * rewrite (stopTask_refused _ _ _ Hget Hc Hs). cbn. eauto.
    + rewrite (stopTask_no_container _ _ _ Hget Hc). cbn. eauto.
  - rewrite (stopTask_absent _ _ Hget). cbn. eauto.
Qed.

Lemma getContainerInfo_run cid (st : State H) :
  let o := fst (spawn H (inspectCommand cid) (world st)) in
  getContainerInfo H cid st =
    mkRun (Returned (containerInfoOf (commandResult o)))
          (mkState (tasks st) (snd (spawn H (inspectCommand cid) (world st))))
          [EvSpawn (inspectCommand cid) o].
Proof.
  cbv zeta. unfold getContainerInfo. now rewrite bind_runCommand.
Qed.

Lemma bind_getContainerInfo {B} cid (k : option ContainerInfo -> M H B) st :
  bind H (getContainerInfo H cid) k st =
    let o := fst (spawn H (inspectCommand cid) (world st)) in
    let r := k (containerInfoOf (commandResult o))
               (mkState (tasks st) (snd (spawn H (inspectCommand cid) (world st)))) in
    mkRun (outcome r) (final r) (EvSpawn (inspectCommand cid) o :: trace r).
Proof.
  cbv zeta. now rewrite (bind_returned _ _ _ _ _ _ _ (getContainerInfo_run cid st)).
Qed.

Lemma createTask_run taskData (st : State H) :
  exists createdAt updatedAt st1,
    let task := created taskData (fst (randomUUID H (world st))) createdAt updatedAt in
    tasks st1 = mapSet (id task) task (tasks st) /\
    createTask H taskData st =
      mkRun (settle (saveFailure st1) task) (afterSave st1)
            [EvWrite stateFile (saved st1) (saveFailure st1)].
Proof.
  unfold createTask.
  rewrite bind_freshId, bind_now, bind_now, bind_writeTasks, bind_saveState.
  cbn [world tasks id].
  match goal with
  | |- context [saveFailure ?s] =>
      match s with
      | mkState (mapSet _ (mkTask _ _ _ _ _ _ _ _ _ ?c ?u _) _) _ =>
          exists c, u, s; split; [reflexivity|];
          destruct (saveFailure s); cbn; try rewrite bind_ret; reflexivity
      end
  end.
Qed.

End Methods.

(** ** Loops over the task map *)

Section Loop.

Context (H : Host) (body : string -> Task -> M H unit).

Lemma forEachKey_nil st : forEachKey H body [] st = mkRun (Returned tt) st [].
Proof. reflexivity. Qed.

Lemma forEachKey_cons_absent key rest st :
  mapGet key (tasks st) = None ->
  forEachKey H body (key :: rest) st = forEachKey H body rest st.
Proof.
  intros Hget. cbn [forEachKey].
  now rewrite bind_readTasks, Hget, bind_ret.
Qed.

Lemma forEachKey_cons_present key rest st task :
  mapGet key (tasks st) = Some task ->
  forEachKey H body (key :: rest) st =
    bind H (body key task) (fun _ => forEachKey H body rest) st.
Proof.
  intros Hget. cbn [forEachKey].
  now rewrite bind_readTasks, Hget.
Qed.

(** A loop invariant over the state and the events so far. *)
Lemma forEachKey_invariant (J : State H -> list Event -> Prop) :
  (forall key task st tr,
      mapGet key (tasks st) = Some task -> J st tr ->
      J (final (body key task st)) (tr ++ trace (body key task st))%list) ->
  forall keys st tr,
    J st tr ->
    J (final (forEachKey H body keys st)) (tr ++ trace (forEachKey H body keys st))%list.
Proof.
  intros Hstep keys. induction keys as [|key rest IH]; intros st tr HJ.
  - cbn. now rewrite app_nil_r.
  - destruct (mapGet key (tasks st)) as [task|] eqn:Hget.
    + rewrite (forEachKey_cons_present _ _ _ _ Hget).
      specialize (Hstep key task st tr Hget HJ).
      unfold bind.
      destruct (body key task st) as [[[]|reason] st1 tr1]; cbn in *.
      * rewrite app_assoc. now apply IH.
      * assumption.
    + rewrite (forEachKey_cons_absent _ _ _ Hget). now apply IH.
Qed.

(** One key in a loop whose body, run on another key, leaves the entry of
    this key alone and does nothing that [watched] selects. *)
Context (Inv : State H -> Prop) (key : string) (watched : Event -> bool).

Hypothesis body_returns : forall k t st,
  Inv st -> mapGet k (tasks st) = Some t -> outcome (body k t st) = Returned tt.

Hypothesis body_keeps : forall k t st,
  Inv st -> mapGet k (tasks st) = Some t -> Inv (final (body k t st)).

Hypothesis body_frame : forall k t st,
  Inv st -> mapGet k (tasks st) = Some t -> k <> key ->
  mapGet key (tasks (final (body k t st))) = mapGet key (tasks st) /\
  filter watched (trace (body k t st)) = [].

Lemma forEachKey_skips keys st :
  Inv st -> ~ In key keys ->
  let r := forEachKey H body keys st in
  outcome r = Returned tt /\ Inv (final r) /\
  mapGet key (tasks (final r)) = mapGet key (tasks st) /\
  filter watched (trace r) = [].
Proof.
  revert st. induction keys as [|k rest IH]; intros st HI Hnot; cbv zeta.
  - cbn. auto.
  - assert (k <> key /\ ~ In key rest) as [Hne Hrest] by (cbn in Hnot; tauto).
    destruct (mapGet k (tasks st)) as [t|] eqn:Hget.
    + rewrite (forEachKey_cons_present _ _ _ _ Hget).
      pose proof (body_returns _ _ _ HI Hget) as Hr.
      pose proof (body_keeps _ _ _ HI Hget) as Hk.
      destruct (body_frame _ _ _ HI Hget Hne) as [Hf Ht].
      unfold bind. rewrite Hr. cbn.
      destruct (IH _ Hk Hrest) as (R1 & R2 & R3 & R4).
      repeat split; try assumption.
      * congruence.
      * now rewrite filter_app, Ht, R4.
    + rewrite (forEachKey_cons_absent _ _ _ Hget). now apply IH.
Qed.

Lemma forEachKey_visits keys st task :
  Inv st -> NoDup keys -> In key keys ->
  mapGet key (tasks st) = Some task ->
  exists st1,
    Inv st1 /\ mapGet key (tasks st1) = Some task /\
    let r := forEachKey H body keys st in
    outcome r = Returned tt /\ Inv (final r) /\
    mapGet key (tasks (final r)) = mapGet key (tasks (final (body key task st1))) /\
    filter watched (trace r) = filter watched (trace (body key task st1)).
Proof.
  revert st. induction keys as [|k rest IH]; intros st HI Hnd Hin Hget; [easy|].
  inversion Hnd as [|? ? Hnotin Hnd']; subst.
  destruct (String.eqb_spec k key) as [->|Hne].
  - exists st. split; [assumption|]. split; [assumption|]. cbv zeta.
    rewrite (forEachKey_cons_present _ _ _ _ Hget).
    pose proof (body_returns _ _ _ HI Hget) as Hr.
    pose proof (body_keeps _ _ _ HI Hget) as Hk.
    unfold bind. rewrite Hr. cbn.
    destruct (forEachKey_skips rest _ Hk Hnotin) as (R1 & R2 & R3 & R4).
    repeat split; try assumption.
    now rewrite filter_app, R4, app_nil_r.
  - assert (In key rest) as Hin' by (destruct Hin; [contradiction | assumption]).
    destruct (mapGet k (tasks st)) as [t|] eqn:Hk.
    + pose proof (body_returns _ _ _ HI Hk) as Hr.
      pose proof (body_keeps _ _ _ HI Hk) as Hkeep.
      destruct (body_frame _ _ _ HI Hk Hne) as [Hf Ht].
      rewrite <- Hf in Hget.
      destruct (IH _ Hkeep Hnd' Hin' Hget) as (st1 & I1 & G1 & R1 & R2 & R3 & R4).
      exists st1. split; [assumption|]. split; [assumption|]. cbv zeta.
      rewrite (forEachKey_cons_present _ _ _ _ Hk).
      unfold bind. rewrite Hr. cbn.
      repeat split; try assumption.
      now rewrite filter_app, Ht.
    + destruct (IH _ HI Hnd' Hin' Hget) as (st1 & I1 & G1 & R).
      exists st1. split; [assumption|]. split; [assumption|]. cbv zeta.
      now rewrite (forEachKey_cons_absent _ _ _ Hk).
Qed.

End Loop.

(** ** The status sweep, one task at a time *)

Lemma Status_eqb_eq a b : Status_eqb a b = true <-> a = b.
Proof. destruct a, b; cbn; split; intros E; try reflexivity; discriminate. Qed.

Lemma status_synced task info stamp :
  status (synced task info stamp) =
    match info with
    | Some i => observedStatus i
    | None => status task
    end.
Proof.
  unfold synced. destruct info as [i|]; [|reflexivity].
  destruct (Status_eqb (observedStatus i) (status task)) eqn:E; cbn; [|reflexivity].
  symmetry. now apply Status_eqb_eq.
Qed.

Lemma mapGet_mapAssign_same key f m t :
  mapGet key m = Some t -> mapGet key (mapAssign key f m) = Some (f t).
Proof.
  induction m as [|[k u] rest IH]; simpl; [discriminate|].
  destruct (k =? key) eqn:E; simpl; rewrite E; [congruence | assumption].
Qed.

Section StatusSweep.

Context (H : Host).

Lemma syncStatus_run taskId task (st : State H) :
  mapGet taskId (tasks st) = Some task ->
  let r := syncStatus H taskId task st in
  outcome r = Returned tt /\
  (forall k, k <> taskId -> mapGet k (tasks (final r)) = mapGet k (tasks st)) /\
  exists stamp,
    mapGet taskId (tasks (final r)) =
      Some (if truthy (containerId task)
            then synced task (observe H (narrowed (containerId task)) (world st)) stamp
            else task).
Proof.
  intros Hget. cbv zeta. unfold syncStatus.
  destruct (truthy (containerId task)) eqn:Hc.
  - rewrite bind_getContainerInfo. cbv zeta. unfold observe, synced.
    destruct (containerInfoOf _) as [info|]; cbn [outcome final trace tasks].
    + fold (observedStatus info).
      destruct (Status_eqb (observedStatus info) (status task)); cbn [negb].
      * cbn. split; [reflexivity|]. split; [auto|]. exists "". assumption.
      * rewrite bind_writeTasks, bind_now, bind_writeTasks. cbn.
        rewrite !mapSet_mapAssign.
        split; [reflexivity|]. split.
        -- intros k Hk. apply mapGet_mapSet_other. congruence.
        -- eexists. apply mapGet_mapSet_same.
    + cbn. split; [reflexivity|]. split; [auto|]. exists "". assumption.
  - cbn. split; [reflexivity|]. split; [auto|]. exists "". assumption.
Qed.

End StatusSweep.

Section StatusSweepTheorem.

Context (H : Host).

Lemma forEachTask_run (body : string -> Task -> M H unit) (st : State H) :
  forEachTask H body st = forEachKey H body (mapKeys (tasks st)) st.
Proof. unfold forEachTask. now rewrite bind_readTasks. Qed.

Lemma updateTaskStatuses_tasks (st : State H) :
  tasks (final (updateTaskStatuses H st)) =
  tasks (final (forEachKey H (syncStatus H) (mapKeys (tasks st)) st)).
Proof.
  unfold updateTaskStatuses, bind. rewrite forEachTask_run.
  destruct (forEachKey H (syncStatus H) (mapKeys (tasks st)) st) as [[[]|reason] st1 tr1];
    cbn [outcome final trace]; [|reflexivity].
  now rewrite saveState_run.
Qed.

(** C1 (as amended).  In a map with distinct keys, for every task with a
    non-empty [containerId] whose inspection yields [obs] throughout the
    sweep, one sweep of [updateTaskStatuses] leaves the task [Running] when
    [obs] is a snapshot that reports [running], [Stopped] when it is a
    snapshot that reports anything else, and with the status it had when
    the inspection yields no snapshot. *)
Theorem updateTaskStatuses_sync (st : State H) taskId task obs :
  NoDup (mapKeys (tasks st)) ->
  mapGet taskId (tasks st) = Some task ->
  truthy (containerId task) = true ->
  (forall w, observe H (narrowed (containerId task)) w = obs) ->
  exists task',
    getTask taskId (final (updateTaskStatuses H st)) = Some task' /\
    status task' =
      match obs with
      | Some info => if reportsRunning info then Running else Stopped
      | None => status task
      end.
Proof.
  intros Hnd Hget Hc Hobs.
  unfold getTask. rewrite updateTaskStatuses_tasks.
  destruct (forEachKey_visits H (syncStatus H) (fun _ => True) taskId (fun _ => false))
    with (keys := mapKeys (tasks st)) (st := st) (task := task)
    as (st1 & _ & Hget1 & _ & _ & Hfinal & _); auto.
  - intros k t s _ Hk. now destruct (syncStatus_run H k t s Hk).
  - intros k t s _ Hk Hne. split.
    + destruct (syncStatus_run H k t s Hk) as (_ & Hframe & _). apply Hframe. congruence.
    + induction (trace (syncStatus H k t s)); auto.
  - now apply mapGet_In_keys with task.
  - destruct (syncStatus_run H taskId task st1 Hget1) as (_ & _ & stamp & Hs).
    rewrite Hc, Hobs in Hs.
    eexists. split; [rewrite Hfinal; exact Hs|].
    apply status_synced.
Qed.

End StatusSweepTheorem.

(** ** The auto-restart sweep *)

Lemma mapGet_In key m t : mapGet key m = Some t -> In (key, t) m.
Proof.
  induction m as [|[k u] rest IH]; simpl; [discriminate|].
  destruct (String.eqb_spec k key) as [->|Hne]; intros Hg.
  - left. congruence.
  - right. now apply IH.
Qed.

Lemma In_mapSet key value m k t :
  In (k, t) (mapSet key value m) -> (k, t) = (key, value) \/ In (k, t) m.
Proof.
  induction m as [|[k' u] rest IH]; simpl.
  - intros [E|[]]. now left.
  - destruct (String.eqb_spec k' key) as [->|Hne]; simpl.
    + intros [E|Hin]; [now left | now right; right].
    + intros [E|Hin]; [now right; left|].
      destruct (IH Hin); [now left | now right; right].
Qed.

Lemma In_mapDelete key m k t :
  In (k, t) (mapDelete key m) -> In (k, t) m /\ k <> key.
Proof.
  induction m as [|[k' u] rest IH]; simpl; [easy|].
  destruct (String.eqb_spec k' key) as [->|Hne]; simpl.
  - intros Hin. destruct (IH Hin). auto.
  - intros [E|Hin].
    + inversion E; subst. auto.
    + destruct (IH Hin). auto.
Qed.

Lemma append_inj_l (p a b : string) : p ++ a = p ++ b -> a = b.
Proof.
  induction p as [|c p IH]; cbn; intros E; [assumption|].
  apply IH. now inversion E.
Qed.

Lemma launches_run taskId task o :
  launches taskId (EvSpawn (runCommandLine task) o) = (id task =? taskId).
Proof.
  unfold runCommandLine. cbn [app launches].
  change ("podman" =? "podman") with true. change ("run" =? "run") with true.
  cbn [andb].
  destruct (String.eqb_spec (id task) taskId) as [->|Hne].
  - apply String.eqb_refl.
  - apply String.eqb_neq. intros E. apply Hne. now apply append_inj_l in E.
Qed.

Lemma launches_inspect taskId cid o :
  launches taskId (EvSpawn (inspectCommand cid) o) = false.
Proof. reflexivity. Qed.

Lemma id_started task o stamp : id (started task o stamp) = id task.
Proof. unfold started. now destruct (success (commandResult o)). Qed.

Lemma status_started task o stamp :
  status (started task o stamp) =
    if success (commandResult o) then Running else Error.
Proof. unfold started. now destruct (success (commandResult o)). Qed.

Lemma containerId_started task o stamp :
  containerId (started task o stamp) =
    if success (commandResult o) then Some (trim (output (commandResult o)))
    else containerId task.
Proof. unfold started. now destruct (success (commandResult o)). Qed.

Lemma wellFormed_mapSet key value m t :
  wellFormed m -> mapGet key m = Some t -> id value = key ->
  wellFormed (mapSet key value m).
Proof.
  intros [Hnd Hid] Hget Hv. split.
  - now rewrite (mapKeys_mapSet_present _ _ _ _ Hget).
  - intros k u Hk. apply In_mapSet in Hk as [E|Hin].
    + inversion E. now subst.
    + now apply Hid.
Qed.

Section RestartSweep.

Context (H : Host).

Hypothesis writes : writesSucceed H.

Lemma startTask_restart taskId task (st : State H) :
  mapGet taskId (tasks st) = Some task ->
  exists o stamp snapshot,
    let r := startTask H taskId st in
    outcome r = Returned (startReply o) /\
    tasks (final r) = mapSet taskId (started task o stamp) (tasks st) /\
    trace r = [EvSpawn (runCommandLine task) o; EvWrite stateFile snapshot None].
Proof.
  intros Hget.
  destruct (startTask_found H st taskId task Hget) as (w0 & o & stamp & st1 & _ & Ht & E).
  exists o, stamp, (saved st1). cbv zeta. rewrite E.
  rewrite (saveFailure_None H st1 writes). cbn. auto.
Qed.

Lemma restartIfDown_run taskId task (st : State H) :
  mapGet taskId (tasks st) = Some task ->
  let r := restartIfDown H taskId task st in
  let restart :=
    eligible task && down (observe H (narrowed (containerId task)) (world st)) in
  outcome r = Returned tt /\
  ((restart = false /\ tasks (final r) = tasks st /\
    forall key, filter (launches key) (trace r) = []) \/
   (restart = true /\
    exists o stamp,
      tasks (final r) = mapSet taskId (started task o stamp) (tasks st) /\
      forall key, filter (launches key) (trace r) =
                  filter (launches key) [EvSpawn (runCommandLine task) o])).
Proof.
  intros Hget. cbv zeta. unfold restartIfDown. fold (eligible task).
  destruct (eligible task) eqn:He; cbn [andb].
  2:{ cbn. auto. }
  rewrite bind_getContainerInfo. cbv zeta. fold (observe H (narrowed (containerId task)) (world st)).
  set (st' := mkState (tasks st) _).
  assert (Hget' : mapGet taskId (tasks st') = Some task) by exact Hget.
  destruct (startTask_restart taskId task st' Hget') as (o & stamp & snapshot & Ho & Ht & Htr).
  assert (Hstart : let r := bind H (startTask H taskId) (fun _ => ret H tt) st' in
            outcome r = Returned tt /\
            tasks (final r) = mapSet taskId (started task o stamp) (tasks st) /\
            trace r = [EvSpawn (runCommandLine task) o; EvWrite stateFile snapshot None]).
  { cbv zeta. unfold bind. rewrite Ho. cbn [outcome final trace ret].
    rewrite Ht, Htr. auto. }
  cbv zeta in Hstart. destruct Hstart as (S1 & S2 & S3).
  destruct (observe H (narrowed (containerId task)) (world st)) as [info|]; cbn [down].
  - destruct (reportsRunning info); cbn [negb].
    + cbn. split; [reflexivity|]. left. auto.
    + cbn [outcome final trace]. split; [assumption|]. right. split; [reflexivity|].
      exists o, stamp. split; [assumption|].
      intros key. rewrite S3. cbn [filter]. now rewrite launches_inspect.
  - cbn [outcome final trace]. split; [assumption|]. right. split; [reflexivity|].
    exists o, stamp. split; [assumption|].
    intros key. rewrite S3. cbn [filter]. now rewrite launches_inspect.
Qed.

(** C2 (as amended).  On a host whose state-file writes succeed and in a
    well-formed map, one sweep of [restartAutoRestartTasks] launches exactly one
    [podman run] for a task that has [autoRestart], is stored as [Running]
    and has a [containerId] whose inspection yields no snapshot or a
    snapshot that does not report [running]; the command line is the one
    [startTask] builds, and the task is then [Running] or in [Error] as
    that subprocess succeeded or failed.  For a task that misses one of the
    three conditions the sweep launches nothing and leaves the task as it
    was. *)
Theorem restartAutoRestartTasks_sweep (st : State H) taskId task :
  wellFormed (tasks st) ->
  mapGet taskId (tasks st) = Some task ->
  let r := restartAutoRestartTasks H st in
  (eligible task = true ->
   (forall w, down (observe H (narrowed (containerId task)) w) = true) ->
   exists o task',
     filter (launches taskId) (trace r) = [EvSpawn (runCommandLine task) o] /\
     getTask taskId (final r) = Some task' /\
     status task' = if success (commandResult o) then Running else Error) /\
  (eligible task = false ->
   filter (launches taskId) (trace r) = [] /\
   getTask taskId (final r) = Some task).
Proof.
  intros Hwf Hget. cbv zeta.
  unfold restartAutoRestartTasks. rewrite forEachTask_run.
  destruct (forEachKey_visits H (restartIfDown H) (fun s => wellFormed (tasks s))
              taskId (launches taskId))
    with (keys := mapKeys (tasks st)) (st := st) (task := task)
    as (st1 & Hwf1 & Hget1 & _ & _ & Hfinal & Htrace); auto.
  - intros k t s _ Hk. now destruct (restartIfDown_run k t s Hk).
  - intros k t s Hs Hk.
    destruct (restartIfDown_run k t s Hk) as (_ & [(_ & -> & _)|(_ & o & stamp & -> & _)]);
      [assumption|].
    apply wellFormed_mapSet with t; auto.
    rewrite id_started. apply Hs. now apply mapGet_In.
  - intros k t s Hs Hk Hne.
    destruct (restartIfDown_run k t s Hk) as (_ & [(_ & -> & Hl)|(_ & o & stamp & -> & Hl)]).
    + auto.
    + split.
      * apply mapGet_mapSet_other. assumption.
      * rewrite Hl. cbn [filter]. rewrite launches_run.
        destruct Hs as [_ Hid]. rewrite (Hid _ _ (mapGet_In _ _ _ Hk)).
        now apply String.eqb_neq in Hne as ->.
  - apply Hwf.
  - now apply mapGet_In_keys with task.
  - unfold getTask. rewrite Hfinal, Htrace.
    destruct (restartIfDown_run taskId task st1 Hget1)
      as (_ & [(Hr & Ht & Hl)|(Hr & o & stamp & Ht & Hl)]).
    + split.
      * intros He Hdown. rewrite He, Hdown in Hr. discriminate.
      * intros _. rewrite Hl, Ht. auto.
    + split.
      * intros _ _. exists o, (started task o stamp).
        rewrite Hl, Ht, mapGet_mapSet_same. cbn [filter]. rewrite launches_run.
        destruct Hwf1 as [_ Hid].
        rewrite (Hid _ _ (mapGet_In _ _ _ Hget1)), String.eqb_refl.
        repeat split. apply status_started.
      * intros He. rewrite He in Hr. discriminate.
Qed.

End RestartSweep.

(** ** Starting, stopping, removing and creating *)

Section Lifecycle.

Context (H : Host).

(** C3 (as amended).  [startTask] marks the task pending in the map in
    memory only.  It writes nothing to the state file before the [run]
    subprocess: the one write of a call follows the subprocess, and the
    snapshot it writes holds the task as running or in error, never
    pending. *)
Theorem startTask_saves_after_run (st : State H) taskId task :
  mapGet taskId (tasks st) = Some task ->
  (option_map status (getTask taskId (final (markPending H taskId task st)))
     = Some Pending /\
   trace (markPending H taskId task st) = []) /\
  exists o snapshot failure task',
    trace (startTask H taskId st) =
      [EvSpawn (runCommandLine task) o; EvWrite stateFile snapshot failure] /\
    mapGet taskId (snap_tasks snapshot) = Some task' /\
    status task' = (if success (commandResult o) then Running else Error) /\
    status task' <> Pending.
Proof.
  intros Hget. split.
  - rewrite markPending_run. cbn [final trace]. split; [|reflexivity].
    unfold getTask. cbn [tasks]. now rewrite mapGet_mapSet_same.
  - destruct (startTask_found H st taskId task Hget) as (w0 & o & stamp & st1 & _ & Ht & E).
    exists o, (saved st1), (saveFailure st1), (started task o stamp).
    rewrite E. cbn [trace]. split; [reflexivity|].
    unfold saved. cbn [snap_tasks]. rewrite Ht, mapGet_mapSet_same.
    split; [reflexivity|]. rewrite status_started.
    split; [reflexivity|]. now destruct (success (commandResult o)).
Qed.

(** C4.  For a task in the map, after [startTask] the status of the task is
    [Running], with the trimmed output of the [run] subprocess as its
    [containerId], when the subprocess succeeded, and [Error] when it
    failed; it is never [Pending]. *)
Theorem startTask_settles (st : State H) taskId task :
  mapGet taskId (tasks st) = Some task ->
  exists o task',
    In (EvSpawn (runCommandLine task) o) (trace (startTask H taskId st)) /\
    getTask taskId (final (startTask H taskId st)) = Some task' /\
    (if success (commandResult o)
     then status task' = Running /\
          containerId task' = Some (trim (output (commandResult o)))
     else status task' = Error) /\
    status task' <> Pending.
Proof.
  intros Hget.
  destruct (startTask_found H st taskId task Hget) as (w0 & o & stamp & st1 & _ & Ht & E).
  exists o, (started task o stamp). rewrite E. cbn [trace final].
  split; [now left|].
  unfold getTask. rewrite tasks_afterSave, Ht, mapGet_mapSet_same.
  split; [reflexivity|].
  rewrite status_started, containerId_started.
  destruct (success (commandResult o)); repeat split; discriminate.
Qed.

(** C10.  [startTask] does not look at the status of the task: for every
    task in the map, whatever its status and its [containerId], the call
    launches one [podman run] for the task, and when that succeeds the
    [containerId] of the task is the trimmed output of the subprocess. *)
Theorem startTask_unguarded (st : State H) taskId task :
  mapGet taskId (tasks st) = Some task ->
  exists o snapshot failure task',
    trace (startTask H taskId st) =
      [EvSpawn (runCommandLine task) o; EvWrite stateFile snapshot failure] /\
    launches (id task) (EvSpawn (runCommandLine task) o) = true /\
    getTask taskId (final (startTask H taskId st)) = Some task' /\
    containerId task' =
      (if success (commandResult o)
       then Some (trim (output (commandResult o)))
       else containerId task).
Proof.
  intros Hget.
  destruct (startTask_found H st taskId task Hget) as (w0 & o & stamp & st1 & _ & Ht & E).
  exists o, (saved st1), (saveFailure st1), (started task o stamp).
  rewrite E. cbn [trace final]. split; [reflexivity|].
  rewrite launches_run, String.eqb_refl. split; [reflexivity|].
  unfold getTask. rewrite tasks_afterSave, Ht, mapGet_mapSet_same.
  split; [reflexivity|]. apply containerId_started.
Qed.

(** C5.  [stopTask] on a task without a [containerId] answers "No container
    ID found" and does nothing; when the [stop] subprocess fails it
    answers with the failure.  In both cases the map is left as it was. *)
Theorem stopTask_failure_keeps_task (st : State H) taskId task :
  mapGet taskId (tasks st) = Some task ->
  let o := fst (spawn H (stopCommand task) (world st)) in
  truthy (containerId task) = false \/ success (commandResult o) = false ->
  let r := stopTask H taskId st in
  outcome r =
    Returned (mkReply false
                (if truthy (containerId task)
                 then "Failed to stop task: " ++ render (error (commandResult o))
                 else "No container ID found")) /\
  tasks (final r) = tasks st /\
  getTask taskId (final r) = Some task /\
  trace r = (if truthy (containerId task) then [EvSpawn (stopCommand task) o] else []).
Proof.
  intros Hget o Hfail. cbv zeta. unfold getTask.
  destruct (truthy (containerId task)) eqn:Hc.
  - destruct Hfail as [Hf|Hf]; [discriminate|].
    rewrite (stopTask_refused H _ _ _ Hget Hc Hf). cbn. auto.
  - rewrite (stopTask_no_container H _ _ _ Hget Hc). cbn. auto.
Qed.

Lemma removeRest_run taskId task (st : State H) :
  writesSucceed H ->
  outcome (removeRest H taskId task st) =
    Returned (mkReply true "Task removed successfully") /\
  tasks (final (removeRest H taskId task st)) = mapDelete taskId (tasks st).
Proof.
  intros Hw. unfold removeRest.
  destruct (truthy (containerId task)).
  - rewrite bind_assoc, bind_runCommand. cbv zeta.
    rewrite bind_ret, bind_writeTasks, bind_saveState.
    rewrite saveFailure_None by assumption. cbn. auto.
  - rewrite bind_ret, bind_writeTasks, bind_saveState.
    rewrite saveFailure_None by assumption. cbn. auto.
Qed.

(** C6 (as amended).  On a host whose state-file writes succeed and in a
    map whose tasks are stored under their own [id], [removeTask] on a task
    in the map answers "Task removed successfully" and leaves the map
    without the key, whatever the status of the task and whatever the
    [stop] and [rm] subprocesses do; no task listed afterwards has the
    identifier. *)
Theorem removeTask_removes (st : State H) taskId task :
  writesSucceed H ->
  keysAreIds (tasks st) ->
  mapGet taskId (tasks st) = Some task ->
  let r := removeTask H taskId st in
  outcome r = Returned (mkReply true "Task removed successfully") /\
  tasks (final r) = mapDelete taskId (tasks st) /\
  getTask taskId (final r) = None /\
  ~ In taskId (List.map id (getTasks (final r))).
Proof.
  intros Hw Hid Hget. cbv zeta.
  assert (Hmain :
    outcome (removeTask H taskId st) = Returned (mkReply true "Task removed successfully") /\
    tasks (final (removeTask H taskId st)) = mapDelete taskId (tasks st)).
  { unfold removeTask. rewrite bind_readTasks, Hget.
    fold (removeRest H taskId task).
    destruct (truthy (containerId task) && Status_eqb (status task) Running).
    - destruct (stopTask_returns H taskId st Hw) as [reply Hr].
      rewrite bind_assoc, (bind_outcome _ _ _ _ _ Hr), bind_ret.
      cbn [outcome final].
      destruct (removeRest_run taskId task (final (stopTask H taskId st)) Hw) as [R1 R2].
      split; [assumption|]. rewrite R2.
      destruct (stopTask_tasks H taskId task st Hget) as [->|[stamp ->]];
        [reflexivity | apply mapDelete_mapSet].
    - rewrite bind_ret. apply removeRest_run. assumption. }
  destruct Hmain as [Ho Ht]. split; [assumption|]. split; [assumption|].
  unfold getTask, getTasks. rewrite Ht. split; [apply mapGet_mapDelete_same|].
  rewrite map_map. intros Hin. apply in_map_iff in Hin as ([k t] & Hk & Hin).
  cbn in Hk. apply In_mapDelete in Hin as [Hin Hne].
  apply Hne. rewrite <- (Hid _ _ Hin). assumption.
Qed.

End Lifecycle.

(** ** Creation and inspection *)

Section CreateInspect.

Context (H : Host).

(** C8 (as amended).  [createTask] validates nothing: for every request,
    an empty name or image included, it draws an identifier, sets the
    status to [Stopped], stamps both dates, stores the task under its
    identifier, writes the state file and answers with the task; the call
    fails only if that write does. *)
Theorem createTask_accepts (st : State H) taskData :
  let uuid := fst (randomUUID H (world st)) in
  let w1 := snd (randomUUID H (world st)) in
  let createdAt := fst (toISOString H w1) in
  let updatedAt := fst (toISOString H (snd (toISOString H w1))) in
  let task := created taskData uuid createdAt updatedAt in
  let r := createTask H taskData st in
  exists snapshot failure,
    outcome r = settle failure task /\
    tasks (final r) = mapSet uuid task (tasks st) /\
    getTask uuid (final r) = Some task /\
    status task = Stopped /\
    trace r = [EvWrite stateFile snapshot failure] /\
    snap_tasks snapshot = tasks (final r).
Proof.
  cbv zeta. unfold createTask.
  rewrite bind_freshId, bind_now, bind_now, bind_writeTasks, bind_saveState.
  cbn [world tasks id].
  match goal with
  | |- context [saveFailure ?s] =>
      exists (saved s), (saveFailure s); destruct (saveFailure s)
  end; cbn [outcome final trace settle]; try rewrite bind_ret;
    cbn [outcome final trace ret]; unfold getTask, afterSave, saved;
    cbn [tasks snap_tasks]; rewrite mapGet_mapSet_same; repeat split.
Qed.

(** C9 (as amended).  [getContainerInfo] answers [null] for every inspect
    that did not succeed, a non-zero exit and a failed launch alike, and
    carries no error value; after an exit with 0 it answers the first four
    comma-separated pieces of the trimmed output. *)
Theorem getContainerInfo_null_on_failure (st : State H) cid :
  let o := fst (spawn H (inspectCommand cid) (world st)) in
  let r := getContainerInfo H cid st in
  outcome r =
    Returned
      (match o with
       | Exited code stdout _ =>
           if (code =? 0)%Z then
             let pieces := split "," (trim stdout) in
             Some (mkContainerInfo (nth_error pieces 0) (nth_error pieces 1)
                                   (nth_error pieces 2) (nth_error pieces 3))
           else None
       | SpawnFailed _ => None
       end) /\
  trace r = [EvSpawn (inspectCommand cid) o] /\
  tasks (final r) = tasks st.
Proof.
  cbv zeta. rewrite getContainerInfo_run. cbn [outcome final trace tasks].
  repeat split.
  destruct (fst (spawn H (inspectCommand cid) (world st))) as [code out err|reason];
    [|reflexivity].
  unfold containerInfoOf, commandResult. cbn [success output negb].
  now destruct (code =? 0)%Z.
Qed.

End CreateInspect.

(** ** The container reference over the life of a task *)

Section ContainerReference.

Context (H : Host).

Lemma bind_discard {A} (m : M H A) (st : State H) :
  final (bind H m (fun _ => ret H tt) st) = final (m st) /\
  trace (bind H m (fun _ => ret H tt) st) = trace (m st).
Proof.
  unfold bind. destruct (m st) as [[a|reason] st1 tr1]; cbn; [|auto].
  now rewrite app_nil_r.
Qed.

Lemma startTask_absent taskId (st : State H) :
  mapGet taskId (tasks st) = None ->
  startTask H taskId st = mkRun (Returned (mkReply false "Task not found")) st [].
Proof.
  intros Hget. unfold startTask. now rewrite bind_readTasks, Hget.
Qed.

Lemma getTaskLogs_tasks taskId (st : State H) :
  tasks (final (getTaskLogs H taskId st)) = tasks st.
Proof.
  unfold getTaskLogs. rewrite bind_readTasks.
  destruct (mapGet taskId (tasks st)) as [task|]; [|reflexivity].
  destruct (truthy (containerId task)); [|reflexivity].
  cbn [negb]. rewrite bind_runCommand. cbv zeta.
  now destruct (success _).
Qed.

Lemma containerId_synced task info stamp :
  containerId (synced task info stamp) = containerId task.
Proof.
  unfold synced. destruct info as [i|]; [|reflexivity].
  now destruct (negb _).
Qed.

Lemma syncStatus_keeps key task taskId t (st : State H) :
  mapGet taskId (tasks st) = Some t ->
  (exists task', mapGet key (tasks st) = Some task' /\
                 containerId task' = containerId task) ->
  exists task', mapGet key (tasks (final (syncStatus H taskId t st))) = Some task' /\
                containerId task' = containerId task.
Proof.
  intros Ht (task' & Hg & Hk).
  destruct (syncStatus_run H taskId t st Ht) as (_ & Hframe & stamp & Hs).
  destruct (String.eqb_spec taskId key) as [->|Hne].
  - rewrite Hs. eexists. split; [reflexivity|].
    assert (t = task') as -> by congruence.
    destruct (truthy (containerId task')); [|assumption].
    now rewrite containerId_synced.
  - rewrite Hframe by congruence. eauto.
Qed.

End ContainerReference.

Section ContainerReferenceTheorem.

Context (H : Host).

Lemma runCommandLine_started task o stamp :
  runCommandLine (started task o stamp) = runCommandLine task.
Proof.
  unfold started. now destruct (success (commandResult o)).
Qed.

Lemma restartedBy_more task task' task'' tr tr' :
  containerId task'' = containerId task' ->
  restartedBy task task' tr -> restartedBy task task'' (tr ++ tr')%list.
Proof.
  intros Hc (o & Hin & Hs & Ho). exists o.
  split; [apply in_or_app; now left|]. split; [assumption | congruence].
Qed.

(** One step of the restart sweep: the map is left alone, or the task was
    eligible and [startTask] replaced its entry after a [podman run] with
    its command line. *)
Lemma restartIfDown_effect taskId task (st : State H) :
  mapGet taskId (tasks st) = Some task ->
  let r := restartIfDown H taskId task st in
  tasks (final r) = tasks st \/
  (eligible task = true /\
   exists o stamp,
     tasks (final r) = mapSet taskId (started task o stamp) (tasks st) /\
     In (EvSpawn (runCommandLine task) o) (trace r)).
Proof.
  intros Hget. cbv zeta. unfold restartIfDown. fold (eligible task).
  destruct (eligible task); [|now left].
  rewrite bind_getContainerInfo. cbv zeta. cbn [final trace].
  set (st' := mkState (tasks st) _).
  set (inspected := EvSpawn _ _).
  assert (Hstart : exists o stamp,
            tasks (final (bind H (startTask H taskId) (fun _ => ret H tt) st')) =
              mapSet taskId (started task o stamp) (tasks st) /\
            In (EvSpawn (runCommandLine task) o)
               (inspected :: trace (bind H (startTask H taskId) (fun _ => ret H tt) st'))).
  { destruct (bind_discard H (startTask H taskId) st') as [-> ->].
    destruct (startTask_found H st' taskId task Hget) as (w0 & o & stamp & st1 & _ & Ht & E).
    exists o, stamp. rewrite E. cbn [final trace].
    split; [now rewrite tasks_afterSave, Ht | right; now left]. }
  destruct (containerInfoOf _) as [info|]; [|now right].
  destruct (reportsRunning info); cbn [negb]; [now left | now right].
Qed.

(** The invariant of the restart sweep for the task stored under [key]. *)
Lemma restartIfDown_reference key task taskId t (st : State H) tr :
  mapGet taskId (tasks st) = Some t ->
  (exists task',
     mapGet key (tasks st) = Some task' /\
     runCommandLine task' = runCommandLine task /\
     (task' = task \/ eligible task = true) /\
     (containerId task' = containerId task \/ restartedBy task task' tr)) ->
  let r := restartIfDown H taskId t st in
  exists task',
    mapGet key (tasks (final r)) = Some task' /\
    runCommandLine task' = runCommandLine task /\
    (task' = task \/ eligible task = true) /\
    (containerId task' = containerId task \/
     restartedBy task task' (tr ++ trace r)%list).
Proof.
  intros Ht (task' & Hg & Hcmd & Hfirst & Hk). cbv zeta.
  assert (Hkeep :
    containerId task' = containerId task \/
    restartedBy task task' (tr ++ trace (restartIfDown H taskId t st))%list).
  { destruct Hk as [Hk|Hk]; [now left | right].
    now apply restartedBy_more with task'. }
  destruct (restartIfDown_effect taskId t st Ht) as [->|(He & o & stamp & -> & Hin)];
    [exists task'; auto|].
  destruct (String.eqb_spec taskId key) as [->|Hne].
  - assert (t = task') as -> by congruence.
    rewrite mapGet_mapSet_same. eexists. split; [reflexivity|].
    rewrite runCommandLine_started, containerId_started.
    split; [assumption|]. split.
    + right. destruct Hfirst as [->|]; assumption.
    + destruct (success (commandResult o)) eqn:Es.
      2:{ destruct Hk as [Hk|Hk]; [now left | right].
          apply restartedBy_more with task'; [|assumption].
          now rewrite containerId_started, Es. }
      right. exists o.
      split; [|split; [assumption | now rewrite containerId_started, Es]].
      apply in_or_app. right. now rewrite <- Hcmd.
  - rewrite mapGet_mapSet_other by assumption. exists task'. auto.
Qed.

(** C7 (as amended).  A task that [createTask] stores carries the
    [containerId] of the create request, none when the request has none.
    A task in the map is still in the map after a create, start, stop or
    logs call and after either sweep, and its [containerId] is then:
    after [createTask], that of the request when the identifier drawn is
    the key of the task, which the new task then replaces, and unchanged
    otherwise; after [startTask] of the task itself, which launches one
    [podman run] with the command line of the task, the trimmed output of
    that subprocess when it exited with 0 (the empty string when it
    printed nothing but white space, which every test in the code takes
    for no container) and unchanged when it failed; after [startTask] of
    another task, [stopTask], [getTaskLogs] and the status sweep,
    unchanged; after the restart sweep, unchanged, unless the task was
    eligible for a restart, when it may be the trimmed output of a
    [podman run] of the sweep that was launched with the command line of
    the task and exited with 0. *)
Theorem containerId_lifecycle (st : State H) req :
  let r := perform H req st in
  let uuid := fst (randomUUID H (world st)) in
  match req with
  | Create taskData =>
      exists fresh,
        getTask uuid (final r) = Some fresh /\
        containerId fresh = td_containerId taskData
  | _ => True
  end /\
  forall key task,
    mapGet key (tasks st) = Some task ->
    exists task',
      getTask key (final r) = Some task' /\
      match req with
      | Create taskData =>
          containerId task' =
            if uuid =? key then td_containerId taskData else containerId task
      | Start taskId =>
          if taskId =? key then
            exists o write,
              trace r = [EvSpawn (runCommandLine task) o; write] /\
              containerId task' = startedReference task o
          else containerId task' = containerId task
      | Stop _ | Logs _ | SweepStatus => containerId task' = containerId task
      | SweepRestart =>
          containerId task' = containerId task \/
          (eligible task = true /\ restartedBy task task' (trace r))
      end.
Proof.
  cbv zeta. unfold getTask.
  destruct req as [taskData|taskId|taskId|taskId| |]; cbn [perform].
  - destruct (bind_discard H (createTask H taskData) st) as [-> _].
    destruct (createTask_run H taskData st) as (createdAt & updatedAt & st1 & Ht & E).
    cbv zeta in Ht, E. rewrite E. cbn [final]. rewrite tasks_afterSave, Ht.
    cbn [id created]. split.
    + eexists. split; [apply mapGet_mapSet_same | reflexivity].
    + intros key task Hget.
      destruct (String.eqb_spec (fst (randomUUID H (world st))) key) as [->|Hne].
      * eexists. split; [apply mapGet_mapSet_same | reflexivity].
      * exists task. split; [|reflexivity]. now rewrite mapGet_mapSet_other.
  - split; [exact I|]. intros key task Hget.
    destruct (bind_discard H (startTask H taskId) st) as [-> ->].
    destruct (String.eqb_spec taskId key) as [->|Hne].
    + destruct (startTask_found H st key task Hget) as (w0 & o & stamp & st1 & _ & Ht & E).
      rewrite E. cbn [final trace]. rewrite tasks_afterSave, Ht, mapGet_mapSet_same.
      eexists. split; [reflexivity|]. exists o. eexists.
      split; [reflexivity | apply containerId_started].
    + destruct (mapGet taskId (tasks st)) as [t|] eqn:Et.
      * destruct (startTask_found H st taskId t Et) as (w0 & o & stamp & st1 & _ & Ht & E).
        rewrite E. cbn [final]. rewrite tasks_afterSave, Ht.
        rewrite mapGet_mapSet_other by assumption. eauto.
      * rewrite (startTask_absent H _ _ Et). eauto.
  - split; [exact I|]. intros key task Hget.
    destruct (bind_discard H (stopTask H taskId) st) as [-> _].
    destruct (mapGet taskId (tasks st)) as [t|] eqn:Ht.
    + destruct (stopTask_tasks H taskId t st Ht) as [->|[stamp ->]]; [eauto|].
      destruct (String.eqb_spec taskId key) as [->|Hne].
      * rewrite mapGet_mapSet_same. eexists. split; [reflexivity|].
        assert (t = task) as -> by congruence. reflexivity.
      * rewrite mapGet_mapSet_other by assumption. eauto.
    + rewrite (stopTask_absent H _ _ Ht). eauto.
  - split; [exact I|]. intros key task Hget.
    destruct (bind_discard H (getTaskLogs H taskId) st) as [-> _].
    rewrite getTaskLogs_tasks. eauto.
  - split; [exact I|]. intros key task Hget.
    unfold restartAutoRestartTasks. rewrite forEachTask_run.
    destruct (forEachKey_invariant H (restartIfDown H)
                (fun s tr =>
                   exists task',
                     mapGet key (tasks s) = Some task' /\
                     runCommandLine task' = runCommandLine task /\
                     (task' = task \/ eligible task = true) /\
                     (containerId task' = containerId task \/ restartedBy task task' tr))
                (fun k t s tr Hk HJ => restartIfDown_reference key task k t s tr Hk HJ)
                (mapKeys (tasks st)) st [])
      as (task' & Hg & _ & Hfirst & Hk).
    + exists task. auto.
    + cbn [app] in Hk. exists task'. split; [assumption|].
      destruct Hk as [Hk|Hk]; [now left|].
      destruct Hfirst as [->|He]; [now left | now right].
  - split; [exact I|]. intros key task Hget.
    rewrite updateTaskStatuses_tasks.
    apply (forEachKey_invariant H (syncStatus H)
             (fun s _ => exists task', mapGet key (tasks s) = Some task' /\
                                       containerId task' = containerId task))
      with (tr := []).
    + intros k t s tr Hk HJ. now apply syncStatus_keeps.
    + eauto.
Qed.

End ContainerReferenceTheorem.

(** ** Well-formed maps stay well formed *)

Lemma mapKeys_mapSet_absent key value m :
  mapGet key m = None -> mapKeys (mapSet key value m) = (mapKeys m ++ [key])%list.
Proof.
  induction m as [|[k u] rest IH]; simpl; [reflexivity|].
  destruct (k =? key) eqn:E; simpl; [discriminate|].
  intros Hg. f_equal. now apply IH.
Qed.

Lemma wellFormed_mapSet_fresh key value m :
  wellFormed m -> mapGet key m = None -> id value = key ->
  wellFormed (mapSet key value m).
Proof.
  intros [Hnd Hid] Hget Hv. split.
  - rewrite (mapKeys_mapSet_absent _ _ _ Hget).
    apply NoDup_app; [assumption | repeat constructor; easy |].
    intros k Hin [<-|[]]. now apply mapGet_None_keys in Hget.
  - intros k u Hk. apply In_mapSet in Hk as [E|Hin].
    + inversion E. now subst.
    + now apply Hid.
Qed.

Lemma NoDup_mapKeys_mapDelete key m :
  NoDup (mapKeys m) -> NoDup (mapKeys (mapDelete key m)).
Proof.
  induction m as [|[k u] rest IH]; simpl; [easy|].
  intros Hnd. inversion Hnd as [|? ? Hnot Hrest]; subst.
  destruct (k =? key); [now apply IH|].
  simpl. constructor; [|now apply IH].
  intros Hin. apply Hnot.
  unfold mapKeys in *. apply in_map_iff in Hin as ([k' t'] & Hk & Hin).
  apply In_mapDelete in Hin as [Hin _].
  apply in_map_iff. now exists (k', t').
Qed.

Lemma wellFormed_mapDelete key m : wellFormed m -> wellFormed (mapDelete key m).
Proof.
  intros [Hnd Hid]. split; [now apply NoDup_mapKeys_mapDelete|].
  intros k t Hin. apply In_mapDelete in Hin as [Hin _]. now apply Hid.
Qed.

Section WellFormed.

Context (H : Host).

Lemma startTask_wellFormed taskId (st : State H) :
  wellFormed (tasks st) -> wellFormed (tasks (final (startTask H taskId st))).
Proof.
  intros Hwf. destruct (mapGet taskId (tasks st)) as [task|] eqn:Hget.
  - destruct (startTask_found H st taskId task Hget) as (w0 & o & stamp & st1 & _ & Ht & E).
    rewrite E. cbn [final]. rewrite tasks_afterSave, Ht.
    apply wellFormed_mapSet with task; [assumption | assumption |].
    rewrite id_started. apply Hwf. now apply mapGet_In.
  - now rewrite (startTask_absent H _ _ Hget).
Qed.

Lemma stopTask_wellFormed taskId (st : State H) :
  wellFormed (tasks st) -> wellFormed (tasks (final (stopTask H taskId st))).
Proof.
  intros Hwf. destruct (mapGet taskId (tasks st)) as [task|] eqn:Hget.
  - destruct (stopTask_tasks H taskId task st Hget) as [->|[stamp ->]]; [assumption|].
    apply wellFormed_mapSet with task; [assumption | assumption |].
    cbn. apply Hwf. now apply mapGet_In.
  - now rewrite (stopTask_absent H _ _ Hget).
Qed.

Lemma restartIfDown_wellFormed taskId task (st : State H) :
  wellFormed (tasks st) ->
  wellFormed (tasks (final (restartIfDown H taskId task st))).
Proof.
  intros Hwf. unfold restartIfDown.
  destruct (autoRestart task && Status_eqb (status task) Running
            && truthy (containerId task)); [|assumption].
  rewrite bind_getContainerInfo. cbv zeta. cbn [final].
  set (st' := mkState (tasks st) _).
  assert (Hstart : wellFormed
            (tasks (final (bind H (startTask H taskId) (fun _ => ret H tt) st')))).
  { destruct (bind_discard H (startTask H taskId) st') as [-> _].
    now apply startTask_wellFormed. }
  destruct (containerInfoOf _) as [info|]; [|assumption].
  destruct (reportsRunning info); cbn [negb]; assumption.
Qed.

Lemma syncStatus_wellFormed taskId task (st : State H) :
  mapGet taskId (tasks st) = Some task ->
  wellFormed (tasks st) ->
  wellFormed (tasks (final (syncStatus H taskId task st))).
Proof.
  intros Hget Hwf. unfold syncStatus.
  destruct (truthy (containerId task)); [|assumption].
  rewrite bind_getContainerInfo. cbv zeta. cbn [final].
  destruct (containerInfoOf _) as [info|]; [|assumption].
  destruct (negb _); [|assumption].
  rewrite bind_writeTasks, bind_now, bind_writeTasks. cbn.
  rewrite !mapSet_mapAssign.
  apply wellFormed_mapSet with task; [assumption | assumption |].
  cbn. apply Hwf. now apply mapGet_In.
Qed.

(** X26.  Every call of create, start, stop, logs or of a sweep keeps the
    map well formed (distinct keys, every task under its own [id]),
    except a [createTask] whose identifier is already a key of the map. *)
Theorem perform_wellFormed (st : State H) req :
  wellFormed (tasks st) ->
  match req with
  | Create _ => mapGet (fst (randomUUID H (world st))) (tasks st) = None
  | _ => True
  end ->
  wellFormed (tasks (final (perform H req st))).
Proof.
  intros Hwf Hfresh.
  destruct req as [taskData|taskId|taskId|taskId| |]; cbn [perform].
  - destruct (bind_discard H (createTask H taskData) st) as [-> _].
    destruct (createTask_run H taskData st) as (createdAt & updatedAt & st1 & Ht & E).
    cbv zeta in Ht, E. rewrite E. cbn [final]. rewrite tasks_afterSave, Ht.
    now apply wellFormed_mapSet_fresh.
  - destruct (bind_discard H (startTask H taskId) st) as [-> _].
    now apply startTask_wellFormed.
  - destruct (bind_discard H (stopTask H taskId) st) as [-> _].
    now apply stopTask_wellFormed.
  - destruct (bind_discard H (getTaskLogs H taskId) st) as [-> _].
    now rewrite getTaskLogs_tasks.
  - unfold restartAutoRestartTasks. rewrite forEachTask_run.
    apply (forEachKey_invariant H (restartIfDown H)
             (fun s _ => wellFormed (tasks s))) with (tr := []); [|assumption].
    intros k t s tr _ Hs. now apply restartIfDown_wellFormed.
  - rewrite updateTaskStatuses_tasks.
    apply (forEachKey_invariant H (syncStatus H)
             (fun s _ => wellFormed (tasks s))) with (tr := []); [|assumption].
    intros k t s tr Hk Hs. now apply syncStatus_wellFormed.
Qed.

(** X27.  [removeTask] keeps the map well formed, however it ends: also
    when a state-file write is rejected half way. *)
Theorem removeTask_wellFormed (st : State H) taskId :
  wellFormed (tasks st) ->
  wellFormed (tasks (final (removeTask H taskId st))).
Proof.
  intros Hwf. unfold removeTask. rewrite bind_readTasks.
  destruct (mapGet taskId (tasks st)) as [task|] eqn:Hget; [|assumption].
  fold (removeRest H taskId task).
  assert (Hrest : forall s : State H,
            wellFormed (tasks s) ->
            wellFormed (tasks (final (removeRest H taskId task s)))).
  { intros s Hs. unfold removeRest.
    assert (Htail : forall s' : State H,
              wellFormed (tasks s') ->
              wellFormed (tasks (final
                (bind H (writeTasks H (mapDelete taskId))
                   (fun _ => bind H (saveState H)
                      (fun _ => ret H (mkReply true "Task removed successfully"))) s')))).
    { intros s' Hs'. rewrite bind_writeTasks, bind_saveState.
      destruct (saveFailure _); cbn; now apply wellFormed_mapDelete. }
    destruct (truthy (containerId task)).
    - rewrite bind_assoc, bind_runCommand. cbv zeta. cbn [final].
      rewrite bind_ret. now apply Htail.
    - rewrite bind_ret. now apply Htail. }
  destruct (truthy (containerId task) && Status_eqb (status task) Running).
  - rewrite bind_assoc.
    pose proof (stopTask_wellFormed taskId st Hwf) as Hstop.
    destruct (stopTask H taskId st) as [[reply|reason] s1 tr1] eqn:E;
      cbn [final] in Hstop.
    + rewrite (bind_returned _ _ _ _ _ _ _ E). cbn [final].
      rewrite bind_ret. now apply Hrest.
    + rewrite (bind_thrown _ _ _ _ _ _ _ E). assumption.
  - rewrite bind_ret. now apply Hrest.
Qed.

End WellFormed.

(** ** String helpers at work *)

Example trim_run_output : trim ("  abc123" ++ newline) = "abc123".
Proof. reflexivity. Qed.

Example trim_blank : trim (" " ++ newline) = "".
Proof. reflexivity. Qed.

Example trim_inner_space : trim " a b " = "a b".
Proof. reflexivity. Qed.

Example split_line : split "," "abc,running,web,nginx" = ["abc"; "running"; "web"; "nginx"].
Proof. reflexivity. Qed.

Example split_empty : split "," "" = [""].
Proof. reflexivity. Qed.

Example split_trailing : split "," "a,,b," = ["a"; ""; "b"; ""].
Proof. reflexivity. Qed.

Example inspect_short_line :
  containerInfoOf (mkCommandResult true "abc" None)
    = Some (mkContainerInfo (Some "abc") None None None).
Proof. reflexivity. Qed.

Example runCommandLine_idleTask :
  runCommandLine idleTask =
    ["podman"; "run"; "-d"; "--name"; "task-id1";
     "-v"; "/srv/db:/var/lib/postgresql/data";
     "-e"; "POSTGRES_DB=app"; "postgres:16"].
Proof. reflexivity. Qed.

(** ** The statements at concrete inputs *)

Ltac concrete_keys :=
  repeat constructor; cbn; intuition discriminate.

Ltac concrete_ids :=
  let k := fresh "k" in
  let t := fresh "t" in
  let E := fresh "E" in
  intros k t [E|[E|[]]]; inversion E; reflexivity.

Ltac concrete_writes :=
  let path := fresh "path" in
  let content := fresh "content" in
  let w := fresh "w" in
  intros path content w; reflexivity.

(** C1, the claim as stated fails: the runtime knows no container
    [abc123], the inspection yields no snapshot, and the sweep leaves the
    task [Running] instead of setting it to [Stopped]. *)
Lemma updateTaskStatuses_absent_keeps_status :
  observe hostGone "abc123" 0 = None /\
  option_map status
    (getTask "id0" (final (updateTaskStatuses hostGone (storeOf hostGone 0 liveTask))))
    = Some Running /\
  option_map status
    (getTask "id0" (final (updateTaskStatuses hostGone (storeOf hostGone 0 liveTask))))
    <> Some Stopped.
Proof. vm_compute. repeat split. discriminate. Qed.

Lemma updateTaskStatuses_sync_witness :
  (exists task',
     getTask "id0" (final (updateTaskStatuses hostUp (storeOf hostUp 0 haltedTask)))
       = Some task' /\
     status task' = Running) /\
  (exists task',
     getTask "id0" (final (updateTaskStatuses hostExited (storeOf hostExited 0 liveTask)))
       = Some task' /\
     status task' = Stopped) /\
  (exists task',
     getTask "id0" (final (updateTaskStatuses hostGone (storeOf hostGone 0 liveTask)))
       = Some task' /\
     status task' = Running).
Proof.
  split; [|split].
  - apply (updateTaskStatuses_sync hostUp (storeOf hostUp 0 haltedTask) "id0" haltedTask
             (Some (mkContainerInfo (Some "abc123") (Some "running")
                                    (Some "task-x") (Some "nginx:latest"))));
      [concrete_keys | reflexivity | reflexivity | intros w; reflexivity].
  - apply (updateTaskStatuses_sync hostExited (storeOf hostExited 0 liveTask) "id0" liveTask
             (Some (mkContainerInfo (Some "abc123") (Some "exited")
                                    (Some "task-x") (Some "nginx:latest"))));
      [concrete_keys | reflexivity | reflexivity | intros w; reflexivity].
  - apply (updateTaskStatuses_sync hostGone (storeOf hostGone 0 liveTask) "id0" liveTask None);
      [concrete_keys | reflexivity | reflexivity | intros w; reflexivity].
Defined.

(** C2, the claim as stated fails: both tasks below have [autoRestart],
    are stored as [Running] and have a container that the runtime reports
    as exited, in a well-formed map.  The sweep restarts [id0], the write
    of the state file in that [startTask] is rejected, and the sweep ends
    there: no [podman run] is launched for [id1], which stays as it
    was. *)
Lemma restartAutoRestartTasks_stops_at_rejected_write :
  wellFormed (tasks (twoLiveStore hostExitedDiskFull 0)) /\
  getTask "id1" (twoLiveStore hostExitedDiskFull 0) = Some secondLiveTask /\
  eligible secondLiveTask = true /\
  (forall w,
     down (observe hostExitedDiskFull (narrowed (containerId secondLiveTask)) w) = true) /\
  outcome (restartAutoRestartTasks hostExitedDiskFull (twoLiveStore hostExitedDiskFull 0))
    = Thrown "No space left on device" /\
  filter (launches "id1")
         (trace (restartAutoRestartTasks hostExitedDiskFull
                   (twoLiveStore hostExitedDiskFull 0))) = [] /\
  getTask "id1"
          (final (restartAutoRestartTasks hostExitedDiskFull
                    (twoLiveStore hostExitedDiskFull 0))) = Some secondLiveTask.
Proof.
  split; [split; [concrete_keys | concrete_ids]|].
  split; [reflexivity|]. split; [reflexivity|].
  split; [intros w; reflexivity|].
  vm_compute. repeat split.
Qed.

Lemma restartAutoRestartTasks_sweep_witness :
  (exists o task',
     filter (launches "id0")
            (trace (restartAutoRestartTasks hostGone (storeOf hostGone 0 liveTask)))
       = [EvSpawn (runCommandLine liveTask) o] /\
     getTask "id0" (final (restartAutoRestartTasks hostGone (storeOf hostGone 0 liveTask)))
       = Some task' /\
     status task' = if success (commandResult o) then Running else Error) /\
  (filter (launches "id1")
          (trace (restartAutoRestartTasks hostGone (storeOf hostGone 0 liveTask))) = [] /\
   getTask "id1" (final (restartAutoRestartTasks hostGone (storeOf hostGone 0 liveTask)))
     = Some idleTask).
Proof.
  split.
  - apply (proj1 (restartAutoRestartTasks_sweep hostGone ltac:(concrete_writes)
                    (storeOf hostGone 0 liveTask) "id0" liveTask
                    ltac:(split; [concrete_keys | concrete_ids]) eq_refl));
      [reflexivity | intros w; reflexivity].
  - apply (proj2 (restartAutoRestartTasks_sweep hostGone ltac:(concrete_writes)
                    (storeOf hostGone 0 liveTask) "id1" idleTask
                    ltac:(split; [concrete_keys | concrete_ids]) eq_refl)).
    reflexivity.
Defined.

(** C3, the claim as stated fails: in the call below no completed write
    of a pending [id0] comes before the [podman run]; the trace of the call
    is the subprocess and then one write. *)
Lemma startTask_pending_not_saved :
  pendingSavedBeforeRun "id0"
    (trace (startTask hostUp "id0" (storeOf hostUp 0 freshTask))) = false /\
  List.map (fun e => match e with EvSpawn _ _ => "spawn" | EvWrite _ _ _ => "write" end)
           (trace (startTask hostUp "id0" (storeOf hostUp 0 freshTask)))
    = ["spawn"; "write"].
Proof. vm_compute. split; reflexivity. Qed.

Lemma startTask_saves_after_run_witness :
  exists o snapshot failure task',
    trace (startTask hostUp "id0" (storeOf hostUp 0 freshTask)) =
      [EvSpawn (runCommandLine freshTask) o; EvWrite stateFile snapshot failure] /\
    mapGet "id0" (snap_tasks snapshot) = Some task' /\
    status task' = (if success (commandResult o) then Running else Error) /\
    status task' <> Pending.
Proof.
  apply (proj2 (startTask_saves_after_run hostUp (storeOf hostUp 0 freshTask)
                  "id0" freshTask eq_refl)).
Defined.

Lemma startTask_settles_witness :
  exists o task',
    In (EvSpawn (runCommandLine freshTask) o)
       (trace (startTask hostBroken "id0" (storeOf hostBroken 0 freshTask))) /\
    getTask "id0" (final (startTask hostBroken "id0" (storeOf hostBroken 0 freshTask)))
      = Some task' /\
    (if success (commandResult o)
     then status task' = Running /\
          containerId task' = Some (trim (output (commandResult o)))
     else status task' = Error) /\
    status task' <> Pending.
Proof.
  apply (startTask_settles hostBroken (storeOf hostBroken 0 freshTask)
           "id0" freshTask eq_refl).
Defined.

Lemma startTask_unguarded_witness :
  exists o snapshot failure task',
    trace (startTask hostExited "id0" (storeOf hostExited 0 liveTask)) =
      [EvSpawn (runCommandLine liveTask) o; EvWrite stateFile snapshot failure] /\
    launches "id0" (EvSpawn (runCommandLine liveTask) o) = true /\
    getTask "id0" (final (startTask hostExited "id0" (storeOf hostExited 0 liveTask)))
      = Some task' /\
    containerId task' =
      (if success (commandResult o)
       then Some (trim (output (commandResult o)))
       else Some "abc123").
Proof.
  apply (startTask_unguarded hostExited (storeOf hostExited 0 liveTask)
           "id0" liveTask eq_refl).
Defined.

(** The running task [id0] is started again and its container reference
    replaced. *)
Example startTask_twice :
  option_map containerId
    (getTask "id0" (final (startTask hostExited "id0" (storeOf hostExited 0 liveTask))))
    = Some (Some "def456").
Proof. vm_compute. reflexivity. Qed.

Lemma stopTask_failure_keeps_task_witness :
  (outcome (stopTask hostUp "id0" (storeOf hostUp 0 freshTask))
     = Returned (mkReply false "No container ID found") /\
   tasks (final (stopTask hostUp "id0" (storeOf hostUp 0 freshTask)))
     = tasks (storeOf hostUp 0 freshTask) /\
   getTask "id0" (final (stopTask hostUp "id0" (storeOf hostUp 0 freshTask)))
     = Some freshTask /\
   trace (stopTask hostUp "id0" (storeOf hostUp 0 freshTask)) = []) /\
  (outcome (stopTask hostGone "id0" (storeOf hostGone 0 liveTask))
     = Returned (mkReply false "Failed to stop task: Error: no such container") /\
   tasks (final (stopTask hostGone "id0" (storeOf hostGone 0 liveTask)))
     = tasks (storeOf hostGone 0 liveTask) /\
   getTask "id0" (final (stopTask hostGone "id0" (storeOf hostGone 0 liveTask)))
     = Some liveTask /\
   trace (stopTask hostGone "id0" (storeOf hostGone 0 liveTask))
     = [EvSpawn (stopCommand liveTask) (noSuchContainer (stopCommand liveTask))]).
Proof.
  split.
  - apply (stopTask_failure_keeps_task hostUp (storeOf hostUp 0 freshTask)
             "id0" freshTask eq_refl (or_introl eq_refl)).
  - apply (stopTask_failure_keeps_task hostGone (storeOf hostGone 0 liveTask)
             "id0" liveTask eq_refl (or_intror eq_refl)).
Defined.

Lemma removeTask_removes_witness :
  outcome (removeTask hostGone "id0" (storeOf hostGone 0 liveTask))
    = Returned (mkReply true "Task removed successfully") /\
  tasks (final (removeTask hostGone "id0" (storeOf hostGone 0 liveTask)))
    = mapDelete "id0" (tasks (storeOf hostGone 0 liveTask)) /\
  getTask "id0" (final (removeTask hostGone "id0" (storeOf hostGone 0 liveTask))) = None /\
  ~ In "id0" (List.map id
                (getTasks (final (removeTask hostGone "id0" (storeOf hostGone 0 liveTask))))).
Proof.
  apply (removeTask_removes hostGone (storeOf hostGone 0 liveTask) "id0" liveTask);
    [concrete_writes | concrete_ids | reflexivity].
Defined.

(** C6, the claim as stated fails: the task below is in the map, stored
    under its own [id], and its [podman stop] succeeds; the write of the
    state file inside the inner [stopTask] is rejected, so [removeTask] is
    rejected too, before it deletes anything, and the task is still
    listed, as [Stopped]. *)
Example removeTask_write_rejected :
  getTask "id0" (storeOf hostDiskFull 0 liveTask) = Some liveTask /\
  outcome (removeTask hostDiskFull "id0" (storeOf hostDiskFull 0 liveTask))
    = Thrown "No space left on device" /\
  option_map status
    (getTask "id0" (final (removeTask hostDiskFull "id0" (storeOf hostDiskFull 0 liveTask))))
    = Some Stopped /\
  In "id0"
     (List.map id
        (getTasks (final (removeTask hostDiskFull "id0" (storeOf hostDiskFull 0 liveTask))))).
Proof. vm_compute. repeat split. now left. Qed.

(** C7, the claim as stated fails in both directions: a task created from
    a request that carries a container reference has it before any start,
    and a task whose only start failed has none after it. *)
Lemma containerId_without_start_and_start_without_containerId :
  (option_map containerId
     (getTask "id0" (final (createTask hostUp ghostData (emptyStore hostUp 0))))
     = Some (Some "ghost") /\
   existsb (launches "id0")
           (trace (createTask hostUp ghostData (emptyStore hostUp 0))) = false) /\
  (option_map containerId
     (getTask "id0" (final (startTask hostBroken "id0" (storeOf hostBroken 0 freshTask))))
     = Some None /\
   existsb (launches "id0")
           (trace (startTask hostBroken "id0" (storeOf hostBroken 0 freshTask))) = true).
Proof. vm_compute. repeat split. Qed.

Lemma containerId_lifecycle_witness :
  (exists task',
     getTask "id0" (final (perform hostSilent (Start "id0") (storeOf hostSilent 0 liveTask)))
       = Some task' /\
     exists o write,
       trace (perform hostSilent (Start "id0") (storeOf hostSilent 0 liveTask))
         = [EvSpawn (runCommandLine liveTask) o; write] /\
       containerId task' = startedReference liveTask o) /\
  (exists task',
     getTask "id0" (final (perform hostUp (Start "id1") (storeOf hostUp 0 liveTask)))
       = Some task' /\
     containerId task' = containerId liveTask) /\
  (exists task',
     getTask "id0" (final (perform hostUp (Create ghostData) (storeOf hostUp 0 liveTask)))
       = Some task' /\
     containerId task' = td_containerId ghostData) /\
  (exists task',
     getTask "id0" (final (perform hostUp (Create ghostData) (storeOf hostUp 7 liveTask)))
       = Some task' /\
     containerId task' = containerId liveTask) /\
  (exists task',
     getTask "id0" (final (perform hostBroken SweepRestart (storeOf hostBroken 0 liveTask)))
       = Some task' /\
     (containerId task' = containerId liveTask \/
      (eligible liveTask = true /\
       restartedBy liveTask task'
         (trace (perform hostBroken SweepRestart (storeOf hostBroken 0 liveTask)))))).
Proof.
  split; [|split; [|split; [|split]]].
  - exact (proj2 (containerId_lifecycle hostSilent (storeOf hostSilent 0 liveTask)
                    (Start "id0")) "id0" liveTask eq_refl).
  - exact (proj2 (containerId_lifecycle hostUp (storeOf hostUp 0 liveTask)
                    (Start "id1")) "id0" liveTask eq_refl).
  - exact (proj2 (containerId_lifecycle hostUp (storeOf hostUp 0 liveTask)
                    (Create ghostData)) "id0" liveTask eq_refl).
  - exact (proj2 (containerId_lifecycle hostUp (storeOf hostUp 7 liveTask)
                    (Create ghostData)) "id0" liveTask eq_refl).
  - exact (proj2 (containerId_lifecycle hostBroken (storeOf hostBroken 0 liveTask)
                    SweepRestart) "id0" liveTask eq_refl).
Defined.

(** A [podman run] that exits with 0 and prints only white space leaves
    the empty string as [containerId]: the task is [Running], and
    [stopTask] then answers that it has no container. *)
Example startTask_blank_output :
  option_map (fun t => (status t, containerId t))
    (getTask "id0" (final (startTask hostSilent "id0" (storeOf hostSilent 0 liveTask))))
    = Some (Running, Some "") /\
  truthy (Some "") = false /\
  outcome (stopTask hostSilent "id0"
             (final (startTask hostSilent "id0" (storeOf hostSilent 0 liveTask))))
    = Returned (mkReply false "No container ID found").
Proof. vm_compute. repeat split. Qed.

(** C8, the claim as stated fails: a request with an empty name and an
    empty image is not refused, the task is created and stored. *)
Lemma createTask_blank_accepted :
  outcome (createTask hostUp blankData (emptyStore hostUp 0))
    = Returned (created blankData "id0" "t1" "t2") /\
  name (created blankData "id0" "t1" "t2") = "" /\
  image (created blankData "id0" "t1" "t2") = "" /\
  getTask "id0" (final (createTask hostUp blankData (emptyStore hostUp 0)))
    = Some (created blankData "id0" "t1" "t2").
Proof. vm_compute. repeat split. Qed.

(** C9, the claim as stated fails: an unknown container (exit 125) and a
    launch that failed get the same answer, [null], and neither gets an
    error value. *)
Lemma getContainerInfo_failures_alike :
  outcome (getContainerInfo hostGone "abc123" (emptyStore hostGone 0)) = Returned None /\
  outcome (getContainerInfo hostBroken "abc123" (emptyStore hostBroken 0)) = Returned None /\
  outcome (getContainerInfo hostGone "abc123" (emptyStore hostGone 0))
    = outcome (getContainerInfo hostBroken "abc123" (emptyStore hostBroken 0)).
Proof. vm_compute. repeat split. Qed.

(** ** Further properties of single calls *)

Lemma commands_app tr tr' : commands (tr ++ tr') = (commands tr ++ commands tr')%list.
Proof.
  induction tr as [|[cmd o|path content failure] rest IH]; cbn; [reflexivity| |assumption].
  now rewrite IH.
Qed.

Lemma mapSet_absent key value m :
  mapGet key m = None -> mapSet key value m = (m ++ [(key, value)])%list.
Proof.
  induction m as [|[k t] rest IH]; simpl; [reflexivity|].
  destruct (k =? key); [discriminate|]. intros Hg. f_equal. now apply IH.
Qed.

Section SingleCalls.

Context (H : Host).

Lemma removeTask_absent taskId (st : State H) :
  mapGet taskId (tasks st) = None ->
  removeTask H taskId st = mkRun (Returned (mkReply false "Task not found")) st [].
Proof.
  intros Hget. unfold removeTask. now rewrite bind_readTasks, Hget.
Qed.

Lemma getTaskLogs_absent taskId (st : State H) :
  mapGet taskId (tasks st) = None ->
  getTaskLogs H taskId st =
    mkRun (Returned (mkLogsReply false None (Some "Task or container not found"))) st [].
Proof.
  intros Hget. unfold getTaskLogs. now rewrite bind_readTasks, Hget.
Qed.

(** X1.  A call of [startTask], [stopTask], [removeTask] or [getTaskLogs]
    with an identifier that is not a key of the map answers with a failure
    ("Task not found", for the logs "Task or container not found"),
    launches no subprocess, writes no file and leaves the state as it
    was. *)
Theorem unknown_task_is_inert (st : State H) taskId :
  mapGet taskId (tasks st) = None ->
  startTask H taskId st = mkRun (Returned (mkReply false "Task not found")) st [] /\
  stopTask H taskId st = mkRun (Returned (mkReply false "Task not found")) st [] /\
  removeTask H taskId st = mkRun (Returned (mkReply false "Task not found")) st [] /\
  getTaskLogs H taskId st =
    mkRun (Returned (mkLogsReply false None (Some "Task or container not found"))) st [].
Proof.
  intros Hget. repeat split.
  - now apply startTask_absent.
  - now apply stopTask_absent.
  - now apply removeTask_absent.
  - now apply getTaskLogs_absent.
Qed.

(** X2.  [getTaskLogs] only reads: it never changes the map and never
    writes the state file.  For a task without a [containerId] it answers
    "Task or container not found" without a subprocess; for a task with one
    it runs exactly [podman logs --tail 100 <containerId>] and answers with
    the standard output of the subprocess as it is, or with its failure. *)
Theorem getTaskLogs_only_reads (st : State H) taskId task :
  mapGet taskId (tasks st) = Some task ->
  let o := fst (spawn H (logsCommand task) (world st)) in
  let r := getTaskLogs H taskId st in
  tasks (final r) = tasks st /\
  outcome r =
    Returned (if truthy (containerId task) then logsReply o
              else mkLogsReply false None (Some "Task or container not found")) /\
  trace r = (if truthy (containerId task) then [EvSpawn (logsCommand task) o] else []).
Proof.
  intros Hget. cbv zeta. unfold getTaskLogs. rewrite bind_readTasks, Hget.
  destruct (truthy (containerId task)); cbn [negb]; [|cbn; auto].
  rewrite bind_runCommand. cbv zeta. fold (logsCommand task). unfold logsReply.
  destruct (success _); cbn; auto.
Qed.

(** X3.  When the identifier drawn by [createTask] is not yet a key, the
    new task is added after all the tasks of the map, which keep their
    places: [getTasks] lists the old tasks and then the new one. *)
Theorem createTask_appends (st : State H) taskData :
  mapGet (fst (randomUUID H (world st))) (tasks st) = None ->
  exists task,
    id task = fst (randomUUID H (world st)) /\
    tasks (final (createTask H taskData st)) = (tasks st ++ [(id task, task)])%list /\
    getTasks (final (createTask H taskData st)) = (getTasks st ++ [task])%list.
Proof.
  intros Hfresh.
  destruct (createTask_run H taskData st) as (createdAt & updatedAt & st1 & Ht & E).
  cbv zeta in Ht, E.
  exists (created taskData (fst (randomUUID H (world st))) createdAt updatedAt).
  cbn [id created] in *. rewrite (mapSet_absent _ _ _ Hfresh) in Ht.
  split; [reflexivity|]. unfold getTasks. rewrite E. cbn [final].
  rewrite tasks_afterSave, Ht. split; [reflexivity|].
  now rewrite map_app.
Qed.

(** X4.  [createTask] does not check that the identifier it draws is
    unused: when it is already a key, the new record takes the place of the
    task stored under it, and the map has the keys it had, in the same
    order. *)
Theorem createTask_overwrites (st : State H) taskData old :
  mapGet (fst (randomUUID H (world st))) (tasks st) = Some old ->
  let r := createTask H taskData st in
  mapKeys (tasks (final r)) = mapKeys (tasks st) /\
  exists task,
    getTask (fst (randomUUID H (world st))) (final r) = Some task /\
    name task = td_name taskData /\ image task = td_image taskData /\
    status task = Stopped /\ containerId task = td_containerId taskData.
Proof.
  intros Hold. cbv zeta.
  destruct (createTask_run H taskData st) as (createdAt & updatedAt & st1 & Ht & E).
  cbv zeta in Ht, E. rewrite E. cbn [final]. unfold getTask.
  rewrite tasks_afterSave, Ht. cbn [id created]. split.
  - now apply mapKeys_mapSet_present with old.
  - eexists. split; [apply mapGet_mapSet_same|]. cbn. auto.
Qed.

Lemma stopTask_commands taskId task (st : State H) :
  mapGet taskId (tasks st) = Some task ->
  commands (trace (stopTask H taskId st)) =
    if truthy (containerId task) then [stopCommand task] else [].
Proof.
  intros Hget. destruct (truthy (containerId task)) eqn:Hc.
  - destruct (success (commandResult (fst (spawn H (stopCommand task) (world st))))) eqn:Hs.
    + destruct (stopTask_stopped H _ _ _ Hget Hc Hs) as (stamp & st1 & _ & E).
      now rewrite E.
    + now rewrite (stopTask_refused H _ _ _ Hget Hc Hs).
  - now rewrite (stopTask_no_container H _ _ _ Hget Hc).
Qed.

(** X7.  A [stopTask] that follows a [startTask] targets the container of
    that start: when the [run] subprocess succeeded it stops the container
    named by the trimmed output, and launches nothing if that output was
    blank; when the subprocess failed it stops the container the task had
    before, if it had one. *)
Theorem stopTask_after_startTask (st : State H) taskId task :
  mapGet taskId (tasks st) = Some task ->
  exists o rest,
    trace (startTask H taskId st) = EvSpawn (runCommandLine task) o :: rest /\
    commands (trace (stopTask H taskId (final (startTask H taskId st)))) =
      if success (commandResult o)
      then (if trim (output (commandResult o)) =? "" then []
            else [["podman"; "stop"; trim (output (commandResult o))]])
      else (if truthy (containerId task) then [stopCommand task] else []).
Proof.
  intros Hget.
  destruct (startTask_found H st taskId task Hget) as (w0 & o & stamp & st1 & _ & Ht & E).
  exists o. eexists. rewrite E. cbn [trace final]. split; [reflexivity|].
  rewrite (stopTask_commands taskId (started task o stamp)).
  - unfold stopCommand. rewrite containerId_started.
    destruct (success (commandResult o)); [|reflexivity].
    cbn [truthy narrowed]. now destruct (trim (output (commandResult o)) =? "").
  - rewrite tasks_afterSave, Ht. apply mapGet_mapSet_same.
Qed.

Lemma stopTask_run_ok taskId task (st : State H) :
  writesSucceed H ->
  mapGet taskId (tasks st) = Some task ->
  (exists reply, outcome (stopTask H taskId st) = Returned reply) /\
  mapDelete taskId (tasks (final (stopTask H taskId st))) = mapDelete taskId (tasks st).
Proof.
  intros Hw Hget. split; [now apply stopTask_returns|].
  destruct (stopTask_tasks H taskId task st Hget) as [->|[stamp ->]];
    [reflexivity | apply mapDelete_mapSet].
Qed.

Lemma removeRest_commands taskId task (st : State H) :
  writesSucceed H ->
  commands (trace (removeRest H taskId task st)) =
    if truthy (containerId task) then [removeCommand task] else [].
Proof.
  intros Hw. unfold removeRest.
  destruct (truthy (containerId task)).
  - rewrite bind_assoc, bind_runCommand. cbv zeta.
    rewrite bind_ret, bind_writeTasks, bind_saveState.
    rewrite saveFailure_None by assumption. cbn. reflexivity.
  - rewrite bind_ret, bind_writeTasks, bind_saveState.
    rewrite saveFailure_None by assumption. cbn. reflexivity.
Qed.

Lemma removeTask_deletes taskId task (st : State H) :
  writesSucceed H ->
  mapGet taskId (tasks st) = Some task ->
  let r := removeTask H taskId st in
  outcome r = Returned (mkReply true "Task removed successfully") /\
  tasks (final r) = mapDelete taskId (tasks st) /\
  commands (trace r) =
    ((if truthy (containerId task) && Status_eqb (status task) Running
      then [stopCommand task] else [])
     ++ (if truthy (containerId task) then [removeCommand task] else []))%list.
Proof.
  intros Hw Hget. cbv zeta.
  unfold removeTask. rewrite bind_readTasks, Hget.
  fold (removeRest H taskId task).
  destruct (truthy (containerId task) && Status_eqb (status task) Running) eqn:Hc.
  - destruct (stopTask_run_ok taskId task st Hw Hget) as [[reply Hr] Hd].
    rewrite bind_assoc, (bind_outcome _ _ _ _ _ Hr), bind_ret.
    cbn [outcome final trace].
    destruct (removeRest_run H taskId task (final (stopTask H taskId st)) Hw) as [R1 R2].
    rewrite R1, R2, Hd, commands_app, removeRest_commands by assumption.
    rewrite (stopTask_commands taskId task st Hget).
    apply andb_prop in Hc as [-> _]. auto.
  - rewrite bind_ret.
    destruct (removeRest_run H taskId task st Hw) as [R1 R2].
    rewrite R1, R2, removeRest_commands by assumption. auto.
Qed.

(** X8.  On a host whose state-file writes succeed, [removeTask] launches
    [podman stop] only for a task stored as [Running] with a
    [containerId], then [podman rm] for every task with a [containerId],
    whether or not the stop succeeded, and nothing else; a task without a
    [containerId] is removed without any subprocess. *)
Theorem removeTask_subprocesses (st : State H) taskId task :
  writesSucceed H ->
  mapGet taskId (tasks st) = Some task ->
  commands (trace (removeTask H taskId st)) =
    ((if truthy (containerId task) && Status_eqb (status task) Running
      then [stopCommand task] else [])
     ++ (if truthy (containerId task) then [removeCommand task] else []))%list.
Proof.
  intros Hw Hget. now destruct (removeTask_deletes taskId task st Hw Hget) as (_ & _ & E).
Qed.

(** X9.  On a host whose state-file writes succeed, once [removeTask] has
    removed a task, a second [removeTask] and any [startTask], [stopTask]
    or [getTaskLogs] with its identifier answer with a failure and do
    nothing. *)
Theorem removed_task_is_gone (st : State H) taskId task :
  writesSucceed H ->
  mapGet taskId (tasks st) = Some task ->
  let st' := final (removeTask H taskId st) in
  removeTask H taskId st' = mkRun (Returned (mkReply false "Task not found")) st' [] /\
  startTask H taskId st' = mkRun (Returned (mkReply false "Task not found")) st' [] /\
  stopTask H taskId st' = mkRun (Returned (mkReply false "Task not found")) st' [] /\
  getTaskLogs H taskId st' =
    mkRun (Returned (mkLogsReply false None (Some "Task or container not found"))) st' [].
Proof.
  intros Hw Hget. cbv zeta.
  assert (Hgone : mapGet taskId (tasks (final (removeTask H taskId st))) = None).
  { destruct (removeTask_deletes taskId task st Hw Hget) as (_ & -> & _).
    apply mapGet_mapDelete_same. }
  repeat split.
  - now apply removeTask_absent.
  - now apply startTask_absent.
  - now apply stopTask_absent.
  - now apply getTaskLogs_absent.
Qed.

End SingleCalls.

(** ** What every call keeps of a task *)

Lemma sameSpec_refl t : sameSpec t t.
Proof. unfold sameSpec. repeat split. Qed.

Lemma sameSpec_trans t u v : sameSpec t u -> sameSpec u v -> sameSpec t v.
Proof. unfold sameSpec. intuition congruence. Qed.

Lemma sameSpec_started t o stamp : sameSpec t (started t o stamp).
Proof. unfold sameSpec, started. destruct (success (commandResult o)); cbn; repeat split. Qed.

Lemma sameSpec_stopped t stamp : sameSpec t (set_updatedAt stamp (set_status Stopped t)).
Proof. unfold sameSpec. cbn. repeat split. Qed.

Lemma sameSpec_synced t info stamp : sameSpec t (synced t info stamp).
Proof.
  unfold synced. destruct info as [i|]; [|apply sameSpec_refl].
  destruct (negb _); [|apply sameSpec_refl]. unfold sameSpec. cbn. repeat split.
Qed.

Lemma sameSpec_runCommandLine t t' :
  sameSpec t t' -> runCommandLine t' = runCommandLine t.
Proof.
  unfold sameSpec, runCommandLine.
  intros (-> & _ & -> & -> & -> & -> & -> & _). reflexivity.
Qed.

Section Kept.

Context (H : Host).

Lemma restartIfDown_tasks taskId task (st : State H) :
  mapGet taskId (tasks st) = Some task ->
  tasks (final (restartIfDown H taskId task st)) = tasks st \/
  exists o stamp,
    tasks (final (restartIfDown H taskId task st)) =
      mapSet taskId (started task o stamp) (tasks st).
Proof.
  intros Hget. unfold restartIfDown.
  destruct (autoRestart task && Status_eqb (status task) Running
            && truthy (containerId task)); [|now left].
  rewrite bind_getContainerInfo. cbv zeta. cbn [final].
  set (st' := mkState (tasks st) _).
  assert (Hstart : exists o stamp,
            tasks (final (bind H (startTask H taskId) (fun _ => ret H tt) st')) =
              mapSet taskId (started task o stamp) (tasks st)).
  { destruct (bind_discard H (startTask H taskId) st') as [-> _].
    destruct (startTask_found H st' taskId task Hget) as (w0 & o & stamp & st1 & _ & Ht & E).
    exists o, stamp. rewrite E. cbn [final]. now rewrite tasks_afterSave, Ht. }
  destruct (containerInfoOf _) as [info|]; [|now right].
  destruct (reportsRunning info); cbn [negb]; [now left | now right].
Qed.

Lemma syncStatus_tasks taskId task (st : State H) :
  mapGet taskId (tasks st) = Some task ->
  tasks (final (syncStatus H taskId task st)) = tasks st \/
  exists stamp s,
    tasks (final (syncStatus H taskId task st)) =
      mapSet taskId (set_updatedAt stamp (set_status s task)) (tasks st).
Proof.
  intros Hget. unfold syncStatus.
  destruct (truthy (containerId task)); [|now left].
  rewrite bind_getContainerInfo. cbv zeta. cbn [final].
  destruct (containerInfoOf _) as [info|]; [|now left].
  destruct (negb _); [|now left].
  rewrite bind_writeTasks, bind_now, bind_writeTasks. cbn.
  rewrite !mapSet_mapAssign. right. eauto.
Qed.

(** The entry of [key], followed through one call, for a relation on
    records that every update of a record respects. *)
Section Related.

Context (R : Task -> Task -> Prop).

Hypothesis R_refl : forall t, R t t.
Hypothesis R_trans : forall t u v, R t u -> R u v -> R t v.
Hypothesis R_started : forall t o stamp, R t (started t o stamp).
Hypothesis R_status : forall t s stamp, R t (set_updatedAt stamp (set_status s t)).

Context (key : string) (task : Task).

#[local] Abbreviation related := (relatedTo H R key task).

Lemma related_mapSet (m : TaskMap) (w : World H) k t u :
  mapGet k m = Some t -> R t u ->
  related (mkState m w) -> forall w', related (mkState (mapSet k u m) w').
Proof.
  intros Hk Hr (task' & Hg & Ht) w'. unfold relatedTo. cbn [tasks] in *.
  destruct (String.eqb_spec k key) as [->|Hne].
  - rewrite mapGet_mapSet_same. eexists. split; [reflexivity|].
    assert (t = task') as -> by congruence. eauto.
  - rewrite mapGet_mapSet_other by assumption. eauto.
Qed.

Lemma related_tasks (st st' : State H) k t u :
  mapGet k (tasks st) = Some t -> R t u ->
  tasks st' = mapSet k u (tasks st) ->
  related st -> related st'.
Proof.
  intros Hk Hr Ht Hrel. destruct st as [m w], st' as [m' w']. cbn [tasks] in *. subst m'.
  now apply related_mapSet with w t.
Qed.

Lemma related_same (st st' : State H) :
  tasks st' = tasks st -> related st -> related st'.
Proof. unfold relatedTo. now intros ->. Qed.

Lemma startTask_related taskId (st : State H) :
  related st -> related (final (startTask H taskId st)).
Proof.
  intros Hrel. destruct (mapGet taskId (tasks st)) as [t|] eqn:Hget.
  - destruct (startTask_found H st taskId t Hget) as (w0 & o & stamp & st1 & _ & Ht & E).
    rewrite E. cbn [final].
    apply related_tasks with st taskId t (started t o stamp); auto.
  - now rewrite (startTask_absent H _ _ Hget).
Qed.

Lemma stopTask_related taskId (st : State H) :
  related st -> related (final (stopTask H taskId st)).
Proof.
  intros Hrel. destruct (mapGet taskId (tasks st)) as [t|] eqn:Hget.
  - destruct (stopTask_tasks H taskId t st Hget) as [E|[stamp E]].
    + now apply related_same with st.
    + now apply related_tasks with st taskId t (set_updatedAt stamp (set_status Stopped t)).
  - now rewrite (stopTask_absent H _ _ Hget).
Qed.

Lemma restartIfDown_related taskId t (st : State H) :
  mapGet taskId (tasks st) = Some t ->
  related st -> related (final (restartIfDown H taskId t st)).
Proof.
  intros Hget Hrel.
  destruct (restartIfDown_tasks taskId t st Hget) as [E|(o & stamp & E)].
  - now apply related_same with st.
  - now apply related_tasks with st taskId t (started t o stamp).
Qed.

Lemma syncStatus_related taskId t (st : State H) :
  mapGet taskId (tasks st) = Some t ->
  related st -> related (final (syncStatus H taskId t st)).
Proof.
  intros Hget Hrel.
  destruct (syncStatus_tasks taskId t st Hget) as [E|(stamp & s & E)].
  - now apply related_same with st.
  - now apply related_tasks with st taskId t (set_updatedAt stamp (set_status s t)).
Qed.

Lemma perform_related (st : State H) req :
  mapGet key (tasks st) = Some task ->
  match req with
  | Create _ => fst (randomUUID H (world st)) <> key
  | _ => True
  end ->
  related (final (perform H req st)).
Proof.
  intros Hget Hfresh.
  assert (Hrel : related st) by (exists task; auto).
  destruct req as [taskData|taskId|taskId|taskId| |]; cbn [perform].
  - destruct (bind_discard H (createTask H taskData) st) as [-> _].
    destruct (createTask_run H taskData st) as (createdAt & updatedAt & st1 & Ht & E).
    cbv zeta in Ht, E. rewrite E. cbn [final]. unfold relatedTo.
    rewrite tasks_afterSave, Ht. cbn [id created].
    rewrite mapGet_mapSet_other by assumption. exact Hrel.
  - destruct (bind_discard H (startTask H taskId) st) as [-> _].
    now apply startTask_related.
  - destruct (bind_discard H (stopTask H taskId) st) as [-> _].
    now apply stopTask_related.
  - destruct (bind_discard H (getTaskLogs H taskId) st) as [-> _].
    apply related_same with st; [apply getTaskLogs_tasks | assumption].
  - unfold restartAutoRestartTasks. rewrite forEachTask_run.
    apply (forEachKey_invariant H (restartIfDown H) (fun s _ => related s))
      with (tr := []); [|assumption].
    intros k t s tr Hk Hs. now apply restartIfDown_related.
  - apply related_same with (final (forEachKey H (syncStatus H) (mapKeys (tasks st)) st));
      [apply updateTaskStatuses_tasks|].
    apply (forEachKey_invariant H (syncStatus H) (fun s _ => related s))
      with (tr := []); [|assumption].
    intros k t s tr Hk Hs. now apply syncStatus_related.
Qed.

End Related.

(** X5.  No call of create, start, stop, logs or of a sweep changes what a
    task in the map is: its [id], [name], [image], [command], [env],
    [ports], [volumes], [createdAt] and [autoRestart] stay as they were
    created (provided a create does not draw its identifier again), so a
    later start builds the same [podman run] command line. *)
Theorem task_specification_is_kept (st : State H) req key task :
  mapGet key (tasks st) = Some task ->
  match req with
  | Create _ => fst (randomUUID H (world st)) <> key
  | _ => True
  end ->
  exists task',
    getTask key (final (perform H req st)) = Some task' /\
    sameSpec task task' /\
    runCommandLine task' = runCommandLine task.
Proof.
  intros Hget Hfresh.
  destruct (perform_related sameSpec sameSpec_refl sameSpec_trans sameSpec_started
              (fun t s stamp => ltac:(unfold sameSpec; cbn; repeat split))
              key task st req Hget Hfresh) as (task' & Hg & Hs).
  exists task'. split; [assumption|]. split; [assumption|].
  now apply sameSpec_runCommandLine.
Qed.

Lemma keys_invariant (body : string -> Task -> M H unit) :
  (forall k t s, mapGet k (tasks s) = Some t ->
                 mapKeys (tasks (final (body k t s))) = mapKeys (tasks s)) ->
  forall keys st,
    mapKeys (tasks (final (forEachKey H body keys st))) = mapKeys (tasks st).
Proof.
  intros Hbody keys st.
  apply (forEachKey_invariant H body
           (fun s _ => mapKeys (tasks s) = mapKeys (tasks st))) with (tr := []);
    [|reflexivity].
  intros k t s tr Hk Hs. now rewrite Hbody.
Qed.

(** X6.  Start, stop, logs and the two sweeps never add, drop or reorder a
    key of the map, so [getTasks] keeps listing the same tasks in the same
    order; a create adds its identifier after the others, or leaves the
    keys as they are when the identifier was already one of them. *)
Theorem perform_keys (st : State H) req :
  mapKeys (tasks (final (perform H req st))) =
    match req with
    | Create _ =>
        match mapGet (fst (randomUUID H (world st))) (tasks st) with
        | None => (mapKeys (tasks st) ++ [fst (randomUUID H (world st))])%list
        | Some _ => mapKeys (tasks st)
        end
    | _ => mapKeys (tasks st)
    end.
Proof.
  destruct req as [taskData|taskId|taskId|taskId| |]; cbn [perform].
  - destruct (bind_discard H (createTask H taskData) st) as [-> _].
    destruct (createTask_run H taskData st) as (createdAt & updatedAt & st1 & Ht & E).
    cbv zeta in Ht, E. rewrite E. cbn [final]. rewrite tasks_afterSave, Ht. cbn [id created].
    destruct (mapGet _ (tasks st)) as [old|] eqn:Hg.
    + now apply mapKeys_mapSet_present with old.
    + now apply mapKeys_mapSet_absent.
  - destruct (bind_discard H (startTask H taskId) st) as [-> _].
    destruct (mapGet taskId (tasks st)) as [t|] eqn:Hget.
    + destruct (startTask_found H st taskId t Hget) as (w0 & o & stamp & st1 & _ & Ht & E).
      rewrite E. cbn [final]. rewrite tasks_afterSave, Ht.
      now apply mapKeys_mapSet_present with t.
    + now rewrite (startTask_absent H _ _ Hget).
  - destruct (bind_discard H (stopTask H taskId) st) as [-> _].
    destruct (mapGet taskId (tasks st)) as [t|] eqn:Hget.
    + destruct (stopTask_tasks H taskId t st Hget) as [->|[stamp ->]]; [reflexivity|].
      now apply mapKeys_mapSet_present with t.
    + now rewrite (stopTask_absent H _ _ Hget).
  - destruct (bind_discard H (getTaskLogs H taskId) st) as [-> _].
    now rewrite getTaskLogs_tasks.
  - unfold restartAutoRestartTasks. rewrite forEachTask_run.
    apply keys_invariant. intros k t s Hk.
    destruct (restartIfDown_tasks k t s Hk) as [->|(o & stamp & ->)]; [reflexivity|].
    now apply mapKeys_mapSet_present with t.
  - rewrite updateTaskStatuses_tasks.
    apply keys_invariant. intros k t s Hk.
    destruct (syncStatus_tasks k t s Hk) as [->|(stamp & s' & ->)]; [reflexivity|].
    now apply mapKeys_mapSet_present with t.
Qed.

(** X10.  A task without a [containerId] is left exactly as it is, its
    [updatedAt] included, by both sweeps, whatever the runtime answers
    about the other tasks. *)
Theorem sweeps_skip_tasks_without_container (st : State H) key task :
  mapGet key (tasks st) = Some task ->
  truthy (containerId task) = false ->
  getTask key (final (updateTaskStatuses H st)) = Some task /\
  getTask key (final (restartAutoRestartTasks H st)) = Some task.
Proof.
  intros Hget Hc. unfold getTask. split.
  - rewrite updateTaskStatuses_tasks.
    apply (forEachKey_invariant H (syncStatus H)
             (fun s _ => mapGet key (tasks s) = Some task)) with (tr := []);
      [|assumption].
    intros k t s tr Hk Hs.
    destruct (syncStatus_run H k t s Hk) as (_ & Hframe & stamp & Hsync).
    destruct (String.eqb_spec k key) as [->|Hne].
    + assert (t = task) as -> by congruence. now rewrite Hsync, Hc.
    + rewrite Hframe by congruence. assumption.
  - unfold restartAutoRestartTasks. rewrite forEachTask_run.
    apply (forEachKey_invariant H (restartIfDown H)
             (fun s _ => mapGet key (tasks s) = Some task)) with (tr := []);
      [|assumption].
    intros k t s tr Hk Hs.
    destruct (String.eqb_spec k key) as [->|Hne].
    + assert (t = task) as -> by congruence.
      unfold restartIfDown. rewrite Hc, andb_false_r. assumption.
    + destruct (restartIfDown_tasks k t s Hk) as [->|(o & stamp & ->)]; [assumption|].
      now rewrite mapGet_mapSet_other.
Qed.

End Kept.

(** ** Further properties of the sweeps *)

Section Sweeps.

Context (H : Host).

Lemma forEachKey_returns (body : string -> Task -> M H unit) :
  (forall k t s, mapGet k (tasks s) = Some t -> outcome (body k t s) = Returned tt) ->
  forall keys st, outcome (forEachKey H body keys st) = Returned tt.
Proof.
  intros Hbody keys. induction keys as [|k rest IH]; intros st; [reflexivity|].
  destruct (mapGet k (tasks st)) as [t|] eqn:Hget.
  - rewrite (forEachKey_cons_present _ _ _ _ _ _ Hget).
    rewrite (bind_outcome _ _ _ _ _ (Hbody _ _ _ Hget)). cbn [outcome]. apply IH.
  - rewrite (forEachKey_cons_absent _ _ _ _ _ Hget). apply IH.
Qed.

Lemma syncStatus_inspects taskId task (st : State H) :
  forallb isInspect (trace (syncStatus H taskId task st)) = true.
Proof.
  unfold syncStatus.
  destruct (truthy (containerId task)); [|reflexivity].
  rewrite bind_getContainerInfo. cbv zeta. cbn [trace forallb].
  change (isInspect (EvSpawn (inspectCommand _) _)) with true. cbn [andb].
  destruct (containerInfoOf _) as [info|]; [|reflexivity].
  destruct (negb _); [|reflexivity].
  rewrite bind_writeTasks, bind_now, bind_writeTasks. reflexivity.
Qed.

(** X11.  [updateTaskStatuses] launches nothing but [podman inspect]
    subprocesses and writes the state file exactly once, after the last of
    them, with the map as the sweep leaves it, also when no status
    changed; the call fails only if that write does. *)
Theorem updateTaskStatuses_saves_once (st : State H) :
  exists inspections snapshot failure,
    trace (updateTaskStatuses H st) =
      (inspections ++ [EvWrite stateFile snapshot failure])%list /\
    forallb isInspect inspections = true /\
    snap_tasks snapshot = tasks (final (updateTaskStatuses H st)) /\
    outcome (updateTaskStatuses H st) = settle failure tt.
Proof.
  unfold updateTaskStatuses, forEachTask. rewrite bind_assoc, bind_readTasks.
  pose proof (forEachKey_returns (syncStatus H)
                (fun k t s Hk => proj1 (syncStatus_run H k t s Hk))
                (mapKeys (tasks st)) st) as Hret.
  assert (Hins : forallb isInspect
                   (trace (forEachKey H (syncStatus H) (mapKeys (tasks st)) st)) = true).
  { apply (forEachKey_invariant H (syncStatus H)
             (fun _ tr => forallb isInspect tr = true)) with (tr := []); [|reflexivity].
    intros k t s tr _ Htr. rewrite forallb_app, Htr. apply syncStatus_inspects. }
  rewrite (bind_outcome _ _ _ _ _ Hret), saveState_run. cbn [outcome final trace].
  set (s1 := final (forEachKey H (syncStatus H) (mapKeys (tasks st)) st)).
  exists (trace (forEachKey H (syncStatus H) (mapKeys (tasks st)) st)),
         (saved s1), (saveFailure s1).
  repeat split; assumption.
Qed.

Lemma sync_sweep_entry (st : State H) taskId task :
  NoDup (mapKeys (tasks st)) ->
  mapGet taskId (tasks st) = Some task ->
  exists st1,
    mapGet taskId (tasks st1) = Some task /\
    mapGet taskId (tasks (final (updateTaskStatuses H st))) =
      mapGet taskId (tasks (final (syncStatus H taskId task st1))).
Proof.
  intros Hnd Hget. rewrite updateTaskStatuses_tasks.
  destruct (forEachKey_visits H (syncStatus H) (fun _ => True) taskId (fun _ => false))
    with (keys := mapKeys (tasks st)) (st := st) (task := task)
    as (st1 & _ & Hget1 & _ & _ & Hfinal & _); auto.
  - intros k t s _ Hk. now destruct (syncStatus_run H k t s Hk).
  - intros k t s _ Hk Hne. split.
    + destruct (syncStatus_run H k t s Hk) as (_ & Hframe & _). apply Hframe. congruence.
    + induction (trace (syncStatus H k t s)); auto.
  - now apply mapGet_In_keys with task.
  - eauto.
Qed.

(** X12.  In a map with distinct keys, the status sweep rewrites a task
    with a [containerId] only when the inspection yields a snapshot whose
    status differs from the stored one, and then it changes the [status]
    and the [updatedAt] of the task and nothing else; otherwise the task
    stays exactly as it was, its [updatedAt] included. *)
Theorem updateTaskStatuses_touches_only_changes (st : State H) taskId task obs :
  NoDup (mapKeys (tasks st)) ->
  mapGet taskId (tasks st) = Some task ->
  truthy (containerId task) = true ->
  (forall w, observe H (narrowed (containerId task)) w = obs) ->
  exists task',
    getTask taskId (final (updateTaskStatuses H st)) = Some task' /\
    match obs with
    | Some info =>
        if Status_eqb (observedStatus info) (status task) then task' = task
        else exists stamp,
               task' = set_updatedAt stamp (set_status (observedStatus info) task)
    | None => task' = task
    end.
Proof.
  intros Hnd Hget Hc Hobs. unfold getTask.
  destruct (sync_sweep_entry st taskId task Hnd Hget) as (st1 & Hget1 & ->).
  destruct (syncStatus_run H taskId task st1 Hget1) as (_ & _ & stamp & ->).
  rewrite Hc, Hobs. eexists. split; [reflexivity|].
  unfold synced. destruct obs as [info|]; [|reflexivity].
  destruct (Status_eqb (observedStatus info) (status task)); cbn [negb]; eauto.
Qed.

Lemma sync_sweep_wellFormed (st : State H) :
  wellFormed (tasks st) -> wellFormed (tasks (final (updateTaskStatuses H st))).
Proof.
  intros Hwf. rewrite updateTaskStatuses_tasks.
  apply (forEachKey_invariant H (syncStatus H)
           (fun s _ => wellFormed (tasks s))) with (tr := []); [|assumption].
  intros k t s tr Hk Hs. now apply syncStatus_wellFormed.
Qed.

Lemma restart_sweep_wellFormed (st : State H) :
  wellFormed (tasks st) -> wellFormed (tasks (final (restartAutoRestartTasks H st))).
Proof.
  intros Hwf. unfold restartAutoRestartTasks. rewrite forEachTask_run.
  apply (forEachKey_invariant H (restartIfDown H)
           (fun s _ => wellFormed (tasks s))) with (tr := []); [|assumption].
  intros k t s tr _ Hs. now apply restartIfDown_wellFormed.
Qed.

Hypothesis writes : writesSucceed H.

Lemma restart_sweep_entry (st : State H) taskId task :
  wellFormed (tasks st) ->
  mapGet taskId (tasks st) = Some task ->
  exists st1,
    mapGet taskId (tasks st1) = Some task /\
    let r := restartAutoRestartTasks H st in
    mapGet taskId (tasks (final r)) =
      mapGet taskId (tasks (final (restartIfDown H taskId task st1))) /\
    filter (launches taskId) (trace r) =
      filter (launches taskId) (trace (restartIfDown H taskId task st1)).
Proof.
  intros Hwf Hget. cbv zeta.
  unfold restartAutoRestartTasks. rewrite forEachTask_run.
  destruct (forEachKey_visits H (restartIfDown H) (fun s => wellFormed (tasks s))
              taskId (launches taskId))
    with (keys := mapKeys (tasks st)) (st := st) (task := task)
    as (st1 & _ & Hget1 & _ & _ & Hfinal & Htrace); auto.
  - intros k t s _ Hk. now destruct (restartIfDown_run H writes k t s Hk).
  - intros k t s Hs Hk. now apply restartIfDown_wellFormed.
  - intros k t s Hs Hk Hne.
    destruct (restartIfDown_run H writes k t s Hk)
      as (_ & [(_ & -> & Hl)|(_ & o & stamp & -> & Hl)]).
    + auto.
    + split.
      * apply mapGet_mapSet_other. assumption.
      * rewrite Hl. cbn [filter]. rewrite launches_run.
        destruct Hs as [_ Hid]. rewrite (Hid _ _ (mapGet_In _ _ _ Hk)).
        now apply String.eqb_neq in Hne as ->.
  - apply Hwf.
  - now apply mapGet_In_keys with task.
  - eauto.
Qed.

Lemma restart_sweep_idle (st : State H) taskId task :
  wellFormed (tasks st) ->
  mapGet taskId (tasks st) = Some task ->
  (eligible task = false \/
   forall w, down (observe H (narrowed (containerId task)) w) = false) ->
  filter (launches taskId) (trace (restartAutoRestartTasks H st)) = [] /\
  getTask taskId (final (restartAutoRestartTasks H st)) = Some task.
Proof.
  intros Hwf Hget Hidle. unfold getTask.
  destruct (restart_sweep_entry st taskId task Hwf Hget) as (st1 & Hget1 & Hf & Ht).
  cbv zeta in Hf, Ht. rewrite Hf, Ht.
  destruct (restartIfDown_run H writes taskId task st1 Hget1)
    as (_ & [(_ & -> & Hl)|(Hr & _)]); [auto|].
  exfalso. apply andb_prop in Hr as [He Hd].
  destruct Hidle as [Hi|Hi]; [congruence | rewrite Hi in Hd; discriminate].
Qed.

(** X15.  On a host whose state-file writes succeed and in a well-formed
    map, the restart sweep launches nothing for a task that meets the
    three conditions but whose inspection yields a snapshot that reports
    [running], and leaves the task as it was. *)
Theorem restartAutoRestartTasks_skips_healthy (st : State H) taskId task :
  wellFormed (tasks st) ->
  mapGet taskId (tasks st) = Some task ->
  eligible task = true ->
  (forall w, down (observe H (narrowed (containerId task)) w) = false) ->
  filter (launches taskId) (trace (restartAutoRestartTasks H st)) = [] /\
  getTask taskId (final (restartAutoRestartTasks H st)) = Some task.
Proof.
  intros Hwf Hget _ Hup. apply restart_sweep_idle; auto.
Qed.

(** X13.  In a well-formed map, on a host whose state-file writes
    succeed: once the status sweep has seen the container of a task in a
    state other than [running], the task is stored as [Stopped], and the
    restart sweep that follows launches nothing for it, whatever its
    [autoRestart] flag. *)
Theorem status_sweep_disables_restart (st : State H) taskId task info :
  wellFormed (tasks st) ->
  mapGet taskId (tasks st) = Some task ->
  truthy (containerId task) = true ->
  (forall w, observe H (narrowed (containerId task)) w = Some info) ->
  reportsRunning info = false ->
  let st1 := final (updateTaskStatuses H st) in
  option_map status (getTask taskId st1) = Some Stopped /\
  filter (launches taskId) (trace (restartAutoRestartTasks H st1)) = [] /\
  getTask taskId (final (restartAutoRestartTasks H st1)) = getTask taskId st1.
Proof.
  intros Hwf Hget Hc Hobs Hinfo. cbv zeta.
  destruct (sync_sweep_entry st taskId task (proj1 Hwf) Hget) as (s1 & Hget1 & Hf).
  destruct (syncStatus_run H taskId task s1 Hget1) as (_ & _ & stamp & Hs).
  rewrite Hc, Hobs in Hs. rewrite Hs in Hf.
  set (task1 := synced task (Some info) stamp) in *.
  assert (Hst : status task1 = Stopped).
  { unfold task1. rewrite status_synced. unfold observedStatus. now rewrite Hinfo. }
  unfold getTask at 1 3. rewrite Hf. cbn [option_map]. rewrite Hst.
  split; [reflexivity|].
  apply restart_sweep_idle; [now apply sync_sweep_wellFormed | assumption |].
  left. unfold eligible. rewrite Hst. cbn [Status_eqb]. now rewrite andb_false_r.
Qed.

Lemma restartIfDown_failed taskId task (st : State H) :
  mapGet taskId (tasks st) = Some task ->
  eligible task = true ->
  down (observe H (narrowed (containerId task)) (world st)) = true ->
  (forall w, success (commandResult (fst (spawn H (runCommandLine task) w))) = false) ->
  exists task',
    mapGet taskId (tasks (final (restartIfDown H taskId task st))) = Some task' /\
    status task' = Error.
Proof.
  intros Hget He Hd Hfail. unfold restartIfDown. fold (eligible task). rewrite He.
  rewrite bind_getContainerInfo. cbv zeta. cbn [final].
  fold (observe H (narrowed (containerId task)) (world st)).
  set (st' := mkState (tasks st) _).
  assert (Hstart : exists task',
            mapGet taskId
              (tasks (final (bind H (startTask H taskId) (fun _ => ret H tt) st')))
              = Some task' /\ status task' = Error).
  { destruct (bind_discard H (startTask H taskId) st') as [-> _].
    destruct (startTask_found H st' taskId task Hget) as (w0 & o & stamp & st1 & Ho & Ht & E).
    exists (started task o stamp). rewrite E. cbn [final].
    rewrite tasks_afterSave, Ht, mapGet_mapSet_same. split; [reflexivity|].
    rewrite status_started, Ho, Hfail. reflexivity. }
  destruct (observe H (narrowed (containerId task)) (world st)) as [info|];
    [|assumption].
  cbn [down] in Hd. rewrite Hd. assumption.
Qed.

(** X14.  On a host whose state-file writes succeed and in a well-formed
    map: when the restart sweep finds the container of a task down and
    the [podman run] it launches fails, the task is stored in [Error],
    and a second restart sweep launches nothing for it: a failed restart
    is not tried again. *)
Theorem failed_restart_is_not_retried (st : State H) taskId task :
  wellFormed (tasks st) ->
  mapGet taskId (tasks st) = Some task ->
  eligible task = true ->
  (forall w, down (observe H (narrowed (containerId task)) w) = true) ->
  (forall w, success (commandResult (fst (spawn H (runCommandLine task) w))) = false) ->
  let st1 := final (restartAutoRestartTasks H st) in
  option_map status (getTask taskId st1) = Some Error /\
  filter (launches taskId) (trace (restartAutoRestartTasks H st1)) = [] /\
  getTask taskId (final (restartAutoRestartTasks H st1)) = getTask taskId st1.
Proof.
  intros Hwf Hget He Hd Hfail. cbv zeta.
  destruct (restart_sweep_entry st taskId task Hwf Hget) as (s1 & Hget1 & Hf & _).
  cbv zeta in Hf.
  destruct (restartIfDown_failed taskId task s1 Hget1 He (Hd _) Hfail) as (task1 & Hg & Hst).
  rewrite Hg in Hf. unfold getTask at 1 3. rewrite Hf. cbn [option_map]. rewrite Hst.
  split; [reflexivity|].
  apply restart_sweep_idle; [now apply restart_sweep_wellFormed | assumption |].
  left. unfold eligible. rewrite Hst. cbn [Status_eqb]. now rewrite andb_false_r.
Qed.

End Sweeps.

(** ** Splitting, joining and trimming *)

Arguments String.append !s1 s2 : simpl nomatch.

Lemma split_not_nil sep s : split sep s <> [].
Proof.
  destruct s as [|c rest]; cbn; [discriminate|].
  destruct (Ascii.eqb c sep); [discriminate|].
  destruct (split sep rest); discriminate.
Qed.

Lemma join_cons sep piece pieces :
  pieces <> [] -> join sep (piece :: pieces) = piece ++ sep ++ join sep pieces.
Proof. destruct pieces; [congruence | reflexivity]. Qed.

Lemma join_split sep s : join (String sep "") (split sep s) = s.
Proof.
  induction s as [|c rest IH]; [reflexivity|]. cbn [split].
  destruct (Ascii.eqb_spec c sep) as [->|Hne].
  - rewrite join_cons by apply split_not_nil. cbn. now rewrite IH.
  - destruct (split sep rest) as [|piece pieces] eqn:E; [now apply split_not_nil in E|].
    destruct pieces as [|next more].
    + cbn in *. now rewrite IH.
    + rewrite join_cons by discriminate. rewrite join_cons in IH by discriminate.
      cbn in IH |- *. now rewrite IH.
Qed.

Lemma contains_app c a b : contains c (a ++ b) = contains c a || contains c b.
Proof.
  induction a as [|d a IH]; cbn; [reflexivity|]. now rewrite IH, orb_assoc.
Qed.

Lemma split_pieces sep s : Forall (fun p => contains sep p = false) (split sep s).
Proof.
  induction s as [|c rest IH]; cbn [split]; [repeat constructor|].
  destruct (Ascii.eqb c sep) eqn:E.
  - constructor; [reflexivity | assumption].
  - destruct (split sep rest) as [|piece pieces]; [repeat constructor; cbn; now rewrite E|].
    inversion IH; subst. constructor; [|assumption]. cbn. now rewrite E.
Qed.

Lemma split_whole sep s : contains sep s = false -> split sep s = [s].
Proof.
  induction s as [|c rest IH]; cbn; [reflexivity|].
  intros Hc. apply orb_false_elim in Hc as [-> Hrest]. now rewrite IH.
Qed.

Lemma split_app sep a b :
  contains sep a = false -> split sep (a ++ String sep b) = a :: split sep b.
Proof.
  induction a as [|c a IH]; cbn.
  - intros _. now rewrite Ascii.eqb_refl.
  - intros Hc. apply orb_false_elim in Hc as [-> Ha]. now rewrite IH.
Qed.

Lemma split_join sep pieces :
  pieces <> [] ->
  Forall (fun p => contains sep p = false) pieces ->
  split sep (join (String sep "") pieces) = pieces.
Proof.
  induction pieces as [|piece rest IH]; [congruence|]. intros _ Hall.
  inversion Hall as [|? ? Hp Hrest]; subst.
  destruct rest as [|next more].
  - now apply split_whole.
  - rewrite join_cons by discriminate. cbn [String.append].
    rewrite split_app by assumption. f_equal. now apply IH.
Qed.

Lemma trimStart_pad pad s : allWhiteSpace pad = true -> trimStart (pad ++ s) = trimStart s.
Proof.
  induction pad as [|c pad IH]; cbn; [reflexivity|].
  intros Hc. apply andb_prop in Hc as [-> Hp]. now apply IH.
Qed.

Lemma trimEnd_blank pad : allWhiteSpace pad = true -> trimEnd pad = "".
Proof.
  induction pad as [|c pad IH]; cbn; [reflexivity|].
  intros Hc. apply andb_prop in Hc as [-> Hp]. now rewrite IH.
Qed.

Lemma trimEnd_pad s pad : allWhiteSpace pad = true -> trimEnd (s ++ pad) = trimEnd s.
Proof.
  intros Hp. induction s as [|c s IH]; cbn; [now apply trimEnd_blank|]. now rewrite IH.
Qed.

Lemma trimEnd_app a b : trimEnd b <> "" -> trimEnd (a ++ b) = a ++ trimEnd b.
Proof.
  intros Hb. induction a as [|c a IH]; cbn; [reflexivity|]. rewrite IH.
  destruct (a ++ trimEnd b) eqn:E; [|reflexivity].
  destruct a; cbn in E; [contradiction | discriminate].
Qed.

Lemma headClean_trimStart s : headClean (trimStart s).
Proof.
  induction s as [|c s IH]; cbn; [exact I|].
  destruct (isWhiteSpace c) eqn:E; [assumption | exact E].
Qed.

Lemma trimStart_headClean s : headClean s -> trimStart s = s.
Proof. destruct s as [|c s]; cbn; [reflexivity|]. now intros ->. Qed.

Lemma headClean_trimEnd s : headClean s -> headClean (trimEnd s).
Proof.
  destruct s as [|c s]; cbn; [auto|]. intros Hc.
  destruct (trimEnd s); rewrite ?Hc; exact Hc.
Qed.

Lemma trimEnd_idem s : trimEnd (trimEnd s) = trimEnd s.
Proof.
  induction s as [|c s IH]; cbn; [reflexivity|].
  destruct (trimEnd s) as [|d kept] eqn:E.
  - destruct (isWhiteSpace c) eqn:Ec; cbn; [reflexivity | now rewrite Ec].
  - change (trimEnd (String c (String d kept)))
      with (match trimEnd (String d kept) with
            | EmptyString => if isWhiteSpace c then EmptyString else String c EmptyString
            | kept' => String c kept'
            end).
    now rewrite IH.
Qed.

Lemma trim_clean s : trimStart (trim s) = trim s /\ trimEnd (trim s) = trim s.
Proof.
  unfold trim. split; [|apply trimEnd_idem].
  apply trimStart_headClean, headClean_trimEnd, headClean_trimStart.
Qed.

Lemma trim_idem s : trim (trim s) = trim s.
Proof.
  destruct (trim_clean s) as [Hs He]. unfold trim at 1. now rewrite Hs, He.
Qed.

Lemma trim_fixed s : trimStart s = s -> trimEnd s = s -> trim s = s.
Proof. intros Hs He. unfold trim. now rewrite Hs, He. Qed.

Lemma trimStart_suffix s : exists pad, s = pad ++ trimStart s.
Proof.
  induction s as [|c s [pad IH]]; cbn; [now exists ""|].
  destruct (isWhiteSpace c); [|now exists ""].
  exists (String c pad). cbn. now rewrite <- IH.
Qed.

Lemma trimEnd_prefix s : exists pad, s = trimEnd s ++ pad.
Proof.
  induction s as [|c s [pad IH]]; cbn; [now exists ""|].
  destruct (trimEnd s) as [|d kept] eqn:E.
  - destruct (isWhiteSpace c); [now exists (String c s)|].
    exists pad. cbn. now rewrite IH.
  - exists pad. cbn. f_equal. exact IH.
Qed.

Lemma contains_trim c s : contains c s = false -> contains c (trim s) = false.
Proof.
  intros Hc. unfold trim.
  destruct (trimStart_suffix s) as [pad Hs].
  destruct (trimEnd_prefix (trimStart s)) as [pad' He].
  rewrite Hs, He, !contains_app in Hc.
  apply orb_false_elim in Hc as [_ Hc]. now apply orb_false_elim in Hc as [Hc _].
Qed.

Lemma allWhiteSpace_no_comma pad : allWhiteSpace pad = true -> contains "," pad = false.
Proof.
  induction pad as [|c pad IH]; cbn; [reflexivity|].
  intros Hc. apply andb_prop in Hc as [Hw Hp]. rewrite (IH Hp), orb_false_r.
  destruct (Ascii.eqb_spec c ","); [subst; discriminate | reflexivity].
Qed.

Lemma length_append a b :
  String.length (a ++ b) = (String.length a + String.length b)%nat.
Proof. induction a as [|c a IH]; cbn; [reflexivity | now rewrite IH]. Qed.

Lemma trimStart_app s t : s <> "" -> trimStart s = s -> trimStart (s ++ t) = s ++ t.
Proof.
  destruct s as [|c s]; [congruence|]. intros _. cbn.
  destruct (isWhiteSpace c) eqn:E; [|reflexivity].
  intros Hs. exfalso.
  destruct (trimStart_suffix s) as [pad Hp]. rewrite Hs in Hp.
  apply (f_equal String.length) in Hp. rewrite length_append in Hp. cbn in Hp. lia.
Qed.

(** X16.  For the output that the format of the inspect command
    produces, a line [id,status,name,image] with white space around it,
    [getContainerInfo] gives back the four fields as they are, provided
    none of them holds a comma and the line itself neither starts nor ends
    with white space. *)
Theorem containerInfoOf_reads_the_format i s n m before after err :
  contains "," i = false -> contains "," s = false ->
  contains "," n = false -> contains "," m = false ->
  allWhiteSpace before = true -> allWhiteSpace after = true ->
  let line := i ++ "," ++ s ++ "," ++ n ++ "," ++ m in
  trimStart line = line -> trimEnd line = line ->
  containerInfoOf (mkCommandResult true (before ++ line ++ after) err)
    = Some (mkContainerInfo (Some i) (Some s) (Some n) (Some m)).
Proof.
  intros Hi Hs Hn Hm Hb Ha line Hstart Hend.
  unfold containerInfoOf. cbn [success output negb].
  assert (Hline : line <> "").
  { unfold line. destruct i; cbn; discriminate. }
  assert (Htrim : trim (before ++ line ++ after) = line).
  { unfold trim. rewrite trimStart_pad by assumption.
    rewrite trimStart_app by assumption. now rewrite trimEnd_pad. }
  rewrite Htrim. unfold line. cbn [String.append].
  change ("," ++ ?x) with (String "," x).
  rewrite !split_app by assumption. now rewrite (split_whole _ m Hm).
Qed.

Example containerInfoOf_reads_the_format_witness :
  containerInfoOf
    (mkCommandResult true ("abc123,exited,task-x,nginx:latest" ++ newline) None)
    = Some (mkContainerInfo (Some "abc123") (Some "exited")
                            (Some "task-x") (Some "nginx:latest")).
Proof.
  apply (containerInfoOf_reads_the_format
           "abc123" "exited" "task-x" "nginx:latest" "" newline None);
    reflexivity.
Defined.

(** ** The fields of the create form *)

Lemma append_assoc3 a b c : (a ++ b) ++ c = a ++ b ++ c.
Proof. induction a as [|d a IH]; cbn; [reflexivity | now rewrite IH]. Qed.

Lemma append_empty_r a : a ++ "" = a.
Proof. induction a as [|d a IH]; cbn; [reflexivity | now rewrite IH]. Qed.

Lemma nonEmpty_true s : nonEmpty s = true <-> s <> "".
Proof.
  unfold nonEmpty. destruct (String.eqb_spec s ""); cbn; split; congruence.
Qed.

(** X17.  A list field of the form (ports, command, volumes) is left out
    of the request when it is blank.  Otherwise the trimmed field is cut
    at its commas into pieces, which joined by commas give the trimmed
    field back and hold no comma themselves, and the request gets, in
    their order, the trimmed pieces that are not empty: each item is
    non-empty, trimmed and holds no comma. *)
Theorem parseList_items field :
  match parseList field with
  | None => trim field = ""
  | Some items =>
      trim field <> "" /\
      (exists pieces,
         join "," pieces = trim field /\
         Forall (fun piece => contains "," piece = false) pieces /\
         items = filter nonEmpty (List.map trim pieces)) /\
      Forall (fun item => item <> "" /\ trim item = item /\ contains "," item = false)
             items
  end.
Proof.
  unfold parseList. destruct (nonEmpty (trim field)) eqn:E.
  - split; [now apply nonEmpty_true|]. split.
    + exists (split "," (trim field)). split; [|split].
      * change "," with (String "," "") at 1. apply join_split.
      * apply split_pieces.
      * reflexivity.
    + apply Forall_forall. intros item Hin.
      apply filter_In in Hin as [Hin Hne]. apply in_map_iff in Hin as (piece & <- & Hp).
      split; [now apply nonEmpty_true|]. split; [apply trim_idem|].
      apply contains_trim.
      pose proof (split_pieces "," (trim field)) as Hall.
      rewrite Forall_forall in Hall. now apply Hall.
  - unfold nonEmpty in E. now destruct (String.eqb_spec (trim field) "").
Qed.

Lemma join_head sep a piece rest :
  a ++ join sep (piece :: rest) = join sep ((a ++ piece) :: rest).
Proof.
  destruct rest as [|next more]; [reflexivity|].
  rewrite (join_cons sep piece), (join_cons sep (a ++ piece)) by discriminate.
  now rewrite append_assoc3.
Qed.

Lemma join_padded pad piece rest :
  join ("," ++ pad) (piece :: rest) =
  join "," (piece :: List.map (fun item => pad ++ item) rest).
Proof.
  revert piece. induction rest as [|next more IH]; intros piece; [reflexivity|].
  cbn [List.map].
  rewrite (join_cons ("," ++ pad) piece), (join_cons "," piece) by discriminate.
  rewrite IH, append_assoc3, join_head. reflexivity.
Qed.

Lemma trimEnd_join sep pieces :
  pieces <> [] ->
  Forall (fun p => p <> "" /\ trimEnd p = p) pieces ->
  trimEnd (join sep pieces) = join sep pieces /\ join sep pieces <> "".
Proof.
  induction pieces as [|piece rest IH]; [congruence|]. intros _ Hall.
  inversion Hall as [|? ? [Hne He] Hrest]; subst.
  destruct rest as [|next more]; [now split|].
  destruct (IH ltac:(discriminate) Hrest) as [IH1 IH2].
  rewrite join_cons by discriminate. split.
  - rewrite <- append_assoc3. rewrite trimEnd_app by (rewrite IH1; exact IH2).
    now rewrite IH1.
  - destruct piece; [congruence | discriminate].
Qed.

(** X18.  Items typed into a list field of the form, separated by commas
    with any white space after each comma, come out as they were typed,
    provided each is non-empty, holds no comma and neither starts nor ends
    with white space. *)
Theorem parseList_reads_items pad items :
  items <> [] ->
  Forall (fun item => item <> "" /\ trimStart item = item /\
                      trimEnd item = item /\ contains "," item = false) items ->
  allWhiteSpace pad = true ->
  parseList (join ("," ++ pad) items) = Some items.
Proof.
  intros Hne Hall Hpad.
  destruct items as [|first rest]; [congruence|].
  inversion Hall as [|? ? (Hf1 & Hf2 & Hf3 & Hf4) Hrest]; subst.
  rewrite join_padded.
  set (padded := first :: List.map (fun item => pad ++ item) rest).
  assert (Hclean : Forall (fun p => p <> "" /\ trimEnd p = p) padded).
  { constructor; [auto|]. apply Forall_forall. intros p Hin.
    apply in_map_iff in Hin as (item & <- & Hin).
    rewrite Forall_forall in Hrest. destruct (Hrest _ Hin) as (H1 & _ & H3 & _). split.
    - destruct pad; [assumption | discriminate].
    - rewrite trimEnd_app by congruence. now rewrite H3. }
  assert (Hcommas : Forall (fun p => contains "," p = false) padded).
  { constructor; [assumption|]. apply Forall_forall. intros p Hin.
    apply in_map_iff in Hin as (item & <- & Hin).
    rewrite Forall_forall in Hrest. destruct (Hrest _ Hin) as (_ & _ & _ & H4).
    now rewrite contains_app, allWhiteSpace_no_comma, H4. }
  destruct (trimEnd_join "," padded ltac:(discriminate) Hclean) as [He Hn].
  assert (Hs : trimStart (join "," padded) = join "," padded).
  { assert (Hform : join "," padded =
                    first ++ join "," ("" :: List.map (fun item => pad ++ item) rest)).
    { rewrite join_head. now rewrite append_empty_r. }
    rewrite Hform. now apply trimStart_app. }
  unfold parseList. rewrite (trim_fixed _ Hs He).
  apply nonEmpty_true in Hn. rewrite Hn.
  rewrite split_join by (assumption || discriminate).
  f_equal. unfold padded. cbn [List.map filter].
  rewrite (trim_fixed _ Hf2 Hf3). apply nonEmpty_true in Hf1. rewrite Hf1. f_equal.
  clear - Hrest Hpad. induction rest as [|item rest IH]; [reflexivity|].
  inversion Hrest as [|? ? (H1 & H2 & H3 & _) Hrest']; subst. cbn [List.map filter].
  assert (Ht : trim (pad ++ item) = item).
  { unfold trim. rewrite trimStart_pad by assumption. now rewrite H2. }
  rewrite Ht. apply nonEmpty_true in H1. rewrite H1. f_equal. now apply IH.
Qed.

Lemma ownEntries_single {A} (key : string) (value : A) :
  ownEntries [(key, value)] = [(key, value)].
Proof.
  unfold ownEntries, isNamed. cbn. now destruct (arrayIndex key).
Qed.

(** X19.  A one-line environment field [key=value] gives the request one
    variable, whose name is the trimmed text before the first [=] and
    whose value is the trimmed text after it, further [=] signs
    included; when that name is [__proto__] the request gets an empty
    environment instead, as the assignment makes no property of that
    name. *)
Theorem parseEnv_reads_a_line key value :
  key <> "" -> trimStart key = key ->
  contains "=" key = false -> contains "010" key = false ->
  contains "010" value = false ->
  trimEnd (key ++ "=" ++ value) = key ++ "=" ++ value ->
  parseEnv (key ++ "=" ++ value) =
    Some (if trim key =? "__proto__" then [] else [(trim key, trim value)]).
Proof.
  intros Hne Hs Heq Hnl Hvl He.
  assert (Hstart : trimStart (key ++ "=" ++ value) = key ++ "=" ++ value)
    by now apply trimStart_app.
  unfold parseEnv. rewrite (trim_fixed _ Hstart He).
  assert (Hfield : nonEmpty (key ++ "=" ++ value) = true).
  { apply nonEmpty_true. destruct key; [congruence | discriminate]. }
  rewrite Hfield. rewrite split_whole.
  2:{ rewrite !contains_app, Hnl, Hvl. reflexivity. }
  cbn [fold_left]. unfold parseEnvLine.
  change ("=" ++ value) with (String "=" value).
  rewrite split_app by assumption.
  apply nonEmpty_true in Hne. rewrite Hne.
  destruct (split "=" value) as [|piece pieces] eqn:E; [now apply split_not_nil in E|].
  cbn [List.length Nat.ltb Nat.leb andb]. rewrite <- E.
  change "=" with (String "=" "") at 1. rewrite join_split.
  unfold assignString. destruct (trim key =? "__proto__"); [reflexivity|].
  cbn [assocSet]. now rewrite ownEntries_single.
Qed.

(** X20.  Of a line of the environment field, the handler keeps nothing
    when the line has no [=], when it starts with one, or when the
    trimmed text before its first [=] is [__proto__]; otherwise it sets
    the variable named by the trimmed text before the first [=] to the
    trimmed text after it, replacing a value that an earlier line gave to
    the same name. *)
Theorem parseEnvLine_cases env key rest :
  contains "=" key = false ->
  parseEnvLine env key = env /\
  parseEnvLine env (key ++ "=" ++ rest) =
    (if nonEmpty key && negb (trim key =? "__proto__")
     then assocSet (trim key) (trim rest) env
     else env).
Proof.
  intros Heq. unfold parseEnvLine. split.
  - rewrite split_whole by assumption. cbn. now rewrite andb_false_r.
  - change ("=" ++ rest) with (String "=" rest).
    rewrite split_app by assumption.
    destruct (split "=" rest) as [|piece pieces] eqn:E; [now apply split_not_nil in E|].
    cbn [List.length Nat.ltb Nat.leb]. rewrite andb_true_r, <- E.
    change "=" with (String "=" "") at 1. rewrite join_split.
    unfold assignString.
    destruct (nonEmpty key); [|reflexivity].
    now destruct (trim key =? "__proto__").
Qed.

(** ** The routes *)

Section Routes.

Context (H : Host).

(** X21.  [POST /api/tasks] never fails: it answers 400 "Invalid request
    body" for a body that does not parse, without touching the state, and
    also when the state-file write of [createTask] is rejected, in which
    case the task has been added to the map all the same; otherwise it
    answers 201 with the task. *)
Theorem createRoute_answers (st : State H) body :
  let r := createRoute H body st in
  match body with
  | Malformed _ =>
      outcome r = Returned (mkResponse 400 (ErrorPayload (Some "Invalid request body"))) /\
      final r = st /\ trace r = []
  | Json taskData =>
      exists task snapshot failure,
        trace r = [EvWrite stateFile snapshot failure] /\
        getTask (id task) (final r) = Some task /\
        outcome r =
          Returned (match failure with
                    | None => mkResponse 201 (TaskPayload task)
                    | Some _ => mkResponse 400 (ErrorPayload (Some "Invalid request body"))
                    end)
  end.
Proof.
  cbv zeta. unfold createRoute, tryCatch. destruct body as [reason|taskData].
  - rewrite (bind_thrown H _ _ st reason st []) by reflexivity. cbn. auto.
  - rewrite bind_ret.
    destruct (createTask_run H taskData st) as (createdAt & updatedAt & st1 & Ht & E).
    cbv zeta in Ht, E.
    exists (created taskData (fst (randomUUID H (world st))) createdAt updatedAt),
           (saved st1), (saveFailure st1).
    unfold bind. rewrite E. cbn [outcome final trace].
    destruct (saveFailure st1) as [reason|]; cbn [settle outcome final trace ret];
      rewrite ?app_nil_r; unfold getTask; rewrite tasks_afterSave, Ht;
      cbn [id created]; rewrite mapGet_mapSet_same; auto.
Qed.

(** X22.  For an identifier that is not a key of the map, [GET
    /api/tasks/:id] answers 404, while the start, stop, delete and logs
    routes answer 400; none of them launches a subprocess, writes the
    state file or changes the state. *)
Theorem routes_on_unknown_task (st : State H) taskId :
  mapGet taskId (tasks st) = None ->
  getRoute H taskId st =
    mkRun (Returned (mkResponse 404 (ErrorPayload (Some "Task not found")))) st [] /\
  startRoute H taskId st =
    mkRun (Returned (mkResponse 400 (ReplyPayload (mkReply false "Task not found")))) st [] /\
  stopRoute H taskId st =
    mkRun (Returned (mkResponse 400 (ReplyPayload (mkReply false "Task not found")))) st [] /\
  deleteRoute H taskId st =
    mkRun (Returned (mkResponse 400 (ReplyPayload (mkReply false "Task not found")))) st [] /\
  logsRoute H taskId st =
    mkRun (Returned (mkResponse 400 (ErrorPayload (Some "Task or container not found"))))
          st [].
Proof.
  intros Hget. repeat split.
  - unfold getRoute. now rewrite bind_readTasks, Hget.
  - unfold startRoute. now rewrite (bind_silent H _ _ _ _ _ (startTask_absent H _ _ Hget)).
  - unfold stopRoute. now rewrite (bind_silent H _ _ _ _ _ (stopTask_absent H _ _ Hget)).
  - unfold deleteRoute. now rewrite (bind_silent H _ _ _ _ _ (removeTask_absent H _ _ Hget)).
  - unfold logsRoute. now rewrite (bind_silent H _ _ _ _ _ (getTaskLogs_absent H _ _ Hget)).
Qed.

(** X23.  [POST /api/tasks/:id/start] on a task of the map answers 200
    exactly when the [podman run] subprocess exited with 0, and 400 with
    the failure otherwise, provided the state-file write that follows is
    not rejected; when it is, the route fails although the task has
    already been marked [Running] or [Error] in the map. *)
Theorem startRoute_answers (st : State H) taskId task :
  mapGet taskId (tasks st) = Some task ->
  exists o snapshot failure,
    trace (startRoute H taskId st) =
      [EvSpawn (runCommandLine task) o; EvWrite stateFile snapshot failure] /\
    option_map status (getTask taskId (final (startRoute H taskId st)))
      = Some (if success (commandResult o) then Running else Error) /\
    outcome (startRoute H taskId st) =
      match failure with
      | None =>
          Returned (mkResponse (if success (commandResult o) then 200 else 400)
                               (ReplyPayload (startReply o)))
      | Some reason => Thrown reason
      end.
Proof.
  intros Hget.
  destruct (startTask_found H st taskId task Hget) as (w0 & o & stamp & st1 & _ & Ht & E).
  exists o, (saved st1), (saveFailure st1).
  unfold startRoute, bind. rewrite E. cbn [outcome final trace].
  destruct (saveFailure st1) as [reason|]; cbn [settle outcome final trace ret];
    rewrite ?app_nil_r; unfold getTask; rewrite tasks_afterSave, Ht, mapGet_mapSet_same;
    cbn [option_map]; rewrite status_started; repeat split.
  unfold replyResponse, startReply. now destruct (success (commandResult o)).
Qed.

End Routes.

(** ** Reading the state back *)

From Stdlib Require Import Permutation.

Lemma In_mapGet key t m :
  NoDup (mapKeys m) -> In (key, t) m -> mapGet key m = Some t.
Proof.
  induction m as [|[k u] rest IH]; simpl; [easy|].
  intros Hnd Hin. inversion Hnd as [|? ? Hnot Hrest]; subst.
  destruct Hin as [E|Hin].
  - inversion E; subst. now rewrite String.eqb_refl.
  - destruct (String.eqb_spec k key) as [->|Hne]; [|now apply IH].
    exfalso. apply Hnot. unfold mapKeys. apply in_map_iff. now exists (key, t).
Qed.

Lemma mapGet_Permutation m m' key :
  NoDup (mapKeys m) -> Permutation m m' -> mapGet key m' = mapGet key m.
Proof.
  intros Hnd Hp.
  assert (Hnd' : NoDup (mapKeys m')).
  { unfold mapKeys in *. eapply Permutation_NoDup; [|exact Hnd]. now apply Permutation_map. }
  destruct (mapGet key m) as [t|] eqn:E.
  - apply In_mapGet; [assumption|]. eapply Permutation_in; [exact Hp|]. now apply mapGet_In.
  - apply mapGet_None_keys. apply mapGet_None_keys in E. intros Hin. apply E.
    unfold mapKeys in *. eapply Permutation_in; [|exact Hin].
    apply Permutation_map. now apply Permutation_sym.
Qed.

Lemma newMap_from acc entries :
  NoDup (mapKeys acc ++ mapKeys entries) ->
  fold_left (fun m e => mapSet (fst e) (snd e) m) entries acc = (acc ++ entries)%list.
Proof.
  revert acc. induction entries as [|[k t] rest IH]; intros acc Hnd; cbn.
  - now rewrite app_nil_r.
  - assert (Hfresh : mapGet k acc = None).
    { apply mapGet_None_keys. intros Hin.
      apply NoDup_remove_2 in Hnd. apply Hnd. apply in_or_app. now left. }
    rewrite (mapSet_absent _ _ _ Hfresh), IH.
    + now rewrite <- app_assoc.
    + unfold mapKeys in *. rewrite map_app. cbn. rewrite <- app_assoc. exact Hnd.
Qed.

Lemma newMap_distinct entries : NoDup (mapKeys entries) -> newMap entries = entries.
Proof. intros Hnd. unfold newMap. now rewrite newMap_from. Qed.

Lemma insertIndexed_Permutation {A} n (e : string * A) l :
  Permutation (insertIndexed n e l) ((n, e) :: l).
Proof.
  induction l as [|[m e'] rest IH]; cbn; [reflexivity|].
  destruct (n <? m)%N; [reflexivity|].
  rewrite IH. apply perm_swap.
Qed.

Lemma ownEntries_Permutation {A} (o : list (string * A)) : Permutation (ownEntries o) o.
Proof.
  unfold ownEntries. induction o as [|e rest IH]; cbn; [reflexivity|].
  unfold isNamed at 1. destruct (arrayIndex (fst e)) as [n|].
  - rewrite insertIndexed_Permutation. cbn. now constructor.
  - rewrite <- Permutation_middle. now constructor.
Qed.

Lemma ownEntries_named {A} (o : list (string * A)) :
  Forall (fun e => arrayIndex (fst e) = None) o -> ownEntries o = o.
Proof.
  intros Hall. unfold ownEntries.
  assert (Hi : indexed o = []).
  { induction Hall as [|e rest He Hrest IH]; [reflexivity|].
    cbn [indexed]. now rewrite He. }
  assert (Hf : filter isNamed o = o).
  { induction Hall as [|e rest He Hrest IH]; [reflexivity|].
    cbn [filter]. unfold isNamed at 1. rewrite He. f_equal. apply IH.
    cbn [indexed] in Hi. now rewrite He in Hi. }
  now rewrite Hi, Hf.
Qed.

Section Reload.

Context (H : Host).

(** X24.  A state file that cannot be read or parsed leaves the map as
    it is and does not make [loadState] fail.  When [loadState] reads back
    the snapshot that [saveState] writes for a map with distinct keys, it
    installs the same tasks under the same keys: every lookup gives what
    it gave before the save, and the map is the saved one up to the order
    of its entries. *)
Theorem loadState_restores (st st0 : State H) reason :
  NoDup (mapKeys (tasks st)) ->
  loadState H (Unreadable reason) st0 = mkRun (Returned tt) st0 [] /\
  exists snapshot failure,
    trace (saveState H st) = [EvWrite stateFile snapshot failure] /\
    let st' := final (loadState H (StateObject (Some (storedEntries snapshot))) st0) in
    outcome (loadState H (StateObject (Some (storedEntries snapshot))) st0) = Returned tt /\
    (forall key, getTask key st' = getTask key st) /\
    Permutation (tasks st') (tasks st) /\
    tasks st' = ownEntries (tasks st).
Proof.
  intros Hnd. split; [reflexivity|].
  exists (saved st), (saveFailure st). rewrite saveState_run. cbn [trace].
  split; [reflexivity|]. cbv zeta. unfold loadState, writeTasks. cbn [outcome final tasks].
  split; [reflexivity|].
  unfold storedEntries, saved. cbn [snap_tasks]. rewrite (newMap_distinct _ Hnd).
  assert (Hperm : Permutation (ownEntries (tasks st)) (tasks st))
    by apply ownEntries_Permutation.
  assert (Hnd' : NoDup (mapKeys (ownEntries (tasks st)))).
  { unfold mapKeys in *. eapply Permutation_NoDup; [|exact Hnd].
    apply Permutation_map. now apply Permutation_sym. }
  rewrite (newMap_distinct _ Hnd'). repeat split; [|assumption].
  intros key. unfold getTask. cbn [tasks]. symmetry.
  apply mapGet_Permutation; [assumption | now apply Permutation_sym].
Qed.

(** X25.  When no key of the map is an array index, which is how the
    properties of an object get reordered, reading back the snapshot that
    [saveState] writes installs exactly the saved map, in the same
    order. *)
Theorem loadState_keeps_order (st st0 : State H) :
  NoDup (mapKeys (tasks st)) ->
  Forall (fun key => arrayIndex key = None) (mapKeys (tasks st)) ->
  tasks (final (loadState H (StateObject (Some (storedEntries (saved st)))) st0))
    = tasks st.
Proof.
  intros Hnd Hnamed. unfold loadState, writeTasks. cbn [final tasks].
  unfold storedEntries, saved. cbn [snap_tasks]. rewrite (newMap_distinct _ Hnd).
  rewrite ownEntries_named.
  - now apply newMap_distinct.
  - unfold mapKeys in Hnamed. now rewrite Forall_map in Hnamed.
Qed.

End Reload.

(** ** The further statements at concrete inputs *)

Example ownEntries_reorders :
  ownEntries [("b", 1); ("10", 2); ("9", 3); ("01", 4)]
    = [("9", 3); ("10", 2); ("b", 1); ("01", 4)].
Proof. reflexivity. Qed.

Example parseList_only_commas : parseList " , ," = Some [].
Proof. reflexivity. Qed.

Example parseEnv_proto_is_not_set :
  parseEnv ("__proto__ =x" ++ newline ++ "A=1") = Some [("A", "1")] /\
  parseEnv "__proto__=x" = Some [].
Proof. split; reflexivity. Qed.

Example parseEnv_later_line_wins :
  parseEnv ("A=1" ++ newline ++ "B = x=y" ++ newline ++ "junk" ++ newline ++ "A=2")
    = Some [("A", "2"); ("B", "x=y")].
Proof. reflexivity. Qed.

Lemma unknown_task_is_inert_witness :
  startTask hostUp "id9" (storeOf hostUp 0 freshTask)
    = mkRun (Returned (mkReply false "Task not found")) (storeOf hostUp 0 freshTask) [] /\
  stopTask hostUp "id9" (storeOf hostUp 0 freshTask)
    = mkRun (Returned (mkReply false "Task not found")) (storeOf hostUp 0 freshTask) [] /\
  removeTask hostUp "id9" (storeOf hostUp 0 freshTask)
    = mkRun (Returned (mkReply false "Task not found")) (storeOf hostUp 0 freshTask) [] /\
  getTaskLogs hostUp "id9" (storeOf hostUp 0 freshTask)
    = mkRun (Returned (mkLogsReply false None (Some "Task or container not found")))
            (storeOf hostUp 0 freshTask) [].
Proof.
  apply (unknown_task_is_inert hostUp (storeOf hostUp 0 freshTask) "id9" eq_refl).
Defined.

Lemma getTaskLogs_only_reads_witness :
  tasks (final (getTaskLogs hostGone "id0" (storeOf hostGone 0 liveTask)))
    = tasks (storeOf hostGone 0 liveTask) /\
  outcome (getTaskLogs hostGone "id0" (storeOf hostGone 0 liveTask))
    = Returned (mkLogsReply false None
                  (Some "Failed to get logs: Error: no such container")) /\
  trace (getTaskLogs hostGone "id0" (storeOf hostGone 0 liveTask))
    = [EvSpawn ["podman"; "logs"; "--tail"; "100"; "abc123"]
               (Exited 125 "" "Error: no such container")].
Proof.
  exact (getTaskLogs_only_reads hostGone (storeOf hostGone 0 liveTask)
           "id0" liveTask eq_refl).
Defined.

Lemma createTask_appends_witness :
  exists task,
    id task = "id7" /\
    tasks (final (createTask hostUp webData (storeOf hostUp 7 freshTask)))
      = (tasks (storeOf hostUp 7 freshTask) ++ [(id task, task)])%list /\
    getTasks (final (createTask hostUp webData (storeOf hostUp 7 freshTask)))
      = (getTasks (storeOf hostUp 7 freshTask) ++ [task])%list.
Proof.
  exact (createTask_appends hostUp (storeOf hostUp 7 freshTask) webData eq_refl).
Defined.

Lemma createTask_overwrites_witness :
  mapKeys (tasks (final (createTask hostUp blankData (storeOf hostUp 0 liveTask))))
    = ["id0"; "id1"] /\
  exists task,
    getTask "id0" (final (createTask hostUp blankData (storeOf hostUp 0 liveTask)))
      = Some task /\
    name task = "" /\ image task = "" /\ status task = Stopped /\ containerId task = None.
Proof.
  exact (createTask_overwrites hostUp (storeOf hostUp 0 liveTask) blankData liveTask eq_refl).
Defined.

Lemma task_specification_is_kept_witness :
  exists task',
    getTask "id0" (final (perform hostExited (Start "id0") (storeOf hostExited 0 liveTask)))
      = Some task' /\
    sameSpec liveTask task' /\
    runCommandLine task' = runCommandLine liveTask.
Proof.
  exact (task_specification_is_kept hostExited (storeOf hostExited 0 liveTask)
           (Start "id0") "id0" liveTask eq_refl I).
Defined.

Lemma stopTask_after_startTask_witness :
  exists o rest,
    trace (startTask hostUp "id0" (storeOf hostUp 0 freshTask))
      = EvSpawn (runCommandLine freshTask) o :: rest /\
    commands (trace (stopTask hostUp "id0"
                       (final (startTask hostUp "id0" (storeOf hostUp 0 freshTask))))) =
      if success (commandResult o)
      then (if trim (output (commandResult o)) =? "" then []
            else [["podman"; "stop"; trim (output (commandResult o))]])
      else [].
Proof.
  exact (stopTask_after_startTask hostUp (storeOf hostUp 0 freshTask)
           "id0" freshTask eq_refl).
Defined.

Lemma removeTask_subprocesses_witness :
  commands (trace (removeTask hostGone "id0" (storeOf hostGone 0 liveTask)))
    = [["podman"; "stop"; "abc123"]; ["podman"; "rm"; "abc123"]].
Proof.
  exact (removeTask_subprocesses hostGone (storeOf hostGone 0 liveTask) "id0" liveTask
           ltac:(concrete_writes) eq_refl).
Defined.

Lemma removed_task_is_gone_witness :
  removeTask hostUp "id0" (final (removeTask hostUp "id0" (storeOf hostUp 0 liveTask)))
    = mkRun (Returned (mkReply false "Task not found"))
            (final (removeTask hostUp "id0" (storeOf hostUp 0 liveTask))) [] /\
  startTask hostUp "id0" (final (removeTask hostUp "id0" (storeOf hostUp 0 liveTask)))
    = mkRun (Returned (mkReply false "Task not found"))
            (final (removeTask hostUp "id0" (storeOf hostUp 0 liveTask))) [] /\
  stopTask hostUp "id0" (final (removeTask hostUp "id0" (storeOf hostUp 0 liveTask)))
    = mkRun (Returned (mkReply false "Task not found"))
            (final (removeTask hostUp "id0" (storeOf hostUp 0 liveTask))) [] /\
  getTaskLogs hostUp "id0" (final (removeTask hostUp "id0" (storeOf hostUp 0 liveTask)))
    = mkRun (Returned (mkLogsReply false None (Some "Task or container not found")))
            (final (removeTask hostUp "id0" (storeOf hostUp 0 liveTask))) [].
Proof.
  exact (removed_task_is_gone hostUp (storeOf hostUp 0 liveTask) "id0" liveTask
           ltac:(concrete_writes) eq_refl).
Defined.

Lemma sweeps_skip_tasks_without_container_witness :
  getTask "id1" (final (updateTaskStatuses hostExited (storeOf hostExited 0 liveTask)))
    = Some idleTask /\
  getTask "id1" (final (restartAutoRestartTasks hostExited (storeOf hostExited 0 liveTask)))
    = Some idleTask.
Proof.
  exact (sweeps_skip_tasks_without_container hostExited (storeOf hostExited 0 liveTask)
           "id1" idleTask eq_refl eq_refl).
Defined.

Lemma updateTaskStatuses_touches_only_changes_witness :
  (exists task',
     getTask "id0" (final (updateTaskStatuses hostUp (storeOf hostUp 0 liveTask)))
       = Some task' /\
     task' = liveTask) /\
  (exists task',
     getTask "id0" (final (updateTaskStatuses hostExited (storeOf hostExited 0 liveTask)))
       = Some task' /\
     exists stamp, task' = set_updatedAt stamp (set_status Stopped liveTask)).
Proof.
  split.
  - exact (updateTaskStatuses_touches_only_changes hostUp (storeOf hostUp 0 liveTask)
             "id0" liveTask
             (Some (mkContainerInfo (Some "abc123") (Some "running")
                                    (Some "task-x") (Some "nginx:latest")))
             ltac:(concrete_keys) eq_refl eq_refl (fun w => eq_refl)).
  - exact (updateTaskStatuses_touches_only_changes hostExited (storeOf hostExited 0 liveTask)
             "id0" liveTask
             (Some (mkContainerInfo (Some "abc123") (Some "exited")
                                    (Some "task-x") (Some "nginx:latest")))
             ltac:(concrete_keys) eq_refl eq_refl (fun w => eq_refl)).
Defined.

Lemma status_sweep_disables_restart_witness :
  option_map status
    (getTask "id0" (final (updateTaskStatuses hostExited (storeOf hostExited 0 liveTask))))
    = Some Stopped /\
  filter (launches "id0")
    (trace (restartAutoRestartTasks hostExited
              (final (updateTaskStatuses hostExited (storeOf hostExited 0 liveTask))))) = [] /\
  getTask "id0"
    (final (restartAutoRestartTasks hostExited
              (final (updateTaskStatuses hostExited (storeOf hostExited 0 liveTask)))))
    = getTask "id0" (final (updateTaskStatuses hostExited (storeOf hostExited 0 liveTask))).
Proof.
  exact (status_sweep_disables_restart hostExited ltac:(concrete_writes)
           (storeOf hostExited 0 liveTask) "id0" liveTask
           (mkContainerInfo (Some "abc123") (Some "exited")
                            (Some "task-x") (Some "nginx:latest"))
           ltac:(split; [concrete_keys | concrete_ids]) eq_refl eq_refl
           (fun w => eq_refl) eq_refl).
Defined.

Lemma failed_restart_is_not_retried_witness :
  option_map status
    (getTask "id0" (final (restartAutoRestartTasks hostGone (storeOf hostGone 0 liveTask))))
    = Some Error /\
  filter (launches "id0")
    (trace (restartAutoRestartTasks hostGone
              (final (restartAutoRestartTasks hostGone (storeOf hostGone 0 liveTask))))) = [] /\
  getTask "id0"
    (final (restartAutoRestartTasks hostGone
              (final (restartAutoRestartTasks hostGone (storeOf hostGone 0 liveTask)))))
    = getTask "id0" (final (restartAutoRestartTasks hostGone (storeOf hostGone 0 liveTask))).
Proof.
  exact (failed_restart_is_not_retried hostGone ltac:(concrete_writes)
           (storeOf hostGone 0 liveTask) "id0" liveTask
           ltac:(split; [concrete_keys | concrete_ids]) eq_refl eq_refl
           (fun w => eq_refl) (fun w => eq_refl)).
Defined.

Lemma restartAutoRestartTasks_skips_healthy_witness :
  filter (launches "id0")
    (trace (restartAutoRestartTasks hostUp (storeOf hostUp 0 liveTask))) = [] /\
  getTask "id0" (final (restartAutoRestartTasks hostUp (storeOf hostUp 0 liveTask)))
    = Some liveTask.
Proof.
  exact (restartAutoRestartTasks_skips_healthy hostUp ltac:(concrete_writes)
           (storeOf hostUp 0 liveTask) "id0" liveTask
           ltac:(split; [concrete_keys | concrete_ids]) eq_refl eq_refl
           (fun w => eq_refl)).
Defined.

Lemma parseList_reads_items_witness :
  parseList (join ("," ++ " ") ["8080:80"; "9090:90"; "53:53/udp"])
    = Some ["8080:80"; "9090:90"; "53:53/udp"].
Proof.
  apply (parseList_reads_items " " ["8080:80"; "9090:90"; "53:53/udp"]);
    [discriminate | repeat constructor; discriminate | reflexivity].
Defined.

Lemma parseEnv_reads_a_line_witness :
  parseEnv ("JAVA_OPTS " ++ "=" ++ " -Dmode=fast")
    = Some (if trim "JAVA_OPTS " =? "__proto__" then []
            else [(trim "JAVA_OPTS ", trim " -Dmode=fast")]).
Proof.
  apply (parseEnv_reads_a_line "JAVA_OPTS " " -Dmode=fast");
    (discriminate || reflexivity).
Defined.

Lemma parseEnvLine_cases_witness :
  parseEnvLine [("PORT", "80")] "PORT" = [("PORT", "80")] /\
  parseEnvLine [("PORT", "80")] ("PORT" ++ "=" ++ "8080") =
    (if nonEmpty "PORT" && negb (trim "PORT" =? "__proto__")
     then assocSet (trim "PORT") (trim "8080") [("PORT", "80")]
     else [("PORT", "80")]).
Proof.
  exact (parseEnvLine_cases [("PORT", "80")] "PORT" "8080" eq_refl).
Defined.

Lemma routes_on_unknown_task_witness :
  getRoute hostUp "id9" (emptyStore hostUp 0) =
    mkRun (Returned (mkResponse 404 (ErrorPayload (Some "Task not found"))))
          (emptyStore hostUp 0) [] /\
  startRoute hostUp "id9" (emptyStore hostUp 0) =
    mkRun (Returned (mkResponse 400 (ReplyPayload (mkReply false "Task not found"))))
          (emptyStore hostUp 0) [] /\
  stopRoute hostUp "id9" (emptyStore hostUp 0) =
    mkRun (Returned (mkResponse 400 (ReplyPayload (mkReply false "Task not found"))))
          (emptyStore hostUp 0) [] /\
  deleteRoute hostUp "id9" (emptyStore hostUp 0) =
    mkRun (Returned (mkResponse 400 (ReplyPayload (mkReply false "Task not found"))))
          (emptyStore hostUp 0) [] /\
  logsRoute hostUp "id9" (emptyStore hostUp 0) =
    mkRun (Returned (mkResponse 400 (ErrorPayload (Some "Task or container not found"))))
          (emptyStore hostUp 0) [].
Proof.
  exact (routes_on_unknown_task hostUp (emptyStore hostUp 0) "id9" eq_refl).
Defined.

Lemma startRoute_answers_witness :
  exists o snapshot failure,
    trace (startRoute hostDiskFull "id0" (storeOf hostDiskFull 0 freshTask)) =
      [EvSpawn (runCommandLine freshTask) o; EvWrite stateFile snapshot failure] /\
    option_map status
      (getTask "id0" (final (startRoute hostDiskFull "id0" (storeOf hostDiskFull 0 freshTask))))
      = Some (if success (commandResult o) then Running else Error) /\
    outcome (startRoute hostDiskFull "id0" (storeOf hostDiskFull 0 freshTask)) =
      match failure with
      | None =>
          Returned (mkResponse (if success (commandResult o) then 200 else 400)
                               (ReplyPayload (startReply o)))
      | Some reason => Thrown reason
      end.
Proof.
  exact (startRoute_answers hostDiskFull (storeOf hostDiskFull 0 freshTask)
           "id0" freshTask eq_refl).
Defined.

Lemma loadState_restores_witness :
  loadState hostUp (Unreadable "No such file") (emptyStore hostUp 0)
    = mkRun (Returned tt) (emptyStore hostUp 0) [] /\
  exists snapshot failure,
    trace (saveState hostUp (storeOf hostUp 0 liveTask))
      = [EvWrite stateFile snapshot failure] /\
    outcome (loadState hostUp (StateObject (Some (storedEntries snapshot)))
               (emptyStore hostUp 0)) = Returned tt /\
    (forall key,
       getTask key (final (loadState hostUp (StateObject (Some (storedEntries snapshot)))
                             (emptyStore hostUp 0)))
         = getTask key (storeOf hostUp 0 liveTask)) /\
    Permutation
      (tasks (final (loadState hostUp (StateObject (Some (storedEntries snapshot)))
                       (emptyStore hostUp 0))))
      (tasks (storeOf hostUp 0 liveTask)) /\
    tasks (final (loadState hostUp (StateObject (Some (storedEntries snapshot)))
                    (emptyStore hostUp 0)))
      = ownEntries (tasks (storeOf hostUp 0 liveTask)).
Proof.
  exact (loadState_restores hostUp (storeOf hostUp 0 liveTask) (emptyStore hostUp 0)
           "No such file" ltac:(concrete_keys)).
Defined.

Lemma loadState_keeps_order_witness :
  tasks (final (loadState hostUp
                  (StateObject (Some (storedEntries (saved (storeOf hostUp 0 liveTask)))))
                  (emptyStore hostUp 0)))
    = tasks (storeOf hostUp 0 liveTask).
Proof.
  exact (loadState_keeps_order hostUp (storeOf hostUp 0 liveTask) (emptyStore hostUp 0)
           ltac:(concrete_keys) ltac:(repeat constructor)).
Defined.

Lemma perform_wellFormed_witness :
  wellFormed (tasks (final (perform hostUp (Create webData) (storeOf hostUp 7 liveTask)))).
Proof.
  exact (perform_wellFormed hostUp (storeOf hostUp 7 liveTask) (Create webData)
           ltac:(split; [concrete_keys | concrete_ids]) eq_refl).
Defined.

Lemma removeTask_wellFormed_witness :
  wellFormed (tasks (final (removeTask hostDiskFull "id0" (storeOf hostDiskFull 0 liveTask)))).
Proof.
  exact (removeTask_wellFormed hostDiskFull (storeOf hostDiskFull 0 liveTask) "id0"
           ltac:(split; [concrete_keys | concrete_ids])).
Defined.
